(** * AI-Portfolio-Manager: template index, reconciliation, scoring history

    A shallow embedding of the parts of the portfolio manager that keep an
    index in step with files on disk:

    - [TemplateManager] (src/TemplateManager.js): the template index, its
      load/save, registration, update and the reconciliation with the
      template directories;
    - [AlignmentScorer] (src/AlignmentScorer.js): the bounded scoring
      history kept by [scoreProject];
    - [Lifecycle]: the project stage machine, whose code (the [cli]
      executable) is not part of the sources at hand;
    - [TemplateOps] and [ScorerOps]: the other operations of the two
      classes (directories, deletion, validation, listing; the queries
      and the integer-valued component scores).

    JavaScript objects used as maps are finite maps from their own keys;
    what a plain object inherits from [Object.prototype] is modelled where
    the code meets it: a read under an inherited name, the assignment to
    [__proto__], a call of [hasOwnProperty].  An object whose prototype
    was replaced by such an assignment is not a state of this model.
    Paths are POSIX paths joined without normalisation; the statements
    that depend on the path of a template file ask that the joined path
    be normalised already ([Path.normal]), so that [path.join] returns
    it as joined. *)

From Stdlib Require Import ZArith Ascii String List.
From Stdlib Require Import Sorted.
From stdpp Require Import gmap strings list fin_maps pretty.

Set Warnings "-register-all,-clear-no-such-hyp".
Open Scope string_scope.

(* ===================================================================== *)
(** * JSON documents and the JavaScript operators applied to them *)
(* ===================================================================== *)

Module Js.

(** A value that [JSON.parse] can return.  [undefined] is not a JSON value:
    a read that yields [undefined] is [None] in [option value]. *)
Inductive value :=
  | VNull
  | VBool (b : bool)
  | VNum (n : Z)
  | VStr (s : string)
  | VArr (l : list value)
  | VObj (o : gmap string value).

(** The characters of a string, as the one-character strings JavaScript
    exposes under the index keys. *)
Fixpoint chars (s : string) : list value :=
  match s with
  | EmptyString => []
  | String c s' => VStr (String c EmptyString) :: chars s'
  end.

Definition indexed (l : list value) : gmap string value :=
  list_to_map (imap (fun i x => (pretty i, x)) l).

(** The own enumerable properties of a value: what [{...v}] copies. *)
Definition own_props (v : option value) : gmap string value :=
  match v with
  | Some (VObj o) => o
  | Some (VArr l) => indexed l
  | Some (VStr s) => indexed (chars s)
  | _ => ∅
  end.

(** [v.k] for a receiver that is neither [null] nor [undefined]: the own
    property of that name.  What a value inherits (the members of
    [Object.prototype], the [length] and the methods of arrays and
    strings) is left out: the code below reads a document under the
    names of template fields only, none of which is inherited. *)
Definition prop (v : value) (k : string) : option value :=
  own_props (Some v) !! k.

(** [v?.k]: [undefined] when the receiver is [null] or [undefined]. *)
Definition prop_opt (v : option value) (k : string) : option value :=
  match v with
  | None | Some VNull => None
  | Some w => prop w k
  end.

(** ToBoolean. *)
Definition truthy (v : option value) : bool :=
  match v with
  | None | Some VNull => false
  | Some (VBool b) => b
  | Some (VNum n) => negb (n =? 0)%Z
  | Some (VStr s) => negb (String.eqb s "")
  | Some (VArr _) | Some (VObj _) => true
  end.

(** [a || b] with a defined right operand. *)
Definition or_else (a : option value) (b : value) : value :=
  match a with
  | Some v => if truthy a then v else b
  | None => b
  end.

(** An object literal field [k: e] whose expression may be [undefined];
    such a field is dropped by [JSON.stringify] and reads as [undefined],
    so it is kept absent. *)
Definition set_field (k : string) (e : option value)
    (o : gmap string value) : gmap string value :=
  match e with
  | Some v => <[k := v]> o
  | None => delete k o
  end.

(** [{...a, ...b}]: the properties of [b] win. *)
Definition spread2 (a b : option value) : gmap string value :=
  own_props b ∪ own_props a.

(** ** Plain objects used as maps *)

(** The names every plain object inherits from [Object.prototype].  Read
    on an object that has no own property of that name, each yields a
    function or, for [__proto__], the prototype itself: a truthy value
    that is none of the object's own values. *)
Definition inheritedKeys : list string :=
  ["constructor"; "hasOwnProperty"; "isPrototypeOf"; "propertyIsEnumerable";
   "toLocaleString"; "toString"; "valueOf"; "__proto__";
   "__defineGetter__"; "__defineSetter__"; "__lookupGetter__"; "__lookupSetter__"].

Definition inherited (k : string) : bool := bool_decide (k ∈ inheritedKeys).

(** [o[k] = v]: under the name [__proto__] the assignment makes no own
    property (it sets the prototype when [v] is an object and does nothing
    otherwise), unless the object has an own property of that name
    already, as [JSON.parse] can make one. *)
Definition assign {A} (k : string) (v : A) (o : gmap string A) : gmap string A :=
  if String.eqb k "__proto__" && negb (bool_decide (is_Some (o !! k)))
  then o else <[k := v]> o.

(** [o.hasOwnProperty(k)] on an object whose own values are objects: an
    own property named [hasOwnProperty] hides the method and is not
    callable ([None]: a [TypeError]). *)
Definition hasOwnProperty {A} (o : gmap string A) (k : string) : option bool :=
  if bool_decide (is_Some (o !! "hasOwnProperty")) then None
  else Some (bool_decide (is_Some (o !! k))).

(** Whether [o[k]] is truthy, for an object whose own values are truthy
    when [own] says so: an own property decides, an inherited member is
    truthy, anything else is [undefined]. *)
Definition truthyAt {A} (own : A -> bool) (o : gmap string A) (k : string) : bool :=
  match o !! k with
  | Some v => own v
  | None => inherited k
  end.

End Js.

(* ===================================================================== *)
(** * Strings and paths *)
(* ===================================================================== *)

Module Path.

(** [s.endsWith(suffix)] *)
Fixpoint endsWith (suffix s : string) : bool :=
  String.eqb suffix s ||
  match s with
  | EmptyString => false
  | String _ s' => endsWith suffix s'
  end.

Fixpoint drop_chars (n : nat) (s : string) : string :=
  match n, s with
  | O, _ => s
  | S n', String _ s' => drop_chars n' s'
  | S _, EmptyString => EmptyString
  end.

(** [s.replace(pat, repl)] with a string pattern: only the first
    occurrence is replaced. *)
Fixpoint replace (pat repl s : string) : string :=
  if String.prefix pat s then repl ++ drop_chars (String.length pat) s
  else match s with
       | EmptyString => EmptyString
       | String c s' => String c (replace pat repl s')
       end.

(** [path.join] on components that need no normalisation. *)
Definition join (parts : list string) : string := String.concat "/" parts.

(** Components of a path, split at the separator. *)
Fixpoint split (s : string) : list string :=
  match s with
  | EmptyString => [EmptyString]
  | String c s' =>
      if Ascii.eqb c "/"%char then EmptyString :: split s'
      else match split s' with
           | [] => [String c EmptyString]
           | h :: t => String c h :: t
           end
  end.

Definition dirname (p : string) : string := join (removelast (split p)).
Definition basename (p : string) : string := List.last (split p) EmptyString.

(** The paths above [p], outermost first. *)
Definition parents (p : string) : list string :=
  map (fun k => join (take k (split p))) (seq 1 (length (split p) - 1)).

(** A path that [path.join] returns as it was joined: after the first
    component (empty for an absolute path) none is empty, [.] or [..]. *)
Definition normal (p : string) : bool :=
  match split p with
  | [] => false
  | first :: rest =>
      negb (bool_decide (first ∈ ["."; ".."])) &&
      forallb (fun c => negb (bool_decide (c ∈ [""; "."; ".."]))) rest
  end.

End Path.

(* ===================================================================== *)
(** * Stateful computations that may throw *)
(* ===================================================================== *)

Module Eff.

Inductive outcome (E A : Type) :=
  | Return (a : A)
  | Throw (e : E).
Arguments Return {E A} a.
Arguments Throw {E A} e.

(** A method body: it reads and changes the state [S] and may throw an
    [E]; what was changed before a throw stays changed. *)
Definition M (S E A : Type) : Type := S -> outcome E A * S.

Definition ret {S E A} (a : A) : M S E A := fun s => (Return a, s).
Definition throw {S E A} (e : E) : M S E A := fun s => (Throw e, s).
Definition bind {S E A B} (m : M S E A) (k : A -> M S E B) : M S E B :=
  fun s => match m s with
           | (Return a, s') => k a s'
           | (Throw e, s') => (Throw e, s')
           end.
Definition try_catch {S E A} (m : M S E A) (handler : E -> M S E A) : M S E A :=
  fun s => match m s with
           | (Return a, s') => (Return a, s')
           | (Throw e, s') => handler e s'
           end.
Definition get_state {S E} : M S E S := fun s => (Return s, s).
Definition put_state {S E} (s : S) : M S E unit := fun _ => (Return tt, s).

(** A [for ... of] or [forEach] loop threading an accumulator. *)
Fixpoint forEach {S E A B} (l : list A) (body : A -> B -> M S E B) (acc : B)
    : M S E B :=
  match l with
  | [] => ret acc
  | x :: rest => bind (body x acc) (fun acc' => forEach rest body acc')
  end.

Notation "'let*' x ':=' m 'in' k" := (bind m (fun x => k))
  (at level 10, x name, m at level 100, k at level 200).
Notation "m ';;' k" := (bind m (fun _ => k))
  (at level 100, k at level 200, right associativity).

End Eff.

(* ===================================================================== *)
(** * The clock *)
(* ===================================================================== *)

Module Date.

(** [reading n] is the string [new Date().toISOString()] returns at the
    [n]-th reading of the clock; [ticks] counts the readings so far. *)
Record Clock := mkClock {
  reading : nat -> string;
  ticks : nat
}.

Definition current (c : Clock) : string := reading c (ticks c).
Definition tick (c : Clock) : Clock := mkClock (reading c) (S (ticks c)).

End Date.

(* ===================================================================== *)
(** * Files *)
(* ===================================================================== *)

Module Fs.

(** What [JSON.parse] makes of the text of a file: a document, or a
    syntax error. *)
Inductive text (A : Type) :=
  | Json (doc : A)
  | Garbage (raw : string).
Arguments Json {A} doc.
Arguments Garbage {A} raw.

Inductive node (A : Type) :=
  | File (t : text A)
  | Dir.
Arguments File {A} t.
Arguments Dir {A}.

Inductive errno := ENOENT | EISDIR | ENOTDIR | EROFS.

(** The calls of the [fs] module that change the disk. *)
Inductive call :=
  | WriteFile (p : string)
  | Rename (src dst : string).

Definition is_dir {A} (n : option (node A)) : bool :=
  match n with Some Dir => true | _ => false end.

Definition is_file {A} (n : option (node A)) : bool :=
  match n with Some (File _) => true | _ => false end.

(** The error of a call on a path that does not exist: [ENOTDIR] when a
    regular file lies on the way to it, [ENOENT] otherwise. *)
Definition absentErrno {A} (tree : gmap string (node A)) (p : string) : errno :=
  if existsb (fun a => is_file (tree !! a)) (Path.parents p)
  then ENOTDIR else ENOENT.

(** The names [readdirSync dir] lists: the last component of every path
    whose parent is [dir]. *)
Definition children {A} (tree : gmap string (node A)) (dir : string)
    : list string :=
  omap (fun kv : string * node A =>
          if String.eqb (Path.dirname kv.1) dir
          then Some (Path.basename kv.1) else None)
       (map_to_list tree).

End Fs.

(* ===================================================================== *)
(** * TemplateManager (src/TemplateManager.js) *)
(* ===================================================================== *)

Module TemplateManager.
Import Js Fs Eff Date.

(** An entry of [index.templates]. Fields copied from a template document
    are JSON values; [name], [description] and [version] may be
    [undefined] after an update of a document that lacks them. *)
Record IndexEntry := mkEntry {
  category : string;
  name : option value;
  description : option value;
  version : option value;
  path : string;
  createdAt : value;
  lastModified : value;
  tags : value
}.

Record Index := mkIndex {
  templates : gmap string IndexEntry;
  lastUpdated : string;
  indexVersion : string
}.

(** What [JSON.parse] makes of the text of the index file when it parses:
    an index, or a value of any other shape ([{}], [null], a number ...),
    which [loadIndex] hands on as it is. *)
Inductive Loaded :=
  | Indexed (i : Index)
  | Foreign (v : value).

(** The disk: the tree of template files and directories keyed by path,
    and the index file, which lies at no path of the tree (a template
    path that is normalised as joined never is the index path).  On a
    [read_only] disk every write is refused.  A write is refused or made
    as a whole: one that fails after the file was opened and cut to
    length zero is outside the model. *)
Record Disk := mkDisk {
  tree : gmap string (node value);
  index_node : option (node Loaded);
  read_only : bool
}.

(** The manager object and its environment: [this_index] is an index (an
    object whose [index] is any other value is not a state). [calls] is
    the log of the disk-changing calls issued so far, oldest first. *)
Record state := mkState {
  this_root : string;
  this_index : Index;
  disk : Disk;
  clock : Clock;
  calls : list call
}.

Inductive error :=
  | FsError (code : errno) (p : string)
  | SyntaxError
  | TypeError
  | AlreadyExists (id : string)
  | InvalidCategory (category : string)
  | MissingMetaName
  | NotFound (id : string)
  | FailedToCreate (cause : error)
  | FailedToRead (cause : error)
  | FailedToUpdate (cause : error).

Definition M (A : Type) : Type := Eff.M state error A.

Definition set_index (i : Index) : M unit :=
  fun s => (Return tt, mkState (this_root s) i (disk s) (clock s) (calls s)).
Definition set_disk (d : Disk) : M unit :=
  fun s => (Return tt, mkState (this_root s) (this_index s) d (clock s) (calls s)).
Definition log_call (c : call) : M unit :=
  fun s => (Return tt,
            mkState (this_root s) (this_index s) (disk s) (clock s) (calls s ++ [c])).

(** [new Date().toISOString()] *)
Definition now : M string :=
  fun s => (Return (current (clock s)),
            mkState (this_root s) (this_index s) (disk s) (tick (clock s)) (calls s)).

Definition set_templates (t : gmap string IndexEntry) (i : Index) : Index :=
  mkIndex t (lastUpdated i) (indexVersion i).
Definition set_lastUpdated (t : string) (i : Index) : Index :=
  mkIndex (templates i) t (indexVersion i).

(** ** Paths of the manager *)

Definition templatesDir (root : string) : string :=
  Path.join [root; "docs"; "templates"].
Definition indexPath (root : string) : string :=
  Path.join [templatesDir root; "template-index.json"].

(** ** The calls of [fs] and [JSON] *)

Definition existsSync (p : string) : M bool :=
  let* s := get_state in ret (bool_decide (is_Some (tree (disk s) !! p))).

Definition readFileSync (p : string) : M (text value) :=
  let* s := get_state in
  match tree (disk s) !! p with
  | Some (File t) => ret t
  | Some Dir => throw (FsError EISDIR p)
  | None => throw (FsError (absentErrno (tree (disk s)) p) p)
  end.

Definition readdirSync (p : string) : M (list string) :=
  let* s := get_state in
  match tree (disk s) !! p with
  | Some Dir => ret (children (tree (disk s)) p)
  | Some (File _) => throw (FsError ENOTDIR p)
  | None => throw (FsError (absentErrno (tree (disk s)) p) p)
  end.

(** [fs.writeFileSync(p, JSON.stringify(doc))]: the path is resolved
    before the disk is asked to write. *)
Definition writeFileSync (p : string) (doc : value) : M unit :=
  log_call (WriteFile p) ;;
  let* s := get_state in
  let d := disk s in
  if negb (is_dir (tree d !! Path.dirname p))
  then throw (FsError (absentErrno (tree d) p) p)
  else if is_dir (tree d !! p) then throw (FsError EISDIR p)
  else if read_only d then throw (FsError EROFS p)
  else set_disk (mkDisk (<[p := File (Json doc)]> (tree d)) (index_node d) (read_only d)).

Definition JSON_parse {A} (t : text A) : M A :=
  match t with
  | Json doc => ret doc
  | Garbage _ => throw SyntaxError
  end.

(** The same calls on [this.indexPath]. *)
Definition existsSync_index : M bool :=
  let* s := get_state in ret (bool_decide (is_Some (index_node (disk s)))).

Definition readFileSync_index : M (text Loaded) :=
  let* s := get_state in
  match index_node (disk s) with
  | Some (File t) => ret t
  | Some Dir => throw (FsError EISDIR (indexPath (this_root s)))
  | None => throw (FsError (absentErrno (tree (disk s)) (indexPath (this_root s)))
                           (indexPath (this_root s)))
  end.

Definition writeFileSync_index (i : Index) : M unit :=
  let* s := get_state in
  let p := indexPath (this_root s) in
  log_call (WriteFile p) ;;
  let d := disk s in
  if negb (is_dir (tree d !! templatesDir (this_root s)))
  then throw (FsError (absentErrno (tree d) p) p)
  else if is_dir (index_node d) then throw (FsError EISDIR p)
  else if read_only d then throw (FsError EROFS p)
  else set_disk (mkDisk (tree d) (Some (File (Json (Indexed i)))) (read_only d)).

(** [v.k], a [TypeError] on [null]. *)
Definition get (v : value) (k : string) : M (option value) :=
  match v with
  | VNull => throw TypeError
  | _ => ret (prop v k)
  end.

(** ** Loading and saving the index *)

Definition emptyIndex (t : string) : Index := mkIndex ∅ t "1.0.0".

Definition loadIndex : M Loaded :=
  let* present := existsSync_index in
  let* loaded :=
    (if present : bool then
       try_catch
         (let* t := readFileSync_index in
          let* parsed := JSON_parse t in
          ret (Some parsed))
         (fun _ => ret None)
     else ret None) in
  match loaded with
  | Some parsed => ret parsed
  | None => let* t := now in ret (Indexed (emptyIndex t))
  end.

Definition saveIndex : M bool :=
  try_catch
    (let* t := now in
     let* s := get_state in
     set_index (set_lastUpdated t (this_index s)) ;;
     let* s := get_state in
     writeFileSync_index (this_index s) ;;
     ret true)
    (fun _ => ret false).

(** ** Registration *)

Definition getTemplatePath (id : string) (category : option string) : M string :=
  let* s := get_state in
  let dir := templatesDir (this_root s) in
  if truthy (VStr <$> category)
  then ret (Path.join [dir; default "" category; id ++ ".json"])
  else match templates (this_index s) !! id with
       | Some templateData =>
           if truthy (Some (VStr (TemplateManager.category templateData)))
           then ret (Path.join [dir; TemplateManager.category templateData; id ++ ".json"])
           else ret (Path.join [dir; "project"; id ++ ".json"])
       | None => ret (Path.join [dir; "project"; id ++ ".json"])
       end.

Definition templateExists (id : string) : M bool :=
  let* s := get_state in
  match hasOwnProperty (templates (this_index s)) id with
  | Some own => ret own
  | None => throw TypeError
  end.

Definition validCategories : list string := ["project"; "workflow"; "component"].

Definition obj (fields : list (string * value)) : value :=
  VObj (list_to_map fields).

Definition defaultClaudeMd : value :=
  obj [("sections", VArr []); ("variables", obj []); ("instructions", VArr [])].

Definition createTemplate (id category : string) (templateData : value) : M value :=
  let* taken := templateExists id in
  if taken : bool then throw (AlreadyExists id) else
  if negb (bool_decide (category ∈ validCategories))
  then throw (InvalidCategory category) else
  let* meta := get templateData "meta" in
  if negb (truthy meta) || negb (truthy (prop_opt meta "name"))
  then throw MissingMetaName else
  let* created := now in
  let* modified := now in
  let meta_name := prop_opt meta "name" in
  let meta_version := or_else (prop_opt meta "version") (VStr "1.0.0") in
  let meta_description := or_else (prop_opt meta "description") (VStr "") in
  let meta_tags := or_else (prop_opt meta "tags") (VArr []) in
  let template :=
    obj [("id", VStr id);
         ("meta", VObj (set_field "name" meta_name (list_to_map
                      [("category", VStr category);
                       ("version", meta_version);
                       ("description", meta_description);
                       ("tags", meta_tags);
                       ("author", or_else (prop_opt meta "author") (VStr ""));
                       ("createdAt", VStr created);
                       ("lastModified", VStr modified)])));
         ("files", or_else (prop templateData "files") (VArr []));
         ("claudeMd", or_else (prop templateData "claudeMd") defaultClaudeMd);
         ("variables", or_else (prop templateData "variables") (obj []));
         ("dependencies", or_else (prop templateData "dependencies") (VArr []));
         ("postCreate", or_else (prop templateData "postCreate") (VArr []))] in
  let* templatePath := getTemplatePath id (Some category) in
  try_catch
    (writeFileSync templatePath template ;;
     let* s := get_state in
     set_index (set_templates
                  (assign id (mkEntry category meta_name (Some meta_description)
                                      (Some meta_version) templatePath
                                      (VStr created) (VStr modified) meta_tags)
                          (templates (this_index s)))
                  (this_index s)) ;;
     saveIndex ;;
     ret template)
    (fun e => throw (FailedToCreate e)).

(** ** Reading and updating a template *)

Definition readTemplate (id : string) : M value :=
  let* known := templateExists id in
  if negb known then throw (NotFound id) else
  let* templatePath := getTemplatePath id None in
  try_catch
    (let* t := readFileSync templatePath in JSON_parse t)
    (fun e => throw (FailedToRead e)).

(** The index entry after an update: the spread of the old entry, with
    the five fields refreshed from the merged [meta]. *)
Definition refreshEntry (meta : gmap string value) (e : IndexEntry) : IndexEntry :=
  mkEntry (category e)
          (meta !! "name") (meta !! "description") (meta !! "version")
          (path e) (createdAt e)
          (default VNull (meta !! "lastModified"))
          (or_else (meta !! "tags") (VArr [])).

Definition updateTemplate (id : string) (updates : value) : M value :=
  let* known := templateExists id in
  if negb known then throw (NotFound id) else
  try_catch
    (let* existing := readTemplate id in
     let* existing_meta := get existing "meta" in
     let* updates_meta := get updates "meta" in
     let* modified := now in
     let meta := <["lastModified" := VStr modified]>
                   (spread2 existing_meta updates_meta) in
     let updated := VObj (<["meta" := VObj meta]>
                            (spread2 (Some existing) (Some updates))) in
     let* templatePath := getTemplatePath id None in
     writeFileSync templatePath updated ;;
     let* s := get_state in
     set_index (set_templates
                  (alter (refreshEntry meta) id (templates (this_index s)))
                  (this_index s)) ;;
     saveIndex ;;
     ret updated)
    (fun e => throw (FailedToUpdate e)).

(** ** Reconciliation of the index with the template directories *)

Record SyncReport := mkReport {
  addedCount : nat;
  syncedCount : nat;
  removedCount : nat
}.

(** The file names of one category directory, as template ids, recorded
    with [filesystemTemplates[id] = category]. *)
Definition discoverCategory (found : gmap string string) (category : string)
    : M (gmap string string) :=
  let* s := get_state in
  let categoryPath := Path.join [templatesDir (this_root s); category] in
  let* present := existsSync categoryPath in
  if present : bool then
    let* names := readdirSync categoryPath in
    let files := map (Path.replace ".json" "")
                     (filter (fun file => Path.endsWith ".json" file = true) names) in
    ret (foldl (fun acc id => assign id category acc) found files)
  else ret found.

(** The [categories] of [syncTemplateIndex]. *)
Definition categories : list string := ["project"; "workflow"; "component"].

Definition discover : M (gmap string string) :=
  forEach categories (fun category found => discoverCategory found category) ∅.

(** First loop: entries of the index for whose id
    [filesystemTemplates[id]] is falsy. *)
Definition removeMissing (filesystemTemplates : gmap string string) : M nat :=
  let* s0 := get_state in
  forEach (map_to_list (templates (this_index s0)))
    (fun entry removedCount =>
       if negb (truthyAt (fun c => truthy (Some (VStr c)))
                         filesystemTemplates entry.1) then
         let* s := get_state in
         set_index (set_templates (delete entry.1 (templates (this_index s)))
                                  (this_index s)) ;;
         ret (S removedCount)
       else ret removedCount)
    0.

(** [e || new Date().toISOString()]: the clock is read only when needed. *)
Definition or_now (e : option value) : M value :=
  match e with
  | Some v => if truthy e then ret v else let* t := now in ret (VStr t)
  | None => let* t := now in ret (VStr t)
  end.

(** The body of the [try] block of the second loop. *)
Definition indexFromDisk (templateId category : string) : M unit :=
  let* templatePath := getTemplatePath templateId (Some category) in
  let* t := readFileSync templatePath in
  let* templateData := JSON_parse t in
  let* meta := get templateData "meta" in
  let* created := or_now (prop_opt meta "createdAt") in
  let* modified := or_now (prop_opt meta "lastModified") in
  let* s := get_state in
  set_index (set_templates
               (<[templateId :=
                    mkEntry category
                            (Some (or_else (prop_opt meta "name") (VStr templateId)))
                            (Some (or_else (prop_opt meta "description") (VStr "")))
                            (Some (or_else (prop_opt meta "version") (VStr "1.0.0")))
                            templatePath created modified
                            (or_else (prop_opt meta "tags") (VArr []))]>
                  (templates (this_index s)))
               (this_index s)).

(** Second loop: ids found on disk for which [this.index.templates[id]]
    is falsy.  The rounds are taken in the order the map enumerates its
    keys; they differ from the code's order of insertion only in which
    reading of the clock a round without timestamps of its own gets. *)
Definition addUnindexed (filesystemTemplates : gmap string string) : M nat :=
  forEach (map_to_list filesystemTemplates)
    (fun found addedCount =>
       let* s := get_state in
       if negb (truthyAt (fun _ => true) (templates (this_index s)) found.1) then
         try_catch
           (indexFromDisk found.1 found.2 ;; ret (S addedCount))
           (fun _ => ret addedCount)
       else ret addedCount)
    0.

Definition syncTemplateIndex : M SyncReport :=
  let* filesystemTemplates := discover in
  let* removedCount := removeMissing filesystemTemplates in
  let* addedCount := addUnindexed filesystemTemplates in
  saveIndex ;;
  ret (mkReport addedCount 0 removedCount).

(** ** Views of the state used in the statements *)

(** The path of the file of template [id] under [category]. *)
Definition templateFile (r category id : string) : string :=
  Path.join [templatesDir r; category; id ++ ".json"].

(** The path [getTemplatePath id] yields without a category argument. *)
Definition currentPath (s : state) (id : string) : string :=
  match templates (this_index s) !! id with
  | Some e =>
      if truthy (Some (VStr (category e)))
      then templateFile (this_root s) (category e) id
      else templateFile (this_root s) "project" id
  | None => templateFile (this_root s) "project" id
  end.

(** The ids one category directory lists. *)
Definition categoryIds (tr : gmap string (node value)) (categoryPath : string)
    : list string :=
  map (Path.replace ".json" "")
      (filter (fun file => Path.endsWith ".json" file = true)
              (children tr categoryPath)).

(** [discoverCategory] and [discover] as functions of the tree alone. *)
Definition scanCategory (r : string) (tr : gmap string (node value))
    (found : gmap string string) (category : string)
    : outcome error (gmap string string) :=
  let categoryPath := Path.join [templatesDir r; category] in
  match tr !! categoryPath with
  | None => Return found
  | Some Dir => Return (foldl (fun acc id => assign id category acc) found
                              (categoryIds tr categoryPath))
  | Some (File _) => Throw (FsError ENOTDIR categoryPath)
  end.

Fixpoint scan (r : string) (tr : gmap string (node value))
    (cats : list string) (found : gmap string string)
    : outcome error (gmap string string) :=
  match cats with
  | [] => Return found
  | c :: rest =>
      match scanCategory r tr found c with
      | Return found' => scan r tr rest found'
      | Throw e => Throw e
      end
  end.

(** The layout the manager sets up: no category path is a regular file. *)
Definition layout_ok (s : state) : Prop :=
  forall category, category ∈ categories ->
    is_file (tree (disk s) !! Path.join [templatesDir (this_root s); category]) = false.

(** Whether a category directory lists the id, and the category under
    which the scan records it: the last one listing it. *)
Definition listed (r : string) (tr : gmap string (node value))
    (category id : string) : bool :=
  is_dir (tr !! Path.join [templatesDir r; category]) &&
  bool_decide (id ∈ categoryIds tr (Path.join [templatesDir r; category])).

Definition observed (r : string) (tr : gmap string (node value)) (id : string)
    : option string :=
  if listed r tr "component" id then Some "component"
  else if listed r tr "workflow" id then Some "workflow"
  else if listed r tr "project" id then Some "project"
  else None.

(** The document the second loop can read for an id: the file exists, is
    JSON, and is not [null]. *)
Definition diskDocument (r : string) (tr : gmap string (node value))
    (id category : string) : option value :=
  match tr !! templateFile r category id with
  | Some (File (Json VNull)) => None
  | Some (File (Json v)) => Some v
  | _ => None
  end.

(** The entry the second loop builds from a document; the two timestamps
    are the document's when it has them. *)
Definition adopted (r : string) (tr : gmap string (node value))
    (id category : string) (doc : value) (e : IndexEntry) : Prop :=
  let meta := prop doc "meta" in
  TemplateManager.category e = category ∧
  path e = templateFile r category id ∧
  name e = Some (or_else (prop_opt meta "name") (VStr id)) ∧
  description e = Some (or_else (prop_opt meta "description") (VStr "")) ∧
  version e = Some (or_else (prop_opt meta "version") (VStr "1.0.0")) ∧
  tags e = or_else (prop_opt meta "tags") (VArr []) ∧
  (truthy (prop_opt meta "createdAt") = true ->
     Some (createdAt e) = prop_opt meta "createdAt") ∧
  (truthy (prop_opt meta "lastModified") = true ->
     Some (lastModified e) = prop_opt meta "lastModified").

Definition with_templates (s : state) (t : gmap string IndexEntry) : state :=
  mkState (this_root s) (set_templates t (this_index s)) (disk s) (clock s) (calls s).

Definition ticked (s : state) : state :=
  mkState (this_root s) (this_index s) (disk s) (tick (clock s)) (calls s).

(** The test of the first loop, and the index it leaves. *)
Definition onDisk (found : gmap string string) (id : string) : bool :=
  truthyAt (fun c => truthy (Some (VStr c))) found id.

Definition dropMissing (found : gmap string string) (t : gmap string IndexEntry)
    (l : list (string * IndexEntry)) : gmap string IndexEntry :=
  foldl (fun acc kv => if onDisk found kv.1 then acc else delete kv.1 acc) t l.

(** What stays the same while the index is edited in memory. *)
Definition frame (s s' : state) : Prop :=
  this_root s' = this_root s ∧ disk s' = disk s ∧ calls s' = calls s ∧
  reading (clock s') = reading (clock s) ∧
  lastUpdated (this_index s') = lastUpdated (this_index s) ∧
  indexVersion (this_index s') = indexVersion (this_index s).

(** The result of the second loop, from [s] to [s']. *)
Record adoption (found : gmap string string) (s : state) (added : nat) (s' : state)
    : Prop := mkAdoption {
  adoption_frame : frame s s';
  adoption_keeps : forall id e,
    templates (this_index s) !! id = Some e -> templates (this_index s') !! id = Some e;
  adoption_source : forall id e,
    templates (this_index s') !! id = Some e ->
    templates (this_index s) !! id = Some e ∨
    (templates (this_index s) !! id = None ∧ inherited id = false ∧
     exists c doc, found !! id = Some c ∧
       diskDocument (this_root s) (tree (disk s)) id c = Some doc ∧
       adopted (this_root s) (tree (disk s)) id c doc e);
  adoption_size :
    size (templates (this_index s')) = size (templates (this_index s)) + added
}.

(** [writeFileSync p] can succeed. *)
Definition canWrite (s : state) (p : string) : Prop :=
  read_only (disk s) = false ∧
  is_dir (tree (disk s) !! Path.dirname p) = true ∧
  is_dir (tree (disk s) !! p) = false.

(** The index file is absent, a directory, or not JSON. *)
Definition indexUnusable (s : state) : Prop :=
  forall i, index_node (disk s) <> Some (File (Json i)).

(** The constructor's [this.index = this.loadIndex()]: [None] when the
    manager now holds an index; [Some v] when what it holds is [v], a
    value of another shape, with which the object is no state of this
    model. *)
Definition reload : M (option value) :=
  let* loaded := loadIndex in
  match loaded with
  | Indexed i => set_index i ;; ret None
  | Foreign v => ret (Some v)
  end.

(** ** The specification's wording, for comparison with the code *)

(** Write-new-then-replace: the content goes to a fresh file, which is
    then renamed over the target. *)
Definition write_new_then_replace (target : string) (issued : list call) : Prop :=
  exists fresh, fresh <> target ∧ issued = [WriteFile fresh; Rename fresh target].

(** Every entry left in the index has a recorded path that is a file. *)
Definition stale_paths_removed (s' : state) : Prop :=
  forall id e, templates (this_index s') !! id = Some e ->
    is_file (tree (disk s') !! path e) = true.

(** Every file under a category directory whose id had no entry has an
    entry of that category afterwards. *)
Definition unindexed_files_adopted (s s' : state) : Prop :=
  forall c id, c ∈ categories ->
    is_file (tree (disk s) !! templateFile (this_root s) c id) = true ->
    templates (this_index s) !! id = None ->
    exists e, templates (this_index s') !! id = Some e ∧ category e = c.

(** A malformed index file is recovered by treating the index as empty:
    whenever the file does not hold an index, loading gives an empty one. *)
Definition malformed_index_recovered (s : state) : Prop :=
  (forall i, index_node (disk s) <> Some (File (Json (Indexed i)))) ->
  exists t s', loadIndex s = (Return (Indexed (emptyIndex t)), s').

(** Registration succeeds for every name the index does not have. *)
Definition registers_every_fresh_name : Prop :=
  forall s id category templateData,
    templates (this_index s) !! id = None ->
    exists template s', createTemplate id category templateData s = (Return template, s').

End TemplateManager.

(* ===================================================================== *)
(** * AlignmentScorer (src/AlignmentScorer.js): the scoring history *)
(* ===================================================================== *)

Module AlignmentScorer.
Import Js Eff Date.

(** The second argument of [scoreProject]; every field may be missing. *)
Record ProjectData := mkProjectData {
  pd_description : option string;
  pd_tags : option (list string);
  pd_projectType : option string;
  pd_estimatedHours : option Z;
  pd_technologies : option (list string);
  pd_learningGoals : option (list string)
}.

(** The argument of [_calculateAlignmentScore], defaults filled in. *)
Record ProjectInfo := mkProjectInfo {
  info_projectName : string;
  description : string;
  tags : list string;
  projectType : string;
  estimatedHours : Z;
  technologies : list string;
  learningGoals : list string
}.

(** The result of [_calculateAlignmentScore]: the rounded total, and the
    components, breakdown, recommendations and metadata as one document. *)
Record AlignmentScore := mkScore {
  totalScore : Z;
  details : value
}.

(** An entry of [scoresData.projectScores]. *)
Record StoredScore := mkStored {
  score : AlignmentScore;
  scoredAt : string;
  projectData : string * list string * string * list string
}.

(** An entry of [scoresData.scoringHistory]. *)
Record HistoryEntry := mkHistoryEntry {
  projectName : string;
  entryScore : Z;
  timestamp : string;
  missionId : option string
}.

Record ScoresData := mkScoresData {
  projectScores : gmap string StoredScore;
  scoringHistory : option (list HistoryEntry);
  lastUpdated : string;
  settings : value
}.

Record MissionData := mkMissionData {
  activeMission : option string;
  missions : value;
  userAssessments : value
}.

(** The scorer object, the scores file and the clock. *)
Record state := mkState {
  scoresData : ScoresData;
  missionData : MissionData;
  competencyFramework : value;
  scoresFile : option ScoresData;
  writable : bool;
  clock : Clock
}.

Inductive error :=
  | ScoringError
  | WriteError.

Definition M (A : Type) : Type := Eff.M state error A.

Definition now : M string :=
  fun s => (Return (current (clock s)),
            mkState (scoresData s) (missionData s) (competencyFramework s)
                    (scoresFile s) (writable s) (tick (clock s))).

Definition set_scoresData (d : ScoresData) : M unit :=
  fun s => (Return tt,
            mkState d (missionData s) (competencyFramework s)
                    (scoresFile s) (writable s) (clock s)).

(** [fs.writeFileSync(this.scoresFile, JSON.stringify(this.scoresData))]:
    refused, or made as a whole. *)
Definition writeScoresFile : M unit :=
  fun s => if writable s
           then (Return tt,
                 mkState (scoresData s) (missionData s) (competencyFramework s)
                         (Some (scoresData s)) (writable s) (clock s))
           else (Throw WriteError, s).

Definition _saveScoresData : M unit :=
  let* t := now in
  let* s := get_state in
  let d := scoresData s in
  set_scoresData (mkScoresData (projectScores d) (scoringHistory d) t (settings d)) ;;
  writeScoresFile.

Definition withDefaults (projectName : string) (d : ProjectData) : ProjectInfo :=
  mkProjectInfo projectName
    (default "" (pd_description d))
    (default [] (pd_tags d))
    (default "learning" (pd_projectType d))
    (default 0%Z (pd_estimatedHours d))
    (default [] (pd_technologies d))
    (default [] (pd_learningGoals d)).

(** The stored history; a missing one counts as empty. *)
Definition historyOf (s : state) : list HistoryEntry :=
  default [] (scoringHistory (scoresData s)).

(** The entry a call made in state [s] prepends: the call reads the clock
    once for [scoredAt] before it stamps the entry. *)
Definition entryFor (projectName : string) (sc : AlignmentScore) (s : state)
    : HistoryEntry :=
  mkHistoryEntry projectName (totalScore sc)
                 (reading (clock s) (S (ticks (clock s))))
                 (activeMission (missionData s)).

Section Scoring.

(** The weighted scoring heuristics of [_calculateAlignmentScore] work on
    floating-point numbers and are left abstract: they read the scorer
    and either return a score or throw ([None]). *)
Variable calculateAlignmentScore : ProjectInfo -> state -> option AlignmentScore.

Definition scoreProject (projectName : string) (projectData : ProjectData)
    : M AlignmentScore :=
  let info := withDefaults projectName projectData in
  let* s := get_state in
  match calculateAlignmentScore info s with
  | None => throw ScoringError
  | Some score =>
      (* Store the score *)
      let* scoredAt := now in
      let* s := get_state in
      let d := scoresData s in
      set_scoresData
        (mkScoresData
           (assign projectName
                   (mkStored score scoredAt
                             (description info, tags info,
                              projectType info, technologies info))
                   (projectScores d))
           (scoringHistory d) (lastUpdated d) (settings d)) ;;
      (* Add to scoring history *)
      let* s := get_state in
      let d := scoresData s in
      let history := default [] (scoringHistory d) in
      let* stamp := now in
      let entry := mkHistoryEntry projectName (totalScore score) stamp
                                  (activeMission (missionData s)) in
      (* Keep only last 50 entries in history *)
      set_scoresData
        (mkScoresData (projectScores d) (Some (take 50 (entry :: history)))
                      (lastUpdated d) (settings d)) ;;
      _saveScoresData ;;
      ret score
  end.

(** A sequence of calls, each run whatever the outcome of the one before. *)
Fixpoint scoreAll (requests : list (string * ProjectData)) (s : state) : state :=
  match requests with
  | [] => s
  | r :: rest => scoreAll rest (scoreProject r.1 r.2 s).2
  end.

(** The entries of the calls of a sequence, oldest first. *)
Fixpoint entriesOf (requests : list (string * ProjectData)) (s : state)
    : list HistoryEntry :=
  match requests with
  | [] => []
  | r :: rest =>
      match calculateAlignmentScore (withDefaults r.1 r.2) s with
      | Some sc => entryFor r.1 sc s :: entriesOf rest (scoreProject r.1 r.2 s).2
      | None => entriesOf rest (scoreProject r.1 r.2 s).2
      end
  end.

(** Every call of the sequence has its score computed. *)
Fixpoint allScored (requests : list (string * ProjectData)) (s : state) : Prop :=
  match requests with
  | [] => True
  | r :: rest =>
      is_Some (calculateAlignmentScore (withDefaults r.1 r.2) s) ∧
      allScored rest (scoreProject r.1 r.2 s).2
  end.

End Scoring.

End AlignmentScorer.

(* ===================================================================== *)
(** * Lifecycle: the project stage machine *)
(* ===================================================================== *)

Module Lifecycle.
Import Eff Date.

Inductive Stage := NEXT | NOW | MAYBE | DONE | VAULT | FUNERAL | GRAVEYARD.

Inductive Operation := Start | Ship | Pause | Fail | Bury | Archive.

#[global] Instance Stage_eq_dec : EqDecision Stage.
Proof. solve_decision. Defined.

Definition allStages : list Stage :=
  [NEXT; NOW; MAYBE; DONE; VAULT; FUNERAL; GRAVEYARD].

(** Modelled from the spec: the transition table of section 4.2, the
    allowed source stages of each operation (the terminal stages are VAULT
    and GRAVEYARD). *)
Definition allowedFrom (op : Operation) : list Stage :=
  match op with
  | Start => [NEXT; MAYBE; DONE; GRAVEYARD]
  | Ship => [NOW]
  | Pause => [NOW]
  | Fail => [NEXT; NOW; MAYBE; DONE; FUNERAL]
  | Bury => allStages
  | Archive => allStages
  end.

(** Modelled from the spec: the destination column of the same table. *)
Definition destination (op : Operation) : Stage :=
  match op with
  | Start => NOW
  | Ship => DONE
  | Pause => MAYBE
  | Fail => FUNERAL
  | Bury => GRAVEYARD
  | Archive => VAULT
  end.

(** Modelled from the spec: the Project record of section 3. *)
Record Project := mkProject {
  stage : Stage;
  path : string;
  createdAt : string;
  lastModified : string;
  note : option string
}.

(** Modelled from the spec: the index in memory, the project directories
    present on disk, the persisted index, and the two ways the disk can
    fail (a directory move, the write of the index). *)
Record state := mkState {
  root : string;
  index : gmap string Project;
  directories : gset string;
  persisted : gmap string Project;
  move_fails : bool;
  save_fails : bool;
  clock : Clock
}.

Inductive error :=
  | NameCollision (name : string)
  | UnknownProject (name : string)
  | InvalidTransition (name : string) (current : Stage)
  | FilesystemFailure (src dst : string)
  | PersistFailure.

Definition M (A : Type) : Type := Eff.M state error A.

(** Modelled from the spec: one container directory per stage. *)
Definition container (r : string) (st : Stage) : string :=
  match st with
  | NEXT => Path.join [r; ".next"]
  | NOW => Path.join [r; ".now"]
  | MAYBE => Path.join [r; ".maybe"]
  | DONE => Path.join [r; ".done"]
  | VAULT => Path.join [r; ".vault"]
  | FUNERAL => Path.join [r; ".lab"; "funeral"]
  | GRAVEYARD => Path.join [r; ".graveyard"]
  end.

Definition projectPath (r : string) (st : Stage) (name : string) : string :=
  Path.join [container r st; name].

Definition now : M string :=
  fun s => (Return (current (clock s)),
            mkState (root s) (index s) (directories s) (persisted s)
                    (move_fails s) (save_fails s) (tick (clock s))).

(** Modelled from the spec: the physical relocation of a directory; it
    fails on a failing disk, when the source is missing and when the
    target already exists, and then changes nothing. *)
Definition relocate (src dst : string) : M unit :=
  fun s =>
    if move_fails s || negb (bool_decide (src ∈ directories s))
       || bool_decide (dst ∈ directories s)
    then (Throw (FilesystemFailure src dst), s)
    else (Return tt,
          mkState (root s) (index s) ({[dst]} ∪ directories s ∖ {[src]})
                  (persisted s) (move_fails s) (save_fails s) (clock s)).

Definition updateEntry (name : string) (p : Project) : M unit :=
  fun s => (Return tt,
            mkState (root s) (<[name := p]> (index s)) (directories s)
                    (persisted s) (move_fails s) (save_fails s) (clock s)).

(** Modelled from the spec: persisting the index as a whole. *)
Definition persist : M unit :=
  fun s =>
    if save_fails s then (Throw PersistFailure, s)
    else (Return tt,
          mkState (root s) (index s) (directories s) (index s)
                  (move_fails s) (save_fails s) (clock s)).

(** Modelled from the spec: the single move primitive behind every
    transition, in the order validate, relocate on disk, update the
    index, persist the index. *)
Definition transition (op : Operation) (name : string) : M unit :=
  let* s := get_state in
  match index s !! name with
  | None => throw (UnknownProject name)
  | Some p =>
      if negb (bool_decide (stage p ∈ allowedFrom op))
      then throw (InvalidTransition name (stage p))
      else
        let src := projectPath (root s) (stage p) name in
        let dst := projectPath (root s) (destination op) name in
        relocate src dst ;;
        let* t := now in
        updateEntry name (mkProject (destination op) dst (createdAt p) t (note p)) ;;
        persist
  end.

(** Modelled from the spec: when a directory move can succeed. *)
Definition relocatable (s : state) (src dst : string) : Prop :=
  move_fails s = false ∧ src ∈ directories s ∧ dst ∉ directories s.

(** Modelled from the spec: the exit status of a command. *)
Definition exitCode {A} (o : outcome error A) : nat :=
  match o with
  | Return _ => 0
  | Throw _ => 1
  end.

End Lifecycle.

(* ===================================================================== *)
(** * Concrete states *)
(* ===================================================================== *)

Module Demo.
Import Js Fs Eff Date.

Definition wallClock : Clock :=
  mkClock (fun n => "2025-08-24T12:31:" ++ pretty n ++ "Z") 0.

Definition root : string := "/portfolio".
Definition dir : string := TemplateManager.templatesDir root.

Definition cliDocument : value :=
  TemplateManager.obj
    [("id", VStr "cli");
     ("meta", TemplateManager.obj
                [("name", VStr "CLI tool");
                 ("createdAt", VStr "2025-08-01T09:00:00Z")]);
     ("files", VArr [])].

(** The three category directories; [cli.json] lies under [workflow], and
    [broken.json] under [project] is not JSON. *)
Definition tree : gmap string (node value) :=
  list_to_map
    [(dir, Dir);
     (Path.join [dir; "project"], Dir);
     (Path.join [dir; "workflow"], Dir);
     (Path.join [dir; "component"], Dir);
     (Path.join [dir; "workflow"; "cli.json"], File (Json cliDocument));
     (Path.join [dir; "project"; "broken.json"], File (Garbage "{"))].

(** The index records [cli] under [project], and [gone], whose file was
    deleted. *)
Definition staleEntry (id : string) : TemplateManager.IndexEntry :=
  TemplateManager.mkEntry "project" (Some (VStr id)) (Some (VStr "")) (Some (VStr "1.0.0"))
    (Path.join [dir; "project"; id ++ ".json"])
    (VStr "2025-08-01T09:00:00Z") (VStr "2025-08-01T09:00:00Z") (VArr []).

Definition drifted : TemplateManager.state :=
  TemplateManager.mkState root
    (TemplateManager.mkIndex {[ "cli" := staleEntry "cli"; "gone" := staleEntry "gone" ]}
                             "2025-08-01T09:00:00Z" "1.0.0")
    (TemplateManager.mkDisk tree None false) wallClock [].

(** An index and a disk that agree on [cli]. *)
Definition cliEntry : TemplateManager.IndexEntry :=
  TemplateManager.mkEntry "workflow" (Some (VStr "CLI tool")) (Some (VStr ""))
    (Some (VStr "1.0.0"))
    (Path.join [dir; "workflow"; "cli.json"])
    (VStr "2025-08-01T09:00:00Z") (VStr "2025-08-01T09:00:00Z") (VArr []).

Definition agreed : TemplateManager.state :=
  TemplateManager.mkState root
    (TemplateManager.mkIndex {[ "cli" := cliEntry ]} "2025-08-01T09:00:00Z" "1.0.0")
    (TemplateManager.mkDisk tree None false) wallClock [].

(** The same disk with nothing indexed yet. *)
Definition unindexed : TemplateManager.state :=
  TemplateManager.mkState root (TemplateManager.emptyIndex "2025-08-01T09:00:00Z")
    (TemplateManager.mkDisk tree None false) wallClock [].

(** The same disk with an index file that holds [{}]: JSON, but not an
    index. *)
Definition misshapen : TemplateManager.state :=
  TemplateManager.mkState root (TemplateManager.emptyIndex "2025-08-01T09:00:00Z")
    (TemplateManager.mkDisk tree
       (Some (File (Json (TemplateManager.Foreign (VObj ∅))))) false)
    wallClock [].

Definition request : value :=
  TemplateManager.obj [("meta", TemplateManager.obj [("name", VStr "Report")])].

Definition changes : gmap string value :=
  {[ "meta" := TemplateManager.obj [("description", VStr "command line")] ]}.

(** A scorer with an empty history and a scoring function that always
    returns 72. *)
Definition scorer : AlignmentScorer.state :=
  AlignmentScorer.mkState
    (AlignmentScorer.mkScoresData ∅ None "2025-08-01T09:00:00Z" VNull)
    (AlignmentScorer.mkMissionData (Some "ship-it") VNull VNull)
    VNull None true wallClock.

Definition flatScore (_ : AlignmentScorer.ProjectInfo) (_ : AlignmentScorer.state)
    : option AlignmentScorer.AlignmentScore :=
  Some (AlignmentScorer.mkScore 72 VNull).

Definition noData : AlignmentScorer.ProjectData :=
  AlignmentScorer.mkProjectData None None None None None None.

(** A portfolio with project [x] in NOW, on a disk (or not) that refuses
    directory moves. *)
Definition xProject (st : Lifecycle.Stage) : Lifecycle.Project :=
  Lifecycle.mkProject st (Lifecycle.projectPath root st "x")
                      "2025-08-01T09:00:00Z" "2025-08-01T09:00:00Z" None.

Definition portfolio (st : Lifecycle.Stage) (move_fails : bool) : Lifecycle.state :=
  Lifecycle.mkState root {[ "x" := xProject st ]}
                    {[ Lifecycle.projectPath root st "x" ]}
                    {[ "x" := xProject st ]} move_fails false wallClock.

End Demo.

(* ===================================================================== *)
(** * TemplateManager: the remaining operations *)
(* ===================================================================== *)

Module TemplateOps.
Import Js Fs Eff Date TemplateManager.

(** ** Directories *)

(** The path itself and the paths above it, outermost first. *)
Definition ancestors (p : string) : list string :=
  filter (fun a => a <> "")
         (map (fun k => Path.join (take k (Path.split p)))
              (seq 1 (length (Path.split p)))).

(** One step of a recursive [mkdir]: a missing component is created, a
    directory is kept, a regular file in the way is an error (reported
    as [ENOTDIR] also for the last component, which [ensureDirectories]
    never asks for when it exists). *)
Definition mkdirStep (p : string) (tr : gmap string (node value))
    : outcome error (gmap string (node value)) :=
  match tr !! p with
  | None => Return (<[p := Dir]> tr)
  | Some Dir => Return tr
  | Some (File _) => Throw (FsError ENOTDIR p)
  end.

Fixpoint mkdirAll (ps : list string) (tr : gmap string (node value))
    : outcome error (gmap string (node value)) :=
  match ps with
  | [] => Return tr
  | p :: rest =>
      match mkdirStep p tr with
      | Return tr' => mkdirAll rest tr'
      | Throw e => Throw e
      end
  end.

(** [fs.mkdirSync(p, { recursive: true })]; nothing is created when it
    fails, and a read-only disk refuses when there is something to
    create. The log of [calls] keeps the writes of files only. *)
Definition mkdirSync (p : string) : M unit :=
  let* s := get_state in
  let d := disk s in
  match mkdirAll (ancestors p) (tree d) with
  | Return tr =>
      if read_only d && negb (is_dir (tree d !! p)) then throw (FsError EROFS p)
      else set_disk (mkDisk tr (index_node d) (read_only d))
  | Throw e => throw e
  end.

Definition managedDirs (r : string) : list string :=
  [templatesDir r;
   Path.join [templatesDir r; "schemas"];
   Path.join [templatesDir r; "project"];
   Path.join [templatesDir r; "workflow"];
   Path.join [templatesDir r; "component"]].

Definition ensureDirectories : M unit :=
  let* s := get_state in
  forEach (managedDirs (this_root s))
    (fun dir (_ : unit) =>
       let* present := existsSync dir in
       if negb present then mkdirSync dir else ret tt)
    tt.

(** The constructor, after the three paths are set; the result is that
    of [reload]. *)
Definition construct : M (option value) :=
  ensureDirectories ;;
  reload.

(** What creating directories may change: the tree only grows, and only
    by directories. *)
Definition grown (s s' : state) : Prop :=
  this_root s' = this_root s ∧ this_index s' = this_index s ∧
  clock s' = clock s ∧ calls s' = calls s ∧
  index_node (disk s') = index_node (disk s) ∧
  read_only (disk s') = read_only (disk s) ∧
  tree (disk s) ⊆ tree (disk s') ∧
  forall p n, tree (disk s') !! p = Some n -> tree (disk s) !! p = Some n ∨ n = Dir.

(** No regular file lies on the way to a managed directory. *)
Definition unobstructed (s : state) : Prop :=
  forall d a, d ∈ managedDirs (this_root s) -> a ∈ ancestors d ->
    is_file (tree (disk s) !! a) = false.

(** ** Deleting a template *)

(** What [deleteTemplate] throws: the error of the existence check, or
    the wrapped error of its [try] block. *)
Inductive deleteError :=
  | Thrown (e : error)
  | FailedToDelete (cause : error).

(** Rethrowing under another error. *)
Definition rethrow {E A} (wrap : error -> E) (m : M A) : Eff.M state E A :=
  fun s => match m s with
           | (Return a, s') => (Return a, s')
           | (Throw e, s') => (Throw (wrap e), s')
           end.

(** [fs.unlinkSync(p)]: the path is resolved before the disk is asked to
    remove the file. *)
Definition unlinkSync (p : string) : M unit :=
  let* s := get_state in
  let d := disk s in
  match tree d !! p with
  | Some (File _) =>
      if read_only d then throw (FsError EROFS p)
      else set_disk (mkDisk (delete p (tree d)) (index_node d) (read_only d))
  | Some Dir => throw (FsError EISDIR p)
  | None => throw (FsError (absentErrno (tree d) p) p)
  end.

Definition deleteTemplate (id : string) : Eff.M state deleteError bool :=
  let* known := rethrow Thrown (templateExists id) in
  if negb known then throw (Thrown (NotFound id)) else
  rethrow FailedToDelete
    (let* templatePath := getTemplatePath id None in
     unlinkSync templatePath ;;
     let* s := get_state in
     set_index (set_templates (delete id (templates (this_index s)))
                              (this_index s)) ;;
     saveIndex ;;
     ret true).

(** ** Validating a template *)

Inductive issue :=
  | MissingName
  | InvalidFiles
  | FileMissingPath (index : nat)
  | FileMissingContent (index : nat)
  | FailedToLoad (cause : error).

Record Validation := mkValidation {
  valid : bool;
  errors : list issue;
  template : option value
}.

(** [v === ''] *)
Definition isEmptyString (v : option value) : bool :=
  match v with
  | Some (VStr s) => String.eqb s ""
  | _ => false
  end.

(** The body of the [forEach] over [template.files]. *)
Definition checkFile (index : nat) (file : value) (errors : list issue)
    : M (list issue) :=
  let* file_path := get file "path" in
  let errors := if negb (truthy file_path)
                then (errors ++ [FileMissingPath index])%list else errors in
  let* content := get file "content" in
  ret (if negb (truthy content) && negb (isEmptyString content)
       then (errors ++ [FileMissingContent index])%list else errors).

Fixpoint checkFiles (index : nat) (files : list value) (errors : list issue)
    : M (list issue) :=
  match files with
  | [] => ret errors
  | file :: rest =>
      let* errors' := checkFile index file errors in
      checkFiles (S index) rest errors'
  end.

Definition validateTemplate (id : string) : M Validation :=
  try_catch
    (let* template := readTemplate id in
     let errors := [] in
     (* Basic structure validation *)
     let* meta := get template "meta" in
     let errors := if negb (truthy meta) || negb (truthy (prop_opt meta "name"))
                   then (errors ++ [MissingName])%list else errors in
     let files := prop template "files" in
     let errors := if negb (truthy files) ||
                      negb (match files with Some (VArr _) => true | _ => false end)
                   then (errors ++ [InvalidFiles])%list else errors in
     (* Validate file entries *)
     let* errors :=
       (if truthy files then
          match files with
          | Some (VArr l) => checkFiles 0 l errors
          | _ => throw TypeError
          end
        else ret errors) in
     ret (mkValidation (Nat.eqb (length errors) 0) errors (Some template)))
    (fun e => ret (mkValidation false [FailedToLoad e] None)).

(** A file entry the checks accept: not [null], a truthy [path], and a
    [content] that is truthy or the empty string. *)
Definition fileOk (file : value) : bool :=
  match file with
  | VNull => false
  | _ => truthy (prop file "path") &&
         (truthy (prop file "content") || isEmptyString (prop file "content"))
  end.

(** A document that passes: a truthy [meta.name] and an array of accepted
    file entries. *)
Definition wellFormed (t : value) : bool :=
  truthy (prop_opt (prop t "meta") "name") &&
  match prop t "files" with
  | Some (VArr l) => forallb fileOk l
  | _ => false
  end.

(** ** Listing and statistics *)

Section Listing.

(** [Array.prototype.sort] with the comparator
    [a.name.localeCompare(b.name)]: the collation is the platform's, and
    the comparator throws on a name that is not a string ([None]). *)
Variable sortByName :
  list (string * IndexEntry) -> option (list (string * IndexEntry)).

Definition listTemplates (category : option string)
    : M (list (string * IndexEntry)) :=
  let* s := get_state in
  let selected :=
    filter (fun kv : string * IndexEntry =>
              negb (truthy (VStr <$> category)) ||
              bool_decide (Some (TemplateManager.category kv.2) = category) = true)
           (map_to_list (templates (this_index s))) in
  match sortByName selected with
  | Some sorted => ret sorted
  | None => throw TypeError
  end.

Definition getCategories : list string := ["project"; "workflow"; "component"].

Record Stats := mkStats {
  total : nat;
  byCategory : list (string * nat)
}.

Definition getTemplateStats : M Stats :=
  let* listed := listTemplates None in
  ret (mkStats (length listed)
         (map (fun c =>
                 (c, length (filter (fun kv : string * IndexEntry =>
                                       TemplateManager.category kv.2 = c) listed)))
              getCategories)).

End Listing.

(** ** The merge of [updateTemplate] *)

(** The [meta] and the document [updateTemplate] writes, from the stored
    document, the updates and the time of the call. *)
Definition mergedMeta (existing updates : value) (modified : string)
    : gmap string value :=
  <["lastModified" := VStr modified]>
    (spread2 (prop existing "meta") (prop updates "meta")).

Definition merged (existing updates : value) (modified : string) : value :=
  VObj (<["meta" := VObj (mergedMeta existing updates modified)]>
          (spread2 (Some existing) (Some updates))).

(** ** Template ids *)

(** An id that is one path component and has no extension of its own:
    neither a separator nor a dot occurs in it. *)
Fixpoint plain (id : string) : bool :=
  match id with
  | EmptyString => true
  | String c rest =>
      negb (Ascii.eqb c "/") && negb (Ascii.eqb c ".") && plain rest
  end.

(** ** Well-formed index entries *)

(** The entry of [id] records one of the three categories and the path of
    its file under that category. *)
Definition entryOk (r id : string) (e : IndexEntry) : Prop :=
  category e ∈ validCategories ∧ path e = templateFile r (category e) id.

Definition indexOk (s : state) : Prop :=
  forall id e, templates (this_index s) !! id = Some e -> entryOk (this_root s) id e.

End TemplateOps.

(* ===================================================================== *)
(** * AlignmentScorer: queries and the integer-valued component scores *)
(* ===================================================================== *)

Module ScorerOps.
Import Js Eff Date AlignmentScorer.

(** [l.slice(0, limit)]: a negative limit counts from the end. *)
Definition slice0 {A} (limit : Z) (l : list A) : list A :=
  if (limit <? 0)%Z
  then take (Z.to_nat (Z.of_nat (length l) + limit)) l
  else take (Z.to_nat limit) l.

(** ** Queries *)



Definition getScoringHistory (limit : option Z) (s : state) : list HistoryEntry :=
  slice0 (default 10%Z limit) (default [] (scoringHistory (scoresData s))).






(** ** Lookups in the literals of the helper functions *)

(** [literal[key] || fallback] for a literal of numbers; [None] when the
    key names an inherited member, and the result is not a number. *)
Definition lookupOr (literal : gmap string Z) (key : string) (fallback : Z)
    : option Z :=
  if bool_decide (key ∈ inheritedKeys) then None
  else Some (match literal !! key with
             | Some n => if (n =? 0)%Z then fallback else n
             | None => fallback
             end).

(** ** Time investment *)

Definition adjustmentMap : gmap string Z :=
  list_to_map [("learning", 5); ("usecase", 0); ("trial", 10);
               ("production", -10); ("research", 5); ("template", -5)]%Z.

(** [adjustmentMap[projectType] || 0] *)
Definition _getTimeInvestmentTypeAdjustment (projectType : string) : option Z :=
  lookupOr adjustmentMap projectType 0.

Record TimeInvestmentScore := mkTimeScore {
  time_score : Z;
  time_estimatedHours : Z;
  typeAdjustment : Z
}.

(** The base of the score, from the hours. *)
Definition timeBase (estimatedHours : Z) : Z :=
  (if (8 <=? estimatedHours) && (estimatedHours <=? 40) then 85
   else if (40 <? estimatedHours) && (estimatedHours <=? 80) then 70
   else if (80 <? estimatedHours) then 40
   else if (0 <? estimatedHours) then 60
   else 50)%Z.

(** Hours are whole numbers, as [estimatedHours] is in [ProjectInfo].
    [None]: the adjustment is not a number, and neither is the score. *)
Definition _calculateTimeInvestmentScore (projectInfo : ProjectInfo)
    : option TimeInvestmentScore :=
  let estimatedHours := estimatedHours projectInfo in
  let score := timeBase estimatedHours in
  match _getTimeInvestmentTypeAdjustment (projectType projectInfo) with
  | None => None
  | Some typeAdjustment =>
      let score := (score + typeAdjustment)%Z in
      Some (mkTimeScore (Z.min (Z.max score 0%Z) 100%Z) estimatedHours typeAdjustment)
  end.

(** ** Learning potential *)

Definition bonusMap : gmap string Z :=
  list_to_map [("learning", 15); ("usecase", 25); ("trial", 20);
               ("production", 35); ("research", 30); ("template", 10)]%Z.

(** [bonusMap[projectType] || 15] *)
Definition _getComplexityBonus (projectType : string) : option Z :=
  lookupOr bonusMap projectType 15.

(** The length is that of a description in ASCII. *)
Definition _assessDescriptionQuality (description : string) : Z :=
  if String.eqb description "" || (String.length description <? 20)%nat then 0%Z
  else if (String.length description <? 50)%nat then 5%Z
  else if (String.length description <? 100)%nat then 10%Z
  else 15%Z.

Record LearningPotentialScore := mkLearningScore {
  learning_score : Z;
  factors : list string
}.

(** [None]: the complexity bonus is not a number, and neither is the
    score. *)
Definition _calculateLearningPotentialScore (projectInfo : ProjectInfo)
    : option LearningPotentialScore :=
  (* Technology diversity bonus *)
  let techCount := Z.of_nat (length (technologies projectInfo)) in
  let techScore := Z.min (techCount * 15) 30%Z in
  let '(score, factors) :=
    if (0 <? techCount)%Z
    then (techScore,
          ["Technology diversity: " +:+ pretty techCount +:+ " technologies (+"
             +:+ pretty techScore +:+ ")"])
    else (0%Z, []) in
  (* Project complexity bonus based on type *)
  match _getComplexityBonus (projectType projectInfo) with
  | None => None
  | Some complexityBonus =>
  let score := (score + complexityBonus)%Z in
  let factors := (factors ++ ["Project complexity: " +:+ projectType projectInfo
                                +:+ " (+" +:+ pretty complexityBonus +:+ ")"])%list in
  (* Learning goals alignment *)
  let learningGoalsCount := Z.of_nat (length (learningGoals projectInfo)) in
  let goalsScore := Z.min (learningGoalsCount * 10) 25%Z in
  let '(score, factors) :=
    if (0 <? learningGoalsCount)%Z
    then ((score + goalsScore)%Z,
          (factors ++ ["Explicit learning goals: " +:+ pretty learningGoalsCount
                         +:+ " (+" +:+ pretty goalsScore +:+ ")"])%list)
    else (score, factors) in
  (* Description quality bonus *)
  let descriptionScore := _assessDescriptionQuality (description projectInfo) in
  let score := (score + descriptionScore)%Z in
  let factors :=
    if (0 <? descriptionScore)%Z
    then (factors ++ ["Clear project description (+" +:+ pretty descriptionScore +:+ ")"])%list
    else factors in
  Some (mkLearningScore (Z.min score 100%Z) factors)
  end.

End ScorerOps.

(* ===================================================================== *)
(** * Further concrete states and inputs *)
(* ===================================================================== *)

Module DemoOps.
Import Js Fs Eff Date.

(** [Demo.agreed] on a disk that refuses every write. *)
Definition locked : TemplateManager.state :=
  TemplateManager.mkState Demo.root
    (TemplateManager.mkIndex {[ "cli" := Demo.cliEntry ]} "2025-08-01T09:00:00Z" "1.0.0")
    (TemplateManager.mkDisk Demo.tree None true) Demo.wallClock [].

(** A template whose [files] is a string, not an array. *)
Definition oddDocument : value :=
  TemplateManager.obj
    [("id", VStr "odd");
     ("meta", TemplateManager.obj [("name", VStr "Odd")]);
     ("files", VStr "README.md")].

Definition oddEntry : TemplateManager.IndexEntry :=
  TemplateManager.mkEntry "project" (Some (VStr "Odd")) (Some (VStr ""))
    (Some (VStr "1.0.0"))
    (Path.join [Demo.dir; "project"; "odd.json"])
    (VStr "2025-08-01T09:00:00Z") (VStr "2025-08-01T09:00:00Z") (VArr []).

Definition odd : TemplateManager.state :=
  TemplateManager.mkState Demo.root
    (TemplateManager.mkIndex {[ "odd" := oddEntry ]} "2025-08-01T09:00:00Z" "1.0.0")
    (TemplateManager.mkDisk
       (<[Path.join [Demo.dir; "project"; "odd.json"] := File (Json oddDocument)]>
          Demo.tree)
       None false)
    Demo.wallClock [].

(** [Demo.agreed] with a regular file where the [workflow] directory
    was. *)
Definition blocked : TemplateManager.state :=
  TemplateManager.mkState Demo.root
    (TemplateManager.mkIndex {[ "cli" := Demo.cliEntry ]} "2025-08-01T09:00:00Z" "1.0.0")
    (TemplateManager.mkDisk
       (list_to_map [(Demo.dir, Dir);
                     (Path.join [Demo.dir; "workflow"], File (Garbage ""))])
       None false)
    Demo.wallClock [].

(** A portfolio in which nothing has been set up yet. *)
Definition bare : TemplateManager.state :=
  TemplateManager.mkState Demo.root
    (TemplateManager.emptyIndex "2025-08-01T09:00:00Z")
    (TemplateManager.mkDisk ∅ None false) Demo.wallClock [].

(** What a call returned, or a default when it threw. *)
Definition returned {E A} (d : A) (o : outcome E A) : A :=
  match o with
  | Return a => a
  | Throw _ => d
  end.

(** [Demo.agreed] after the template [report] is created, and after the
    template [cli] is updated; [Demo.drifted] after a sync; [bare] after
    the directories are set up. *)
Definition reportDocument : value :=
  returned VNull
    (TemplateManager.createTemplate "report" "project" Demo.request Demo.agreed).1.
Definition reported : TemplateManager.state :=
  (TemplateManager.createTemplate "report" "project" Demo.request Demo.agreed).2.

Definition revisedDocument : value :=
  returned VNull (TemplateManager.updateTemplate "cli" (VObj Demo.changes) Demo.agreed).1.
Definition revised : TemplateManager.state :=
  (TemplateManager.updateTemplate "cli" (VObj Demo.changes) Demo.agreed).2.

Definition synced : TemplateManager.state :=
  (TemplateManager.syncTemplateIndex Demo.drifted).2.

Definition prepared : TemplateManager.state :=
  (TemplateOps.ensureDirectories bare).2.

(** [Demo.agreed] after its index is saved, and after a template is
    created whose id has an extension of its own. *)
Definition saved : TemplateManager.state := (TemplateManager.saveIndex Demo.agreed).2.

Definition dotted : TemplateManager.state :=
  (TemplateManager.createTemplate "v1.json.bak" "project" Demo.request Demo.agreed).2.

(** [Demo.agreed] after a template named [hasOwnProperty] is created. *)
Definition shadowed : TemplateManager.state :=
  (TemplateManager.createTemplate "hasOwnProperty" "project" Demo.request Demo.agreed).2.

(** An index with a stale entry [constructor], on a disk where
    [toString.json] lies under [project] with no entry. *)
Definition inheritedNames : TemplateManager.state :=
  TemplateManager.mkState Demo.root
    (TemplateManager.mkIndex {[ "constructor" := Demo.staleEntry "constructor" ]}
                             "2025-08-01T09:00:00Z" "1.0.0")
    (TemplateManager.mkDisk
       (<[Path.join [Demo.dir; "project"; "toString.json"] := File (Json Demo.cliDocument)]>
          Demo.tree)
       None false)
    Demo.wallClock [].

(** [Array.prototype.sort] that leaves the order as it is. *)
Definition unsorted (l : list (string * TemplateManager.IndexEntry))
    : option (list (string * TemplateManager.IndexEntry)) := Some l.

(** Projects to score. *)
Definition trial : AlignmentScorer.ProjectInfo :=
  AlignmentScorer.mkProjectInfo "demo" "" [] "trial" 20 [] [].

Definition sketch : AlignmentScorer.ProjectInfo :=
  AlignmentScorer.mkProjectInfo "billing" "A billing service." [] "production" 120
    ["node"] [].

Definition service : AlignmentScorer.ProjectInfo :=
  AlignmentScorer.mkProjectInfo "billing" "A billing service." [] "production" 120
    ["node"; "postgres"; "docker"] ["queues"; "tracing"; "load tests"].

End DemoOps.

(* ===================================================================== *)
(** * Loops *)
(* ===================================================================== *)

Module EffFacts.
Import Eff.
Local Open Scope list_scope.

Section Loops.
Context {S E A B : Type}.
Implicit Types (body : A -> B -> Eff.M S E B) (l : list A).


(** A loop that never throws preserves an invariant indexed by the
    elements already visited. *)
Lemma forEach_invariant (Inv : list A -> B -> S -> Prop) l body acc s :
  Inv [] acc s ->
  (forall done x rest acc s,
      l = done ++ x :: rest -> Inv done acc s ->
      exists acc' s', body x acc s = (Return acc', s') /\ Inv (done ++ [x]) acc' s') ->
  exists acc' s', forEach l body acc s = (Return acc', s') /\ Inv l acc' s'.
Proof.
  intros H0 Hstep.
  cut (forall rest done acc s, l = done ++ rest -> Inv done acc s ->
         exists acc' s', forEach rest body acc s = (Return acc', s') /\ Inv l acc' s').
  { intros Hgen. apply (Hgen l [] acc s); done. }
  clear acc s H0. induction rest as [|x rest IH]; intros done acc s Hl HI.
  - rewrite app_nil_r in Hl. subst done. by exists acc, s.
  - destruct (Hstep done x rest acc s Hl HI) as (acc' & s' & Hb & HI').
    destruct (IH (done ++ [x]) acc' s') as (acc'' & s'' & Hf & HI''); [by rewrite <- app_assoc|done|].
    exists acc'', s''. split; [|done]. simpl. unfold bind. by rewrite Hb.
Qed.

End Loops.

End EffFacts.

(* ===================================================================== *)
(** * Plain objects used as maps *)
(* ===================================================================== *)

Module JsFacts.
Import Js.
Local Open Scope list_scope.

Section Assign.
Context {A : Type}.
Implicit Types (o : gmap string A) (k : string) (v : A).

Lemma assign_insert k v o : k <> "__proto__" -> assign k v o = <[k := v]> o.
Proof.
  intros Hk. unfold assign.
  destruct (String.eqb k "__proto__") eqn:E; [|done].
  by apply String.eqb_eq in E.
Qed.

Lemma assign_proto v o : o !! "__proto__" = None -> assign "__proto__" v o = o.
Proof.
  intros Ho. unfold assign. rewrite String.eqb_refl.
  rewrite bool_decide_eq_false_2; [done|]. rewrite Ho. by intros [? ?].
Qed.

(** An assignment changes nothing, or it is an insertion. *)
Lemma assign_cases k v o :
  (k = "__proto__" ∧ o !! k = None ∧ assign k v o = o) ∨ assign k v o = <[k := v]> o.
Proof.
  unfold assign. destruct (String.eqb k "__proto__") eqn:E; [|by right].
  apply String.eqb_eq in E. case_bool_decide as Ho; [by right|]. left.
  split; [done|]. split; [|done].
  destruct (o !! k) eqn:Hk; [|done]. exfalso. apply Ho. eauto.
Qed.

Lemma lookup_assign_ne k v o j : j <> k -> assign k v o !! j = o !! j.
Proof.
  intros Hj. destruct (assign_cases k v o) as [(_ & _ & ->)| ->]; [done|].
  by rewrite lookup_insert_ne.
Qed.

Lemma lookup_assign_Some k v o j x :
  assign k v o !! j = Some x -> (j = k ∧ x = v) ∨ o !! j = Some x.
Proof.
  destruct (assign_cases k v o) as [(_ & _ & ->)| ->]; [auto|].
  rewrite lookup_insert. case_decide; [intros [= <-]; auto|auto].
Qed.

Lemma assign_keeps_proto k v o :
  o !! "__proto__" = None -> assign k v o !! "__proto__" = None.
Proof.
  intros Ho. destruct (assign_cases k v o) as [(_ & _ & ->)|Hi]; [done|].
  destruct (decide (k = "__proto__")) as [->|Hk].
  - by rewrite assign_proto.
  - by rewrite lookup_assign_ne.
Qed.

End Assign.

End JsFacts.

(* ===================================================================== *)
(** * The template index: registration, update, load, save, sync *)
(* ===================================================================== *)

Module TemplateManagerFacts.
Import Js Fs Eff Date TemplateManager TemplateOps EffFacts JsFacts.
Local Open Scope list_scope.

Ltac eff_unfold :=
  unfold bind, ret, throw, try_catch, get_state, put_state,
         set_index, set_disk, log_call, now, get in *.

(** ** The scan of the category directories

    The scan reads the disk and changes nothing. *)
Lemma discoverCategory_spec found category s :
  discoverCategory found category s =
  (scanCategory (this_root s) (tree (disk s)) found category, s).
Proof.
  unfold discoverCategory, scanCategory, existsSync, readdirSync. eff_unfold.
  destruct (tree (disk s) !! _) as [[t|]|] eqn:Hn; simpl; by rewrite ?Hn.
Qed.

Lemma discover_scan cats found s :
  forEach cats (fun category found => discoverCategory found category) found s =
  (scan (this_root s) (tree (disk s)) cats found, s).
Proof.
  revert found. induction cats as [|c cats IH]; intros found; simpl; [done|].
  unfold bind. rewrite discoverCategory_spec.
  destruct (scanCategory _ _ _ _); [apply IH|done].
Qed.

Lemma discover_spec s :
  discover s = (scan (this_root s) (tree (disk s)) categories ∅, s).
Proof. apply discover_scan. Qed.

(** It throws only when a category path is a regular file. *)
Lemma scan_total r tr cats found :
  (forall c, c ∈ cats -> is_file (tr !! Path.join [templatesDir r; c]) = false) ->
  exists found', scan r tr cats found = Return found'.
Proof.
  revert found. induction cats as [|c cats IH]; intros found H; simpl; [eauto|].
  unfold scanCategory.
  pose proof (H c ltac:(set_solver)) as Hc.
  destruct (tr !! _) as [[t|]|]; simpl in *; [done| |]; apply IH; set_solver.
Qed.

(** Every category recorded by the scan is one of the three. *)
Lemma foldl_insert_range (P : string -> Prop) c ids (found : gmap string string) :
  P c -> (forall id x, found !! id = Some x -> P x) ->
  forall id x, foldl (fun acc id => assign id c acc) found ids !! id = Some x -> P x.
Proof.
  intros Hc. revert found. induction ids as [|i ids IH]; intros found Hf id x; simpl; [apply Hf|].
  apply IH. intros id' x' [[_ ->]|Hx]%lookup_assign_Some; [done|by eapply Hf].
Qed.

Lemma scan_range (P : string -> Prop) r tr cats found found' :
  (forall c, c ∈ cats -> P c) ->
  (forall id x, found !! id = Some x -> P x) ->
  scan r tr cats found = Return found' ->
  forall id x, found' !! id = Some x -> P x.
Proof.
  revert found. induction cats as [|c cats IH]; intros found Hc Hf Hs; simpl in *.
  - by inversion Hs; subst.
  - destruct (scanCategory r tr found c) as [f1|] eqn:H1; [|done].
    apply (IH f1); [set_solver| |done].
    unfold scanCategory in H1.
    destruct (tr !! _) as [[t|]|]; inversion H1; subst; [|done].
    apply foldl_insert_range; [set_solver|done].
Qed.

Lemma discover_categories s found :
  discover s = (Return found, s) ->
  forall id c, found !! id = Some c -> c ∈ categories.
Proof.
  rewrite discover_spec. intros H.
  assert (scan (this_root s) (tree (disk s)) categories ∅ = Return found) as Hs
    by congruence.
  eapply (scan_range (fun c => c ∈ categories)); [| |exact Hs]; [done|].
  intros ? ?. by rewrite lookup_empty.
Qed.

Lemma validCategories_truthy c : c ∈ validCategories -> truthy (Some (VStr c)) = true.
Proof.
  unfold validCategories. rewrite !elem_of_cons, elem_of_nil.
  intros [->|[->|[->|[]]]]; reflexivity.
Qed.

Lemma with_templates_id s : with_templates s (templates (this_index s)) = s.
Proof. by destruct s as [? [] ? ? ?]. Qed.

(** ** The first loop *)
Lemma removeMissing_loop found l n s :
  forEach l
    (fun (entry : string * IndexEntry) (removedCount : nat) =>
       if negb (truthyAt (fun c => truthy (Some (VStr c))) found entry.1) then
         let* s := get_state in
         set_index (set_templates (delete entry.1 (templates (this_index s)))
                                  (this_index s)) ;;
         ret (S removedCount)
       else ret removedCount) n s =
  (Return (n + length (List.filter (fun kv => negb (onDisk found kv.1)) l)),
   with_templates s (dropMissing found (templates (this_index s)) l)).
Proof.
  revert n s. induction l as [|kv l IH]; intros n s; cbn [forEach].
  - unfold ret. cbn [List.filter length dropMissing foldl].
    by rewrite Nat.add_0_r, with_templates_id.
  - unfold bind at 1. fold (onDisk found kv.1).
    change (dropMissing found (templates (this_index s)) (kv :: l))
      with (dropMissing found (if onDisk found kv.1 then templates (this_index s)
                               else delete kv.1 (templates (this_index s))) l).
    cbn [List.filter].
    destruct (onDisk found kv.1) eqn:Hk; cbn [negb].
    + unfold ret at 1. by rewrite IH.
    + eff_unfold. rewrite IH. cbn [length]. f_equal. f_equal. lia.
Qed.

Lemma dropMissing_lookup found l t id :
  dropMissing found t l !! id =
  if decide (id ∈ l.*1 ∧ onDisk found id = false) then None else t !! id.
Proof.
  revert t. induction l as [|kv l IH]; intros t; [done|].
  change (dropMissing found t (kv :: l))
    with (dropMissing found (if onDisk found kv.1 then t else delete kv.1 t) l).
  rewrite IH. clear IH.
  destruct (decide (id = kv.1)) as [->|Hne].
  - destruct (onDisk found kv.1) eqn:Hk.
    + repeat case_decide; set_unfold; naive_solver.
    + rewrite lookup_delete_eq. repeat case_decide; set_unfold; naive_solver.
  - assert (forall t' : gmap string IndexEntry,
              (if onDisk found kv.1 then t' else delete kv.1 t') !! id = t' !! id) as ->.
    { intros t'. destruct (onDisk found kv.1); [done|]. by rewrite lookup_delete_ne. }
    repeat case_decide; set_unfold; naive_solver.
Qed.

Lemma dropMissing_all found (t : gmap string IndexEntry) id :
  dropMissing found t (map_to_list t) !! id =
  if onDisk found id then t !! id else None.
Proof.
  rewrite dropMissing_lookup. destruct (onDisk found id) eqn:Hk.
  - rewrite decide_False; [done|]. intros [_ ?]; done.
  - case_decide as Hd; [done|].
    destruct (t !! id) as [e|] eqn:He; [|done]. exfalso. apply Hd. split; [|done].
    apply list_elem_of_fmap. exists (id, e). split; [done|]. by apply elem_of_map_to_list.
Qed.

Lemma removeMissing_spec found s :
  removeMissing found s =
  (Return (length (List.filter (fun kv => negb (onDisk found kv.1))
                               (map_to_list (templates (this_index s))))),
   with_templates s (dropMissing found (templates (this_index s))
                                 (map_to_list (templates (this_index s))))).
Proof. unfold removeMissing. unfold bind, get_state. exact (removeMissing_loop found _ 0 s). Qed.

Lemma frame_refl s : frame s s.
Proof. by repeat split. Qed.

Lemma frame_trans s1 s2 s3 : frame s1 s2 -> frame s2 s3 -> frame s1 s3.
Proof. unfold frame. intros (?&?&?&?&?&?) (?&?&?&?&?&?). repeat split; congruence. Qed.


(** ** The second loop *)
Lemma getTemplatePath_category id c s :
  truthy (Some (VStr c)) = true ->
  getTemplatePath id (Some c) s = (Return (templateFile (this_root s) c id), s).
Proof.
  intros Hc. unfold getTemplatePath. eff_unfold. simpl in *. by rewrite Hc.
Qed.

Lemma or_now_spec e s :
  exists v s', or_now e s = (Return v, s') ∧ frame s s' ∧
    this_index s' = this_index s ∧
    (truthy e = true -> Some v = e).
Proof.
  unfold or_now. destruct e as [v|]; [destruct (truthy (Some v)) eqn:Ht|]; eff_unfold.
  - exists v, s. repeat split; done.
  - eexists _, _. split; [done|]. repeat split; done.
  - eexists _, _. split; [done|]. repeat split; done.
Qed.

(** The [try] block throws, before it has changed anything, exactly when
    there is no document to read. *)
Lemma indexFromDisk_fail id c s :
  truthy (Some (VStr c)) = true ->
  diskDocument (this_root s) (tree (disk s)) id c = None ->
  exists e, indexFromDisk id c s = (Throw e, s).
Proof.
  intros Hc Hd. unfold indexFromDisk. unfold bind at 1.
  rewrite getTemplatePath_category by done.
  unfold diskDocument in Hd. unfold readFileSync. eff_unfold.
  destruct (tree (disk s) !! _) as [[[v|raw]|]|]; simpl; eauto.
  destruct v; simpl in *; try done; eauto.
Qed.

Lemma indexFromDisk_ok id c doc s :
  truthy (Some (VStr c)) = true ->
  diskDocument (this_root s) (tree (disk s)) id c = Some doc ->
  exists e s', indexFromDisk id c s = (Return tt, s') ∧ frame s s' ∧
    templates (this_index s') = <[id := e]> (templates (this_index s)) ∧
    adopted (this_root s) (tree (disk s)) id c doc e.
Proof.
  intros Hc Hd. unfold indexFromDisk. unfold bind at 1.
  rewrite getTemplatePath_category by done.
  unfold diskDocument in Hd. unfold readFileSync. unfold bind at 1 2. unfold get_state at 1.
  destruct (tree (disk s) !! _) as [[[v|raw]|]|]; simpl in Hd; try done.
  assert (v = doc ∧ v <> VNull) as [-> Hnn] by (destruct v; naive_solver).
  unfold ret at 1. unfold JSON_parse. unfold bind at 1. unfold ret at 1.
  unfold bind at 1.
  assert (get doc "meta" s = (Return (prop doc "meta"), s)) as ->
    by (by destruct doc).
  unfold bind at 1.
  destruct (or_now_spec (prop_opt (prop doc "meta") "createdAt") s)
    as (cr & s1 & -> & Hf1 & Hi1 & Hcr).
  unfold bind at 1.
  destruct (or_now_spec (prop_opt (prop doc "meta") "lastModified") s1)
    as (md & s2 & -> & Hf2 & Hi2 & Hmd).
  eff_unfold. eexists _, _. split; [done|].
  pose proof (frame_trans _ _ _ Hf1 Hf2) as (?&?&?&?&?&?).
  split; [|split].
  - repeat split; simpl; try done.
  - simpl. by rewrite Hi2, Hi1.
  - repeat split; simpl; done.
Qed.

Lemma frame_diskDocument s s' id c :
  frame s s' ->
  diskDocument (this_root s') (tree (disk s')) id c =
  diskDocument (this_root s) (tree (disk s)) id c.
Proof. intros (-> & -> & _). done. Qed.

(** The second loop never throws; every id found on disk ends up indexed
    unless its file cannot be read or it is the name of an inherited
    member. *)
Lemma addUnindexed_spec found s :
  (forall id c, found !! id = Some c -> c ∈ categories) ->
  exists added s', addUnindexed found s = (Return added, s') ∧
    adoption found s added s' ∧
    (forall id c, found !! id = Some c ->
       templates (this_index s') !! id = None ->
       diskDocument (this_root s) (tree (disk s)) id c = None ∨ inherited id = true).
Proof.
  intros Hrange. unfold addUnindexed.
  destruct (forEach_invariant
    (fun done added s' =>
       adoption found s added s' ∧
       forall kv, kv ∈ done ->
         is_Some (templates (this_index s') !! kv.1) ∨
         diskDocument (this_root s) (tree (disk s)) kv.1 kv.2 = None ∨
         inherited kv.1 = true)
    (map_to_list found)
    (fun (found0 : string * string) (addedCount : nat) =>
       let* s := get_state in
       if negb (truthyAt (fun _ => true) (templates (this_index s)) found0.1) then
         try_catch
           (indexFromDisk found0.1 found0.2 ;; ret (S addedCount))
           (fun _ => ret addedCount)
       else ret addedCount)
    0 s) as (added & s' & Hrun & Hadopt & Hdone).
  - split; [|set_solver].
    split; [apply frame_refl|done|auto|lia].
  - intros done [id c] rest acc s1 Hl [Had Hd]. simpl.
    assert (found !! id = Some c) as Hfound.
    { apply elem_of_map_to_list. rewrite Hl. set_solver. }
    pose proof (validCategories_truthy c (Hrange _ _ Hfound)) as Hc.
    unfold bind at 1. unfold get_state at 1. unfold truthyAt. cbn [fst snd].
    destruct (templates (this_index s1) !! id) as [e|] eqn:He.
    + simpl. unfold ret.
      eexists _, _. split; [done|]. split; [done|].
      intros kv [Hk| ->%list_elem_of_singleton]%elem_of_app; [auto|]. left. simpl. eauto.
    + destruct (inherited id) eqn:Hinh.
      { simpl. unfold ret.
        eexists _, _. split; [done|]. split; [done|].
        intros kv [Hk| ->%list_elem_of_singleton]%elem_of_app; [auto|]. right. right. done. }
      simpl.
      unfold try_catch, bind.
      destruct (diskDocument (this_root s1) (tree (disk s1)) id c) as [doc|] eqn:Hdoc.
      * destruct (indexFromDisk_ok id c doc s1 Hc Hdoc) as (e & s2 & -> & Hf & Ht & Hae).
        unfold ret. eexists _, _. split; [done|].
        destruct Had as [Hfr Hkeep Hsrc Hsize].
        rewrite (frame_diskDocument _ _ _ _ Hfr) in Hdoc.
        destruct Hfr as (Hr & Hdk & ?). rewrite Hr, Hdk in Hae.
        split; [split|].
        -- eapply frame_trans; [|exact Hf]. repeat split; tauto.
        -- intros i x Hx. rewrite Ht. rewrite lookup_insert_ne; [auto|].
           intros <-. apply Hkeep in Hx. congruence.
        -- intros i x. rewrite Ht, lookup_insert. case_decide as Hi.
           ++ subst i. intros [= <-]. right. split.
              ** destruct (templates (this_index s) !! id) eqn:Hs0; [|done].
                 apply Hkeep in Hs0. congruence.
              ** split; [done|]. eauto.
           ++ apply Hsrc.
        -- rewrite Ht, map_size_insert_None by done. lia.
        -- intros kv [Hk| ->%list_elem_of_singleton]%elem_of_app.
           ++ destruct (Hd kv Hk) as [[x Hx]|?]; [|auto]. left. rewrite Ht.
              rewrite lookup_insert. case_decide; eauto.
           ++ left. rewrite Ht. simpl. rewrite lookup_insert_eq. eauto.
      * destruct (indexFromDisk_fail id c s1 Hc Hdoc) as (err & ->).
        unfold ret. eexists _, _. split; [done|]. split; [done|].
        intros kv [Hk| ->%list_elem_of_singleton]%elem_of_app; [auto|]. right. left. simpl.
        by rewrite <- (frame_diskDocument _ _ _ _ (adoption_frame _ _ _ _ Had)).
  - exists added, s'. split; [done|]. split; [done|].
    intros id c Hf Hnone.
    destruct (Hdone (id, c)) as [[x Hx]|[?|?]]; [by apply elem_of_map_to_list| |by left|by right].
    simpl in Hx. congruence.
Qed.

(** ** Saving, and a whole run *)
Lemma saveIndex_spec s :
  let i := set_lastUpdated (current (clock s)) (this_index s) in
  let ok := negb (read_only (disk s))
            && is_dir (tree (disk s) !! templatesDir (this_root s))
            && negb (is_dir (index_node (disk s))) in
  saveIndex s =
    (Return ok,
     mkState (this_root s) i
       (if ok then mkDisk (tree (disk s)) (Some (File (Json (Indexed i))))
                          (read_only (disk s))
        else disk s)
       (tick (clock s)) (calls s ++ [WriteFile (indexPath (this_root s))])).
Proof.
  unfold saveIndex, writeFileSync_index. eff_unfold. simpl.
  destruct (is_dir (tree (disk s) !! _)); simpl; [|by rewrite andb_false_r].
  destruct (is_dir (index_node (disk s))); simpl; [by rewrite andb_false_r|].
  destruct (read_only (disk s)); simpl; done.
Qed.

Lemma saveIndex_effect s :
  exists ok s', saveIndex s = (Return ok, s') ∧
    this_root s' = this_root s ∧
    templates (this_index s') = templates (this_index s) ∧
    tree (disk s') = tree (disk s) ∧
    read_only (disk s') = read_only (disk s) ∧
    calls s' = calls s ++ [WriteFile (indexPath (this_root s))].
Proof.
  eexists _, _. split; [apply saveIndex_spec|]. simpl.
  repeat split; by destruct (_ && _).
Qed.

(** One run of the reconciliation, loop by loop. *)
Lemma sync_run s found :
  discover s = (Return found, s) ->
  let t1 := dropMissing found (templates (this_index s))
                        (map_to_list (templates (this_index s))) in
  let removed := length (List.filter (fun kv => negb (onDisk found kv.1))
                                     (map_to_list (templates (this_index s)))) in
  exists added s2 ok s3,
    addUnindexed found (with_templates s t1) = (Return added, s2) ∧
    adoption found (with_templates s t1) added s2 ∧
    (forall id c, found !! id = Some c ->
       templates (this_index s2) !! id = None ->
       diskDocument (this_root s) (tree (disk s)) id c = None ∨ inherited id = true) ∧
    saveIndex s2 = (Return ok, s3) ∧
    syncTemplateIndex s = (Return (mkReport added 0 removed), s3).
Proof.
  intros Hd t1 removed.
  destruct (addUnindexed_spec found (with_templates s t1)) as (added & s2 & Ha & Had & Hno).
  { eapply discover_categories, Hd. }
  destruct (saveIndex_effect s2) as (ok & s3 & Hs & _).
  exists added, s2, ok, s3.
  split; [done|]. split; [done|]. split; [exact Hno|]. split; [done|].
  unfold syncTemplateIndex. unfold bind. rewrite Hd, removeMissing_spec.
  fold t1. rewrite Ha, Hs. done.
Qed.

Lemma layout_ok_discover s :
  layout_ok s -> exists found, discover s = (Return found, s).
Proof.
  intros H. rewrite discover_spec.
  destruct (scan_total (this_root s) (tree (disk s)) categories ∅ H) as [f ->]. eauto.
Qed.

Lemma discover_throw s e s' :
  discover s = (Throw e, s') -> syncTemplateIndex s = (Throw e, s) ∧ s' = s.
Proof.
  intros H. assert (s' = s) as -> by (rewrite discover_spec in H; congruence).
  split; [|done]. unfold syncTemplateIndex, bind. by rewrite H.
Qed.

Lemma discover_same s s' :
  this_root s' = this_root s -> tree (disk s') = tree (disk s) ->
  forall found, discover s = (Return found, s) -> discover s' = (Return found, s').
Proof.
  intros Hr Ht found. rewrite !discover_spec, Hr, Ht. congruence.
Qed.

(** C8. Reconciliation never deletes physical data: whatever the state,
    the tree of template files and directories is the same after
    [syncTemplateIndex] as before it, and the only disk-changing calls it
    issues are writes of the index file (none when the scan throws). *)
Theorem sync_writes_only_the_index s :
  exists issued,
    tree (disk (syncTemplateIndex s).2) = tree (disk s) ∧
    calls (syncTemplateIndex s).2 = calls s ++ issued ∧
    forall c, c ∈ issued -> c = WriteFile (indexPath (this_root s)).
Proof.
  destruct (discover s) as [[found|e] s0] eqn:Hd.
  - assert (s0 = s) as -> by (rewrite discover_spec in Hd; congruence).
    destruct (sync_run s found Hd) as (added & s2 & ok & s3 & _ & Had & _ & Hs & ->).
    destruct (saveIndex_effect s2) as (ok' & s3' & Hs' & Hr & _ & Ht & _ & Hc).
    rewrite Hs in Hs'. injection Hs' as <- <-.
    destruct (adoption_frame _ _ _ _ Had) as (Hr2 & Hd2 & Hc2 & _).
    exists [WriteFile (indexPath (this_root s))]. simpl.
    rewrite Ht, Hc, Hd2, Hc2, Hr2. simpl. split; [done|]. split; [done|].
    by intros c ->%list_elem_of_singleton.
  - destruct (discover_throw _ _ _ Hd) as [-> ->].
    exists []. simpl. rewrite app_nil_r. split; [done|]. split; [done|]. set_solver.
Qed.

(** When every entry is on disk the first loop removes nothing. *)
Lemma dropMissing_onDisk found (t : gmap string IndexEntry) :
  (forall id e, t !! id = Some e -> onDisk found id = true) ->
  dropMissing found t (map_to_list t) = t ∧
  List.filter (fun kv : string * IndexEntry => negb (onDisk found kv.1)) (map_to_list t) = [].
Proof.
  intros H. split.
  - apply map_eq. intros id. rewrite dropMissing_all.
    destruct (onDisk found id) eqn:Hk; [done|].
    destruct (t !! id) as [e|] eqn:He; [|done]. apply H in He. congruence.
  - assert (forall kv, kv ∈ map_to_list t -> onDisk found kv.1 = true) as Hl.
    { intros [id e] Hin%elem_of_map_to_list. eauto. }
    induction (map_to_list t) as [|kv l IH]; simpl; [done|].
    rewrite Hl by set_solver. simpl. apply IH. intros. apply Hl. set_solver.
Qed.

Lemma found_onDisk s found id c :
  discover s = (Return found, s) -> found !! id = Some c -> onDisk found id = true.
Proof.
  intros Hd Hf. unfold onDisk, truthyAt. rewrite Hf.
  by apply validCategories_truthy, (discover_categories s found Hd id).
Qed.

(** C2. Reconciliation is idempotent: on a well-formed layout a first
    [syncTemplateIndex] returns, and run again from the state it left (no
    change to the disk in between) the second run reports zero added and
    zero removed, and leaves the entries of the index as they were. *)
Theorem sync_idempotent s :
  layout_ok s ->
  exists first s1 s2,
    syncTemplateIndex s = (Return first, s1) ∧
    syncTemplateIndex s1 = (Return (mkReport 0 0 0), s2) ∧
    templates (this_index s2) = templates (this_index s1).
Proof.
  intros Hl. destruct (layout_ok_discover s Hl) as [found Hd].
  destruct (sync_run s found Hd) as (added & sa & ok & s1 & _ & Had & Hno & Hs & Hrun).
  destruct (saveIndex_effect sa) as (ok' & s1' & Hs' & Hr1 & Ht1 & Htr1 & _ & _).
  rewrite Hs in Hs'. injection Hs' as <- <-.
  destruct (adoption_frame _ _ _ _ Had) as (Hra & Hda & _). simpl in Hra, Hda.
  assert (discover s1 = (Return found, s1)) as Hd1.
  { apply (discover_same s); [congruence|congruence|done]. }
  (* every entry left by the first run is on disk *)
  assert (forall id e, templates (this_index s1) !! id = Some e -> onDisk found id = true) as Hon.
  { intros id e. rewrite Ht1. intros He.
    destruct (adoption_source _ _ _ _ Had id e He) as [H0|(_ & _ & c & doc & Hf & _)].
    - simpl in H0. rewrite dropMissing_all in H0. by destruct (onDisk found id).
    - eapply found_onDisk; eauto. }
  destruct (dropMissing_onDisk found _ Hon) as [Hsame Hnil].
  destruct (sync_run s1 found Hd1) as (added2 & sb & ok2 & s2 & _ & Had2 & _ & Hs2 & Hrun2).
  rewrite Hsame, with_templates_id in Had2. rewrite Hnil in Hrun2. simpl in Hrun2.
  destruct (saveIndex_effect sb) as (ok2' & s2' & Hs2' & _ & Ht2 & _).
  rewrite Hs2 in Hs2'. injection Hs2' as <- <-.
  assert (templates (this_index sb) = templates (this_index s1)) as Heq.
  { apply map_eq. intros id.
    destruct (templates (this_index s1) !! id) as [e|] eqn:He.
    - by apply (adoption_keeps _ _ _ _ Had2).
    - destruct (templates (this_index sb) !! id) as [e|] eqn:Heb; [|done].
      destruct (adoption_source _ _ _ _ Had2 id e Heb)
        as [H0|(_ & Hown & c & doc & Hf & Hdoc & _)]; [congruence|].
      rewrite Hr1, Htr1, Hra, Hda in Hdoc. rewrite Ht1 in He.
      destruct (Hno id c Hf He) as [Hnone|Hinh]; congruence. }
  pose proof (adoption_size _ _ _ _ Had2) as Hsz. rewrite Heq in Hsz.
  assert (added2 = 0) as -> by lia.
  eexists _, s1, s2. split; [exact Hrun|]. split; [exact Hrun2|].
  by rewrite Ht2.
Qed.

Lemma foldl_assign_proto c ids (found : gmap string string) :
  found !! "__proto__" = None ->
  foldl (fun acc id => assign id c acc) found ids !! "__proto__" = None.
Proof.
  revert found. induction ids as [|i ids IH]; intros found Hp; simpl; [done|].
  by apply IH, assign_keeps_proto.
Qed.

Lemma foldl_assign_lookup c ids (found : gmap string string) id :
  id <> "__proto__" ->
  foldl (fun acc id => assign id c acc) found ids !! id =
  if bool_decide (id ∈ ids) then Some c else found !! id.
Proof.
  intros Hid. revert found. induction ids as [|i ids IH]; intros found; simpl; [done|].
  rewrite IH. destruct (decide (id = i)) as [<-|Hne].
  - rewrite assign_insert, lookup_insert_eq by done.
    rewrite (bool_decide_eq_true_2 (id ∈ id :: ids)) by set_solver.
    by case_bool_decide.
  - rewrite lookup_assign_ne by done.
    case_bool_decide; case_bool_decide; set_solver.
Qed.

Lemma scanCategory_proto r tr found c found' :
  found !! "__proto__" = None ->
  scanCategory r tr found c = Return found' -> found' !! "__proto__" = None.
Proof.
  unfold scanCategory. intros Hp.
  destruct (tr !! _) as [[t|]|]; intros [= <-]; [|done].
  by apply foldl_assign_proto.
Qed.

Lemma scanCategory_lookup r tr found c found' id :
  id <> "__proto__" ->
  scanCategory r tr found c = Return found' ->
  found' !! id = if listed r tr c id then Some c else found !! id.
Proof.
  unfold scanCategory, listed. intros Hid.
  destruct (tr !! _) as [[t|]|]; intros [= <-]; simpl; [|done].
  by apply foldl_assign_lookup.
Qed.

(** What the scan records: the category observed for the id, and nothing
    for [__proto__], whose assignment a plain object ignores. *)
Lemma discover_observed s found :
  discover s = (Return found, s) ->
  found !! "__proto__" = None ∧
  forall id, id <> "__proto__" ->
    found !! id = observed (this_root s) (tree (disk s)) id.
Proof.
  rewrite discover_spec. intros H.
  assert (scan (this_root s) (tree (disk s)) categories ∅ = Return found) as Hs
    by congruence.
  clear H. unfold categories in Hs. simpl in Hs.
  destruct (scanCategory _ _ ∅ "project") as [f1|] eqn:H1; [|done].
  destruct (scanCategory _ _ f1 "workflow") as [f2|] eqn:H2; [|done].
  destruct (scanCategory _ _ f2 "component") as [f3|] eqn:H3; [|done].
  injection Hs as <-.
  pose proof (scanCategory_proto _ _ _ _ _ (lookup_empty _) H1) as Hp1.
  pose proof (scanCategory_proto _ _ _ _ _ Hp1 H2) as Hp2.
  split; [by apply (scanCategory_proto _ _ _ _ _ Hp2 H3)|].
  intros id Hid.
  rewrite (scanCategory_lookup _ _ _ _ _ id Hid H3), (scanCategory_lookup _ _ _ _ _ id Hid H2),
          (scanCategory_lookup _ _ _ _ _ id Hid H1), lookup_empty.
  done.
Qed.

Lemma inherited_not_proto id : inherited id = false -> id <> "__proto__".
Proof. by intros H ->. Qed.

(** An observed id is the name, less its first [.json], of a file that the
    category directory lists and whose name ends in [.json]. *)
Lemma observed_listing r tr id c :
  observed r tr id = Some c ->
  c ∈ categories ∧
  tr !! Path.join [templatesDir r; c] = Some Dir ∧
  exists file, file ∈ children tr (Path.join [templatesDir r; c]) ∧
    Path.endsWith ".json" file = true ∧ Path.replace ".json" "" file = id.
Proof.
  assert (forall c', listed r tr c' id = true ->
            tr !! Path.join [templatesDir r; c'] = Some Dir ∧
            exists file, file ∈ children tr (Path.join [templatesDir r; c']) ∧
              Path.endsWith ".json" file = true ∧ Path.replace ".json" "" file = id) as Hl.
  { intros c'. unfold listed, categoryIds. intros [Hd Hin%bool_decide_eq_true]%andb_true_iff.
    split.
    - by destruct (tr !! _) as [[]|].
    - apply list_elem_of_fmap in Hin as (file & -> & Hf%list_elem_of_filter). naive_solver. }
  unfold observed, categories.
  destruct (listed r tr "component" id) eqn:H3; [intros [= <-]; split; [set_solver|auto]|].
  destruct (listed r tr "workflow" id) eqn:H2; [intros [= <-]; split; [set_solver|auto]|].
  destruct (listed r tr "project" id) eqn:H1; [intros [= <-]; split; [set_solver|auto]|].
  done.
Qed.

(** One run of the reconciliation classifies every id.  An id that is not
    the name of an inherited member: not observed on disk, gone from the
    index; observed and indexed, kept as it was; observed, not indexed and
    readable, adopted under the category that lists it; observed, not
    indexed and unreadable, left out.  The name of an inherited member:
    its entry is kept, and it gains none. *)
Lemma sync_classifies s :
  layout_ok s ->
  exists report s',
    syncTemplateIndex s = (Return report, s') ∧
    let r := this_root s in
    let tr := tree (disk s) in
    let before := templates (this_index s) in
    let after := templates (this_index s') in
    (forall id, inherited id = false -> observed r tr id = None -> after !! id = None) ∧
    (forall id e, before !! id = Some e ->
                  is_Some (observed r tr id) ∨ inherited id = true ->
                  after !! id = Some e) ∧
    (forall id c doc, before !! id = None -> inherited id = false ->
                      observed r tr id = Some c ->
                      diskDocument r tr id c = Some doc ->
                      exists e, after !! id = Some e ∧ adopted r tr id c doc e) ∧
    (forall id c, before !! id = None -> observed r tr id = Some c ->
                  diskDocument r tr id c = None -> after !! id = None) ∧
    (forall id, before !! id = None -> inherited id = true -> after !! id = None).
Proof.
  intros Hl. destruct (layout_ok_discover s Hl) as [found Hd].
  destruct (discover_observed s found Hd) as [Hproto Hobs].
  destruct (sync_run s found Hd) as (added & sa & ok & s' & _ & Had & Hno & Hs & Hrun).
  destruct (saveIndex_effect sa) as (ok' & s1' & Hs' & _ & Ht & _).
  rewrite Hs in Hs'. injection Hs' as <- <-.
  eexists _, s'. split; [exact Hrun|]. simpl. rewrite Ht.
  assert (forall id, templates (this_index (with_templates s
             (dropMissing found (templates (this_index s))
                (map_to_list (templates (this_index s)))))) !! id =
           if onDisk found id then templates (this_index s) !! id else None) as Ht1.
  { intros id. simpl. apply dropMissing_all. }
  assert (forall id c, found !! id = Some c -> onDisk found id = true) as Hon.
  { intros id c. eapply found_onDisk, Hd. }
  assert (forall id, inherited id = true -> onDisk found id = true) as Hinh.
  { intros id Hi. unfold onDisk, truthyAt.
    destruct (found !! id) as [c|] eqn:Hf; [|done].
    by apply validCategories_truthy, (discover_categories s found Hd id). }
  split; [|split; [|split; [|split]]].
  - intros id Hown Ho. rewrite <- Hobs in Ho by (by apply inherited_not_proto).
    destruct (templates (this_index sa) !! id) as [e|] eqn:He; [|done].
    destruct (adoption_source _ _ _ _ Had id e He) as [H0|(_ & _ & c & doc & Hf & _)];
      [|congruence].
    rewrite Ht1 in H0. unfold onDisk, truthyAt in H0. by rewrite Ho, Hown in H0.
  - intros id e He Hkeep.
    apply (adoption_keeps _ _ _ _ Had). rewrite Ht1.
    destruct Hkeep as [[c Hc]|Hi]; [|by rewrite (Hinh id Hi)].
    destruct (inherited id) eqn:Hi; [by rewrite (Hinh id Hi)|].
    rewrite <- Hobs in Hc by (by apply inherited_not_proto).
    by rewrite (Hon id c Hc).
  - intros id c doc He Hown Hc Hdoc.
    rewrite <- Hobs in Hc by (by apply inherited_not_proto).
    destruct (templates (this_index sa) !! id) as [e|] eqn:Hea.
    + exists e. split; [done|].
      destruct (adoption_source _ _ _ _ Had id e Hea)
        as [H0|(_ & _ & c' & doc' & Hf & Hd' & Ha)].
      * rewrite Ht1, (Hon id c Hc) in H0. congruence.
      * simpl in Hd', Ha. assert (c' = c) as -> by congruence.
        assert (doc' = doc) as -> by congruence. done.
    + destruct (Hno id c Hc Hea); congruence.
  - intros id c He Hc Hdoc.
    destruct (templates (this_index sa) !! id) as [e|] eqn:Hea; [|done].
    destruct (adoption_source _ _ _ _ Had id e Hea)
      as [H0|(_ & Hown & c' & doc' & Hf & Hd' & Ha)].
    + rewrite Ht1 in H0. destruct (onDisk found id); congruence.
    + rewrite Hobs in Hf by (by apply inherited_not_proto).
      simpl in Hd'. assert (c' = c) as -> by congruence. congruence.
  - intros id He Hi.
    destruct (templates (this_index sa) !! id) as [e|] eqn:Hea; [|done].
    destruct (adoption_source _ _ _ _ Had id e Hea) as [H0|(_ & Hown & _)]; [|congruence].
    rewrite Ht1 in H0. destruct (onDisk found id); congruence.
Qed.

(** ** Registration *)

Lemma writeFileSync_ok p doc s :
  canWrite s p ->
  writeFileSync p doc s =
  (Return tt,
   mkState (this_root s) (this_index s)
           (mkDisk (<[p := File (Json doc)]> (tree (disk s)))
                   (index_node (disk s)) (read_only (disk s)))
           (clock s) (calls s ++ [WriteFile p])).
Proof.
  intros (Hro & Hdir & Hnd). unfold writeFileSync. eff_unfold. simpl.
  by rewrite Hdir, Hnd, Hro.
Qed.

(** [templateExists] asks the object itself for [hasOwnProperty]: with no
    entry of that name the inherited method answers, with one the call is
    a [TypeError]. *)
Lemma templateExists_spec id s :
  templates (this_index s) !! "hasOwnProperty" = None ->
  templateExists id s = (Return (bool_decide (is_Some (templates (this_index s) !! id))), s).
Proof.
  intros Hown. unfold templateExists, hasOwnProperty, bind, get_state.
  rewrite bool_decide_eq_false_2; [done|]. rewrite Hown. by intros [? ?].
Qed.

Lemma templateExists_shadowed id s :
  is_Some (templates (this_index s) !! "hasOwnProperty") ->
  templateExists id s = (Throw TypeError, s).
Proof.
  intros Hown. unfold templateExists, hasOwnProperty, bind, get_state.
  by rewrite bool_decide_eq_true_2.
Qed.

Lemma createTemplate_collision s id category templateData :
  templates (this_index s) !! "hasOwnProperty" = None ->
  is_Some (templates (this_index s) !! id) ->
  createTemplate id category templateData s = (Throw (AlreadyExists id), s).
Proof.
  intros Hown Hid. unfold createTemplate. unfold bind at 1.
  rewrite templateExists_spec by done.
  by rewrite bool_decide_eq_true_2.
Qed.

Lemma get_defined v k s : v <> VNull -> get v k s = (Return (prop v k), s).
Proof. by destruct v. Qed.

Ltac eff_step := cbv beta iota zeta.

Lemma createTemplate_fresh s id category templateData :
  templates (this_index s) !! "hasOwnProperty" = None ->
  templates (this_index s) !! id = None ->
  id <> "__proto__" ->
  category ∈ validCategories ->
  truthy (prop_opt (prop templateData "meta") "name") = true ->
  canWrite s (templateFile (this_root s) category id) ->
  exists template e s',
    createTemplate id category templateData s = (Return template, s') ∧
    templates (this_index s') = <[id := e]> (templates (this_index s)) ∧
    TemplateManager.category e = category ∧
    path e = templateFile (this_root s) category id ∧
    name e = prop_opt (prop templateData "meta") "name" ∧
    tree (disk s') =
      <[templateFile (this_root s) category id := File (Json template)]> (tree (disk s)).
Proof.
  intros Hown Hfresh Hproto Hcat Hname Hw.
  assert (templateData <> VNull) as Hnn by (intros ->; done).
  assert (truthy (prop templateData "meta") = true) as Hmeta.
  { destruct (prop templateData "meta") as [[| [] | [] | [] | |]|]; done. }
  unfold createTemplate. unfold bind, try_catch.
  rewrite templateExists_spec by done. eff_step.
  rewrite bool_decide_eq_false_2 by (rewrite Hfresh; by intros [? ?]).
  rewrite bool_decide_eq_true_2 by done.
  change (negb true) with false. eff_step.
  rewrite get_defined by done. eff_step.
  rewrite Hmeta, Hname. change (negb true || negb true) with false. eff_step.
  unfold now. eff_step.
  rewrite getTemplatePath_category by (by apply validCategories_truthy).
  eff_step. cbn [this_root].
  rewrite writeFileSync_ok by done. eff_step.
  unfold get_state, set_index. eff_step. cbn [this_index].
  rewrite assign_insert by done.
  match goal with |- context [saveIndex ?st] => pose proof (saveIndex_spec st) as Hs end.
  cbv zeta in Hs. rewrite Hs. clear Hs. eff_step. unfold ret.
  eexists _, _, _. split; [reflexivity|]. cbn.
  repeat split; try done.
  by destruct (_ && _).
Qed.

(** ** Update *)

Lemma getTemplatePath_current id s :
  getTemplatePath id None s = (Return (currentPath s id), s).
Proof.
  unfold getTemplatePath, currentPath. eff_unfold. simpl.
  destruct (templates (this_index s) !! id) as [e|]; [|done].
  by destruct (negb _).
Qed.

Lemma prop_opt_own_props v k : prop_opt v k = own_props v !! k.
Proof. by destruct v as [[]|]. Qed.

Lemma readTemplate_ok id s e doc :
  templates (this_index s) !! "hasOwnProperty" = None ->
  templates (this_index s) !! id = Some e ->
  tree (disk s) !! currentPath s id = Some (File (Json doc)) ->
  readTemplate id s = (Return doc, s).
Proof.
  intros Hown He Hf. unfold readTemplate. unfold bind, try_catch.
  rewrite templateExists_spec by done. eff_step.
  rewrite bool_decide_eq_true_2 by eauto. change (negb true) with false. eff_step.
  rewrite getTemplatePath_current. eff_step.
  unfold readFileSync, bind, get_state. rewrite Hf. done.
Qed.

(** C9. For an existing template (an index entry and a readable JSON file
    at a path that is normalised as joined, in an index where no entry
    shadows the inherited [hasOwnProperty]) and an updates object that
    sets neither [id] nor [meta.createdAt], [updateTemplate] returns the
    merged document and leaves the template's [id], its index entry's
    category and its [meta.createdAt] unchanged, sets [meta.lastModified]
    to the time of the call, keeps every top-level field other than [meta]
    that the updates do not mention and every [meta] field other than
    [lastModified] that [updates.meta] does not mention, and writes the
    merged document to the template's file. *)
Theorem updateTemplate_frame s id e existing (u : gmap string value) :
  templates (this_index s) !! "hasOwnProperty" = None ->
  Path.normal (currentPath s id) = true ->
  templates (this_index s) !! id = Some e ->
  tree (disk s) !! currentPath s id = Some (File (Json existing)) ->
  existing <> VNull ->
  read_only (disk s) = false ->
  is_dir (tree (disk s) !! Path.dirname (currentPath s id)) = true ->
  u !! "id" = None ->
  own_props (u !! "meta") !! "createdAt" = None ->
  exists updated e' s',
    updateTemplate id (VObj u) s = (Return updated, s') ∧
    prop updated "id" = prop existing "id" ∧
    templates (this_index s') !! id = Some e' ∧
    category e' = category e ∧
    prop_opt (prop updated "meta") "createdAt" = prop_opt (prop existing "meta") "createdAt" ∧
    prop_opt (prop updated "meta") "lastModified" = Some (VStr (current (clock s))) ∧
    (forall k, k <> "meta" -> u !! k = None -> prop updated k = prop existing k) ∧
    (forall k, k <> "lastModified" -> own_props (u !! "meta") !! k = None ->
               prop_opt (prop updated "meta") k = prop_opt (prop existing "meta") k) ∧
    tree (disk s') !! currentPath s id = Some (File (Json updated)).
Proof.
  intros Hown Hname He Hf Hnn Hro Hdir Hid Hcr.
  assert (canWrite s (currentPath s id)) as Hw.
  { split; [done|]. split; [done|]. by rewrite Hf. }
  unfold updateTemplate. unfold bind, try_catch.
  rewrite templateExists_spec by done. eff_step.
  rewrite bool_decide_eq_true_2 by eauto. change (negb true) with false. eff_step.
  rewrite (readTemplate_ok id s e existing Hown He Hf). eff_step.
  rewrite get_defined by done. eff_step.
  rewrite get_defined by done. eff_step.
  unfold now. eff_step.
  match goal with |- context [getTemplatePath id None ?st] =>
    replace (getTemplatePath id None st) with (Return (E:=error) (currentPath s id), st)
      by (by rewrite getTemplatePath_current) end.
  eff_step.
  match goal with |- context [writeFileSync ?p ?d ?st] =>
    rewrite (writeFileSync_ok p d st) by done end.
  eff_step. unfold get_state, set_index. eff_step.
  match goal with |- context [saveIndex ?st] => pose proof (saveIndex_spec st) as Hs end.
  cbv zeta in Hs. rewrite Hs. clear Hs. eff_step. unfold ret.
  eexists _, _, _. split; [reflexivity|]. cbn.
  assert (forall k, k <> "meta" -> u !! k = None ->
            (<["meta" := VObj (<["lastModified" := VStr (current (clock s))]>
                   (spread2 (prop existing "meta") (prop (VObj u) "meta")))]>
               (spread2 (Some existing) (Some (VObj u)))) !! k = prop existing k) as Htop.
  { intros k Hk Huk. rewrite lookup_insert_ne by done. unfold spread2, prop. simpl.
    rewrite lookup_union_r; done. }
  assert (forall k, k <> "lastModified" -> own_props (u !! "meta") !! k = None ->
            (<["lastModified" := VStr (current (clock s))]>
               (spread2 (prop existing "meta") (prop (VObj u) "meta"))) !! k
            = prop_opt (prop existing "meta") k) as Hmeta.
  { intros k Hk Huk. rewrite lookup_insert_ne by done. unfold spread2.
    rewrite lookup_union_r by done. by rewrite prop_opt_own_props. }
  split; [by apply Htop|].
  split; [rewrite lookup_alter_eq, He; reflexivity|].
  split; [done|].
  unfold prop at 1 3 5. simpl own_props. rewrite !lookup_insert_eq. simpl prop_opt.
  unfold prop at 1 2 3. simpl own_props.
  split; [by apply Hmeta|].
  split; [by rewrite lookup_insert_eq|].
  split; [exact Htop|].
  split; [exact Hmeta|].
  destruct (_ && _); simpl; by rewrite lookup_insert_eq.
Qed.

(** ** Load and save *)

(** [loadIndex] returns what the index file holds, or the empty index. *)
Lemma loadIndex_spec s :
  loadIndex s =
  match index_node (disk s) with
  | Some (File (Json l)) => (Return l, s)
  | _ => (Return (Indexed (emptyIndex (current (clock s)))), ticked s)
  end.
Proof.
  unfold loadIndex, existsSync_index, readFileSync_index, JSON_parse. eff_unfold.
  destruct (index_node (disk s)) as [[[i|raw]|]|] eqn:Hn; simpl; rewrite ?Hn; done.
Qed.

Lemma loadIndex_total s :
  exists l s', loadIndex s = (Return l, s') ∧ disk s' = disk s ∧ calls s' = calls s.
Proof.
  rewrite loadIndex_spec.
  destruct (index_node (disk s)) as [[[i|raw]|]|]; eexists _, _; split; done.
Qed.

Lemma loadIndex_unusable s :
  indexUnusable s ->
  loadIndex s = (Return (Indexed (emptyIndex (current (clock s)))), ticked s).
Proof.
  intros Hu. rewrite loadIndex_spec.
  destruct (index_node (disk s)) as [[[l|raw]|]|] eqn:Hn; try done.
  by destruct (Hu l).
Qed.

(** C6, as the code has it. [loadIndex] never throws and leaves the disk
    alone.  When the index file is absent, unreadable or not JSON it
    returns the empty index stamped with the current time; text that
    parses is returned as parsed, whatever its shape.  After the empty
    result, the reconciliation run on a layout whose category paths are
    not regular files adopts every id observed on disk, other than the
    names a plain object inherits, whose file reads as a JSON document
    other than [null]. *)
Theorem loadIndex_recovers s :
  (exists l s', loadIndex s = (Return l, s') ∧ disk s' = disk s) ∧
  (forall l, index_node (disk s) = Some (File (Json l)) -> loadIndex s = (Return l, s)) ∧
  (indexUnusable s ->
   loadIndex s = (Return (Indexed (emptyIndex (current (clock s)))), ticked s) ∧
   (layout_ok s ->
    exists s0 report s',
      reload s = (Return None, s0) ∧
      syncTemplateIndex s0 = (Return report, s') ∧
      forall id c doc,
        inherited id = false ->
        observed (this_root s) (tree (disk s)) id = Some c ->
        diskDocument (this_root s) (tree (disk s)) id c = Some doc ->
        exists e, templates (this_index s') !! id = Some e ∧
                  adopted (this_root s) (tree (disk s)) id c doc e)).
Proof.
  split; [|split].
  - destruct (loadIndex_total s) as (l & s' & Hl & Hd & _). eauto.
  - intros l Hl. by rewrite loadIndex_spec, Hl.
  - intros Hu. pose proof (loadIndex_unusable s Hu) as Hload.
    split; [done|]. intros Hl.
    set (s0 := mkState (this_root s) (emptyIndex (current (clock s))) (disk s)
                       (tick (clock s)) (calls s)).
    assert (layout_ok s0) as Hl0 by done.
    destruct (sync_classifies s0 Hl0) as (report & s' & Hrun & _ & _ & Hadopt & _).
    exists s0, report, s'. split; [|split; [done|]].
    + unfold reload, bind. rewrite Hload. by unfold set_index.
    + intros id c doc Hown Ho Hd.
      apply (Hadopt id c doc); [apply lookup_empty|done|done|done].
Qed.

(** C5, as the code has it. [saveIndex] never throws; it stamps the index
    with the time of saving and issues exactly one disk-changing call, a
    write aimed at the index file itself: when the write succeeds the file
    holds the whole stamped index and the result is [true], otherwise the
    file is as before and the result is [false]. *)
Theorem saveIndex_overwrites_in_place s :
  exists ok s',
    saveIndex s = (Return ok, s') ∧
    this_index s' = set_lastUpdated (current (clock s)) (this_index s) ∧
    calls s' = calls s ++ [WriteFile (indexPath (this_root s))] ∧
    tree (disk s') = tree (disk s) ∧
    index_node (disk s') =
      (if ok then Some (File (Json (Indexed (this_index s')))) else index_node (disk s)).
Proof.
  eexists _, _. split; [apply saveIndex_spec|]. simpl.
  repeat split; by destruct (_ && _).
Qed.

(** ** Paths of template files *)

Lemma split_nonempty p : Path.split p <> [].
Proof.
  destruct p as [|c p]; [done|]. cbn [Path.split].
  destruct (Ascii.eqb c "/"); [done|]. by destruct (Path.split p).
Qed.

Lemma join_split p : Path.join (Path.split p) = p.
Proof.
  induction p as [|c p IH]; [done|]. cbn [Path.split].
  pose proof (split_nonempty p) as Hne.
  destruct (Path.split p) as [|h t]; [done|].
  destruct (Ascii.eqb c "/") eqn:Hc.
  - apply Ascii.eqb_eq in Hc as ->. unfold Path.join in *.
    change (String.concat "/" ("" :: h :: t))
      with (String "/" (String.concat "/" (h :: t))). by rewrite IH.
  - unfold Path.join in *. rewrite <- IH. by destruct t.
Qed.


Lemma split_app a b : Path.split (a +:+ "/" +:+ b) = Path.split a ++ Path.split b.
Proof.
  induction a as [|c a IH]; [done|].
  change (String c a +:+ "/" +:+ b) with (String c (a +:+ "/" +:+ b)).
  cbn [Path.split]. rewrite IH. destruct (Ascii.eqb c "/"); [done|].
  pose proof (split_nonempty a). by destruct (Path.split a).
Qed.

Lemma split_plain id rest :
  plain id = true -> Path.split rest = [rest] -> Path.split (id +:+ rest) = [id +:+ rest].
Proof.
  intros Hid Hrest. induction id as [|c id IH]; [done|].
  cbn [plain] in Hid. apply andb_true_iff in Hid as [[Hc _]%andb_true_iff Hid].
  change (String c id +:+ rest) with (String c (id +:+ rest)).
  cbn [Path.split]. rewrite IH by done. by destruct (Ascii.eqb c "/").
Qed.

Lemma split_file id : plain id = true -> Path.split (id +:+ ".json") = [id +:+ ".json"].
Proof. intros Hid. by apply split_plain. Qed.

Lemma split_category c : c ∈ validCategories -> Path.split c = [c].
Proof.
  unfold validCategories. intros Hc. set_unfold.
  destruct Hc as [H | [H | [H | []]]]; by subst c.
Qed.

Lemma split_templateFile r c id :
  c ∈ validCategories -> plain id = true ->
  Path.split (templateFile r c id) =
  Path.split (Path.join [templatesDir r; c]) ++ [id +:+ ".json"].
Proof.
  intros Hc Hid. unfold templateFile, Path.join. cbn [String.concat].
  rewrite !split_app, (split_file id Hid). by rewrite <- app_assoc.
Qed.

Lemma dirname_templateFile r c id :
  c ∈ validCategories -> plain id = true ->
  Path.dirname (templateFile r c id) = Path.join [templatesDir r; c].
Proof.
  intros Hc Hid. unfold Path.dirname. rewrite split_templateFile by done.
  by rewrite removelast_last, join_split.
Qed.

Lemma basename_templateFile r c id :
  c ∈ validCategories -> plain id = true ->
  Path.basename (templateFile r c id) = id +:+ ".json".
Proof.
  intros Hc Hid. unfold Path.basename. rewrite split_templateFile by done.
  by rewrite last_last.
Qed.

Lemma endsWith_file id : Path.endsWith ".json" (id +:+ ".json") = true.
Proof.
  induction id as [|c id IH]; [done|].
  change (String c id +:+ ".json") with (String c (id +:+ ".json")).
  cbn [Path.endsWith]. rewrite IH. apply orb_true_r.
Qed.

Lemma replace_file id :
  plain id = true -> Path.replace ".json" "" (id +:+ ".json") = id.
Proof.
  intros Hid. induction id as [|c id IH]; [done|].
  cbn [plain] in Hid. apply andb_true_iff in Hid as [[_ Hc]%andb_true_iff Hid].
  change (String c id +:+ ".json") with (String c (id +:+ ".json")).
  cbn [Path.replace String.prefix].
  destruct (ascii_dec "." c) as [<-|_]; [done|]. by rewrite IH.
Qed.

(** The file of a plain id is not a category directory. *)
Lemma templateFile_not_category r c id c' :
  c ∈ validCategories -> plain id = true -> c' ∈ validCategories ->
  templateFile r c id <> Path.join [templatesDir r; c'].
Proof.
  intros Hc Hid Hc' Heq. apply (f_equal Path.split) in Heq.
  rewrite split_templateFile in Heq by done.
  unfold Path.join in Heq. cbn [String.concat] in Heq.
  rewrite !split_app, (split_category c Hc), (split_category c' Hc') in Heq.
  apply (f_equal length) in Heq. rewrite !length_app in Heq. cbn in Heq. lia.
Qed.

(** A template file just written is listed under its category. *)
Lemma written_listed r c id doc (tr : gmap string (node value)) :
  c ∈ validCategories -> plain id = true ->
  is_dir (tr !! Path.join [templatesDir r; c]) = true ->
  listed r (<[templateFile r c id := File (Json doc)]> tr) c id = true.
Proof.
  intros Hc Hid Hdir. unfold listed. apply andb_true_iff. split.
  - rewrite lookup_insert_ne; [done|]. by apply templateFile_not_category.
  - apply bool_decide_eq_true. unfold categoryIds.
    apply list_elem_of_fmap. exists (id +:+ ".json").
    split; [by rewrite replace_file|].
    apply list_elem_of_filter. split; [apply endsWith_file|].
    unfold children. apply list_elem_of_omap.
    exists (templateFile r c id, File (Json doc)). split.
    + apply elem_of_map_to_list. by rewrite lookup_insert_eq.
    + cbn [fst snd]. rewrite dirname_templateFile, basename_templateFile by done.
      by rewrite String.eqb_refl.
Qed.

Lemma listed_observed r tr c id :
  c ∈ validCategories -> listed r tr c id = true -> is_Some (observed r tr id).
Proof.
  unfold validCategories, observed. intros Hc Hl. set_unfold.
  destruct Hc as [H | [H | [H | []]]]; subst c.
  - destruct (listed r tr "component" id); [by eexists|].
    destruct (listed r tr "workflow" id); [by eexists|]. rewrite Hl. by eexists.
  - destruct (listed r tr "component" id); [by eexists|]. rewrite Hl. by eexists.
  - rewrite Hl. by eexists.
Qed.

(** ** From a listing back to the file *)

Lemma append_associative (a b c : string) : (a +:+ b) +:+ c = a +:+ (b +:+ c).
Proof.
  induction a as [|x a IH]; [done|].
  change ((String x a +:+ b) +:+ c) with (String x ((a +:+ b) +:+ c)).
  by rewrite IH.
Qed.

Lemma join_snoc l x : l <> [] -> Path.join (l ++ [x]) = Path.join l +:+ "/" +:+ x.
Proof.
  induction l as [|a l IH]; [done|]. intros _.
  destruct l as [|b l]; [done|].
  change (Path.join ((a :: b :: l) ++ [x]))
    with (a +:+ "/" +:+ Path.join ((b :: l) ++ [x])).
  rewrite IH by done.
  change (Path.join (a :: b :: l)) with (a +:+ "/" +:+ Path.join (b :: l)).
  by rewrite !append_associative.
Qed.

(** A path with a parent is the parent, a separator and the last name. *)
Lemma path_rebuild p :
  Path.dirname p <> "" -> p = Path.dirname p +:+ "/" +:+ Path.basename p.
Proof.
  intros Hd. unfold Path.dirname, Path.basename in *.
  pose proof (split_nonempty p) as Hne.
  rewrite <- (join_split p) at 1.
  rewrite (app_removelast_last "" Hne) at 1.
  apply join_snoc. by intros Hnil; rewrite Hnil in Hd.
Qed.

Lemma templateFile_rebuild r c id :
  templateFile r c id = Path.join [templatesDir r; c] +:+ "/" +:+ id +:+ ".json".
Proof.
  unfold templateFile, Path.join. cbn [String.concat]. by rewrite !append_associative.
Qed.

Lemma category_path_nonempty r c : Path.join [templatesDir r; c] <> "".
Proof.
  unfold Path.join. cbn [String.concat]. unfold templatesDir, Path.join.
  cbn [String.concat]. by destruct r.
Qed.

Lemma elem_of_children {A} (tr : gmap string (node A)) dir file :
  file ∈ children tr dir ->
  exists p n, tr !! p = Some n ∧ Path.dirname p = dir ∧ Path.basename p = file.
Proof.
  unfold children. intros ([p n] & Hin & Hsome)%list_elem_of_omap.
  cbn [fst snd] in Hsome.
  destruct (String.eqb (Path.dirname p) dir) eqn:E; [|done].
  apply String.eqb_eq in E. injection Hsome as <-.
  exists p, n. by apply elem_of_map_to_list in Hin.
Qed.

Lemma plain_not_endsWith id : plain id = true -> Path.endsWith ".json" id = false.
Proof.
  induction id as [|c id IH]; [done|]. intros Hid.
  cbn [plain] in Hid. apply andb_true_iff in Hid as [[_ Hc]%andb_true_iff Hid].
  cbn [Path.endsWith]. rewrite IH by done. rewrite orb_false_r.
  cbn [String.eqb]. destruct (Ascii.eqb "." c) eqn:E; [|done].
  apply Ascii.eqb_eq in E as <-. done.
Qed.

Lemma prefix_split p s :
  String.prefix p s = true -> s = p +:+ Path.drop_chars (String.length p) s.
Proof.
  revert s. induction p as [|a p IH]; intros s Hp; [done|].
  destruct s as [|b s]; [done|]. cbn [String.prefix] in Hp.
  destruct (ascii_dec a b) as [<-|]; [|done].
  change (String a p +:+ ?x) with (String a (p +:+ x)).
  cbn [String.length Path.drop_chars]. by rewrite <- IH.
Qed.

Lemma extension_only id :
  plain id = true -> Path.endsWith ".json" (".json" +:+ id) = true -> id = "".
Proof.
  intros Hid.
  change (".json" +:+ id)
    with (String "." (String "j" (String "s" (String "o" (String "n" id))))).
  cbn [Path.endsWith]. rewrite (plain_not_endsWith id Hid).
  cbn [String.eqb Ascii.eqb Bool.eqb andb orb].
  rewrite ?orb_false_r. by destruct id.
Qed.

(** The file behind a plain id: the name of which [id] is what is left
    when the first [.json] is removed is [id.json] itself. *)
Lemma unique_file file id :
  plain id = true ->
  Path.endsWith ".json" file = true -> Path.replace ".json" "" file = id ->
  file = id +:+ ".json".
Proof.
  revert id. induction file as [|c file IH]; intros id Hid Hends Hrep; [done|].
  cbn [Path.replace] in Hrep.
  destruct (String.prefix ".json" (String c file)) eqn:Hp.
  - apply prefix_split in Hp.
    change ("" +:+ ?x) with x in Hrep. rewrite Hrep in Hp.
    rewrite Hp in Hends. apply extension_only in Hends; [|done].
    by rewrite Hp, Hends.
  - subst id. cbn [plain] in Hid.
    apply andb_true_iff in Hid as [[_ Hc]%andb_true_iff Hid].
    cbn [Path.endsWith] in Hends. apply orb_true_iff in Hends as [He|He].
    + cbn [String.eqb] in He. destruct (Ascii.eqb "." c) eqn:E; [|done].
      apply Ascii.eqb_eq in E as <-. done.
    + change (String c ?x +:+ ".json") with (String c (x +:+ ".json")).
      f_equal. by apply IH.
Qed.

(** A category directory lists a plain id exactly when it holds the
    file of that id. *)
Lemma listed_file r tr c id :
  plain id = true -> listed r tr c id = true -> is_Some (tr !! templateFile r c id).
Proof.
  intros Hid [_ Hin%bool_decide_eq_true]%andb_true_iff.
  unfold categoryIds in Hin.
  apply list_elem_of_fmap in Hin as (file & Hrep & [Hends Hfile]%list_elem_of_filter).
  symmetry in Hrep. apply unique_file in Hrep; [|done|done]. subst file.
  apply elem_of_children in Hfile as (p & n & Hp & Hdir & Hbase).
  rewrite templateFile_rebuild, <- Hdir, <- Hbase, <- path_rebuild; [eauto|].
  rewrite Hdir. apply category_path_nonempty.
Qed.

Lemma file_listed r tr c id :
  c ∈ validCategories -> plain id = true ->
  is_dir (tr !! Path.join [templatesDir r; c]) = true ->
  is_Some (tr !! templateFile r c id) ->
  listed r tr c id = true.
Proof.
  intros Hc Hid Hdir [n Hn]. unfold listed. rewrite Hdir. cbn [andb].
  apply bool_decide_eq_true. unfold categoryIds.
  apply list_elem_of_fmap. exists (id +:+ ".json").
  split; [by rewrite replace_file|].
  apply list_elem_of_filter. split; [apply endsWith_file|].
  unfold children. apply list_elem_of_omap.
  exists (templateFile r c id, n). split.
  - by apply elem_of_map_to_list.
  - cbn [fst snd]. rewrite dirname_templateFile, basename_templateFile by done.
    by rewrite String.eqb_refl.
Qed.

Lemma observed_none r tr id :
  (forall c, c ∈ categories -> listed r tr c id = false) -> observed r tr id = None.
Proof.
  intros H. unfold observed.
  rewrite !H; [done|unfold categories; set_solver..].
Qed.

Lemma observed_only r tr id c :
  c ∈ categories -> listed r tr c id = true ->
  (forall c', c' ∈ categories -> c' <> c -> listed r tr c' id = false) ->
  observed r tr id = Some c.
Proof.
  unfold categories, observed. intros Hc Hl Hother. set_unfold.
  destruct Hc as [-> | [-> | [-> | []]]].
  - rewrite (Hother "component"), (Hother "workflow"), Hl by naive_solver. done.
  - rewrite (Hother "component"), Hl by naive_solver. done.
  - by rewrite Hl.
Qed.

(** C3, as the code has it. On a layout where no category path is a
    regular file one [syncTemplateIndex] returns, and, for ids other than
    the names a plain object inherits: an id that no category directory
    lists has no index entry afterwards; an entry whose id some category
    directory lists is kept as it was, whatever its recorded path and
    category; an id listed on disk that had no entry and whose file
    [id.json], under the last category listing it, reads as a JSON
    document other than [null] gains an entry whose category is that
    directory and whose path is that file; an unindexed id whose file
    does not read as such a document gains none.  In particular, for a
    plain id (neither a separator nor a dot in it): when no category
    directory holds a file [id.json] the id has no entry afterwards, and
    when exactly one does, holding a document other than [null], and the
    id had no entry, it gains one with that directory's category. *)
Theorem sync_directionality s :
  layout_ok s ->
  exists report s',
    syncTemplateIndex s = (Return report, s') ∧
    let r := this_root s in
    let tr := tree (disk s) in
    let before := templates (this_index s) in
    let after := templates (this_index s') in
    (forall id, inherited id = false -> observed r tr id = None -> after !! id = None) ∧
    (forall id e, before !! id = Some e -> is_Some (observed r tr id) ->
                  after !! id = Some e) ∧
    (forall id c doc, before !! id = None -> inherited id = false ->
                      observed r tr id = Some c ->
                      diskDocument r tr id c = Some doc ->
                      exists e, after !! id = Some e ∧ adopted r tr id c doc e) ∧
    (forall id c, before !! id = None -> observed r tr id = Some c ->
                  diskDocument r tr id c = None -> after !! id = None) ∧
    (forall id, plain id = true -> inherited id = false ->
                (forall c, c ∈ categories -> tr !! templateFile r c id = None) ->
                after !! id = None) ∧
    (forall id c doc, plain id = true -> inherited id = false ->
                      before !! id = None ->
                      c ∈ categories ->
                      is_dir (tr !! Path.join [templatesDir r; c]) = true ->
                      tr !! templateFile r c id = Some (File (Json doc)) ->
                      doc <> VNull ->
                      (forall c', c' ∈ categories -> c' <> c ->
                                  tr !! templateFile r c' id = None) ->
                      exists e, after !! id = Some e ∧
                                category e = c ∧ path e = templateFile r c id).
Proof.
  intros Hl.
  destruct (sync_classifies s Hl) as (report & s' & Hrun & Hgone & Hkeep & Hadopt & Hskip & _).
  exists report, s'. split; [done|]. cbv zeta in *.
  split; [done|]. split; [by eauto|]. split; [done|]. split; [done|]. split.
  - intros id Hid Hown Hnone. apply Hgone; [done|].
    apply observed_none. intros c Hc.
    destruct (listed _ _ c id) eqn:Hlisted; [|done].
    apply listed_file in Hlisted as [n Hn]; [|done]. by rewrite Hnone in Hn.
  - intros id c doc Hid Hown Hnew Hc Hdir Hfile Hdoc Hother.
    assert (observed (this_root s) (tree (disk s)) id = Some c) as Hobs.
    { apply observed_only; [done| |].
      - apply file_listed; [done|done|done|by eexists].
      - intros c' Hc' Hne.
        destruct (listed _ _ c' id) eqn:Hlisted; [|done].
        apply listed_file in Hlisted as [n Hn]; [|done]. by rewrite Hother in Hn. }
    destruct (Hadopt id c doc Hnew Hown Hobs) as (e & He & Ha).
    { unfold diskDocument. rewrite Hfile. by destruct doc. }
    exists e. split; [done|]. by destruct Ha as (? & ? & _).
Qed.

(** C1, as the code has it. In an index where no entry shadows the
    inherited [hasOwnProperty]: a name that already has an entry, under
    any category, makes [createTemplate] throw the collision error
    whatever the requested category, with the whole state (index and
    disk) left as it was; a name without an entry, other than
    [__proto__], is registered, adding exactly one entry, when the
    category is one of the three, the data carries a [meta.name], and the
    template file, at a path that is normalised as joined, can be
    written. *)
Theorem createTemplate_registration s id category templateData :
  templates (this_index s) !! "hasOwnProperty" = None ->
  (is_Some (templates (this_index s) !! id) ->
   createTemplate id category templateData s = (Throw (AlreadyExists id), s)) ∧
  (templates (this_index s) !! id = None ->
   id <> "__proto__" ->
   category ∈ validCategories ->
   truthy (prop_opt (prop templateData "meta") "name") = true ->
   Path.normal (templateFile (this_root s) category id) = true ->
   canWrite s (templateFile (this_root s) category id) ->
   exists template e s',
     createTemplate id category templateData s = (Return template, s') ∧
     templates (this_index s') = <[id := e]> (templates (this_index s)) ∧
     size (templates (this_index s')) = S (size (templates (this_index s))) ∧
     TemplateManager.category e = category ∧
     path e = templateFile (this_root s) category id ∧
     tree (disk s') =
       <[templateFile (this_root s) category id := File (Json template)]>
         (tree (disk s))).
Proof.
  intros Hown. split; [by apply createTemplate_collision|].
  intros Hfresh Hproto Hcat Hname _ Hw.
  destruct (createTemplate_fresh s id category templateData Hown Hfresh Hproto Hcat Hname Hw)
    as (template & e & s' & Hrun & Ht & Hc & Hp & _ & Htree).
  exists template, e, s'. split; [done|]. split; [done|].
  split; [by rewrite Ht, map_size_insert_None|]. done.
Qed.

(** ** The statements at concrete states *)

Ltac by_computation := vm_compute; reflexivity.

Lemma drifted_layout_ok : layout_ok Demo.drifted.
Proof.
  intros c Hc. unfold categories in Hc. set_unfold in Hc.
  destruct Hc as [H | [H | [H | []]]]; subst c; by_computation.
Defined.

(** C1: a fresh name is refused when the category is not a template
    category, so registration does not succeed for every fresh name. *)
Lemma createTemplate_fresh_name_can_fail :
  templates (this_index Demo.agreed) !! "report" = None ∧
  createTemplate "report" "next" Demo.request Demo.agreed
    = (Throw (InvalidCategory "next"), Demo.agreed) ∧
  ~ registers_every_fresh_name.
Proof.
  assert (createTemplate "report" "next" Demo.request Demo.agreed
          = (Throw (InvalidCategory "next"), Demo.agreed)) as Hrun by by_computation.
  split; [by_computation|]. split; [exact Hrun|].
  intros H. destruct (H Demo.agreed "report" "next" Demo.request) as (t & s' & Ht).
  - by_computation.
  - rewrite Hrun in Ht. discriminate Ht.
Qed.

Lemma createTemplate_registration_witness :
  createTemplate "cli" "component" Demo.request Demo.agreed
    = (Throw (AlreadyExists "cli"), Demo.agreed) ∧
  exists template e s',
    createTemplate "report" "project" Demo.request Demo.agreed = (Return template, s') ∧
    templates (this_index s') = <[ "report" := e ]> (templates (this_index Demo.agreed)) ∧
    size (templates (this_index s')) = S (size (templates (this_index Demo.agreed))) ∧
    TemplateManager.category e = "project" ∧
    path e = templateFile (this_root Demo.agreed) "project" "report" ∧
    tree (disk s') =
      <[templateFile (this_root Demo.agreed) "project" "report" := File (Json template)]>
        (tree (disk Demo.agreed)).
Proof.
  assert (templates (this_index Demo.agreed) !! "hasOwnProperty" = None) as Hown
    by by_computation.
  split.
  - apply (proj1 (createTemplate_registration Demo.agreed "cli" "component" Demo.request
                    Hown)).
    exists Demo.cliEntry. by_computation.
  - apply (proj2 (createTemplate_registration Demo.agreed "report" "project" Demo.request
                    Hown)).
    + by_computation.
    + intros H. discriminate H.
    + apply list_elem_of_here.
    + by_computation.
    + by_computation.
    + split; [|split]; by_computation.
Defined.

Lemma sync_idempotent_witness :
  exists first s1 s2,
    syncTemplateIndex Demo.drifted = (Return first, s1) ∧
    syncTemplateIndex s1 = (Return (mkReport 0 0 0), s2) ∧
    templates (this_index s2) = templates (this_index s1).
Proof. apply (sync_idempotent Demo.drifted), drifted_layout_ok. Defined.

(** C3: after the run the entry of [cli] is still there although its
    recorded path names no file, and [broken.json], a file under the
    [project] directory with no entry, has gained none. *)
Lemma sync_directionality_as_stated_fails :
  ~ stale_paths_removed (syncTemplateIndex Demo.drifted).2 ∧
  ~ unindexed_files_adopted Demo.drifted (syncTemplateIndex Demo.drifted).2.
Proof.
  split.
  - intros H. specialize (H "cli" (Demo.staleEntry "cli")).
    assert (is_file (tree (disk (syncTemplateIndex Demo.drifted).2)
                       !! path (Demo.staleEntry "cli")) = false) as Hno by by_computation.
    rewrite H in Hno; [discriminate Hno|by_computation].
  - intros H. destruct (H "project" "broken") as (e & He & _).
    + apply list_elem_of_here.
    + by_computation.
    + by_computation.
    + assert (templates (this_index (syncTemplateIndex Demo.drifted).2) !! "broken" = None)
        as Hno by by_computation.
      rewrite Hno in He. discriminate He.
Qed.

(** The two directions on the concrete disk: the entry of [gone], whose
    file was deleted, is removed; [cli.json], put under [workflow] with no
    entry, is adopted with that category. *)
Example sync_drops_deleted :
  templates (this_index (syncTemplateIndex Demo.drifted).2) !! "gone" = None.
Proof. by_computation. Qed.

Example sync_adopts_created :
  templates (this_index Demo.unindexed) !! "cli" = None ∧
  category <$> templates (this_index (syncTemplateIndex Demo.unindexed).2) !! "cli"
    = Some "workflow" ∧
  path <$> templates (this_index (syncTemplateIndex Demo.unindexed).2) !! "cli"
    = Some (templateFile Demo.root "workflow" "cli").
Proof. repeat split; by_computation. Qed.

Lemma sync_directionality_witness :
  exists report s',
    syncTemplateIndex Demo.drifted = (Return report, s') ∧
    let r := this_root Demo.drifted in
    let tr := tree (disk Demo.drifted) in
    let before := templates (this_index Demo.drifted) in
    let after := templates (this_index s') in
    (forall id, inherited id = false -> observed r tr id = None -> after !! id = None) ∧
    (forall id e, before !! id = Some e -> is_Some (observed r tr id) ->
                  after !! id = Some e) ∧
    (forall id c doc, before !! id = None -> inherited id = false ->
                      observed r tr id = Some c ->
                      diskDocument r tr id c = Some doc ->
                      exists e, after !! id = Some e ∧ adopted r tr id c doc e) ∧
    (forall id c, before !! id = None -> observed r tr id = Some c ->
                  diskDocument r tr id c = None -> after !! id = None) ∧
    (forall id, plain id = true -> inherited id = false ->
                (forall c, c ∈ categories -> tr !! templateFile r c id = None) ->
                after !! id = None) ∧
    (forall id c doc, plain id = true -> inherited id = false ->
                      before !! id = None ->
                      c ∈ categories ->
                      is_dir (tr !! Path.join [templatesDir r; c]) = true ->
                      tr !! templateFile r c id = Some (File (Json doc)) ->
                      doc <> VNull ->
                      (forall c', c' ∈ categories -> c' <> c ->
                                  tr !! templateFile r c' id = None) ->
                      exists e, after !! id = Some e ∧
                                category e = c ∧ path e = templateFile r c id).
Proof. apply (sync_directionality Demo.drifted), drifted_layout_ok. Defined.

(** C5: the one call [saveIndex] issues is a write onto the index file,
    not a write of a fresh file followed by a rename. *)
Lemma saveIndex_not_write_new_then_replace :
  calls (saveIndex Demo.agreed).2 = [WriteFile (indexPath Demo.root)] ∧
  ~ write_new_then_replace (indexPath Demo.root) (calls (saveIndex Demo.agreed).2).
Proof.
  assert (calls (saveIndex Demo.agreed).2 = [WriteFile (indexPath Demo.root)]) as Hc
    by by_computation.
  split; [exact Hc|]. rewrite Hc. intros (fresh & _ & Heq). discriminate Heq.
Qed.

(** C6: an index file holding [{}] parses, so [loadIndex] returns that
    value and not an empty index. *)
Lemma loadIndex_keeps_misshapen_index :
  loadIndex Demo.misshapen = (Return (Foreign (VObj ∅)), Demo.misshapen) ∧
  ~ malformed_index_recovered Demo.misshapen.
Proof.
  assert (loadIndex Demo.misshapen = (Return (Foreign (VObj ∅)), Demo.misshapen)) as Hrun
    by by_computation.
  split; [exact Hrun|].
  intros H. destruct H as (t & s' & Hl).
  - intros i Hi.
    change (Some (File (Json (Foreign (VObj ∅)))) = Some (File (Json (Indexed i)))) in Hi.
    discriminate Hi.
  - rewrite Hrun in Hl. discriminate Hl.
Qed.

Lemma drifted_indexUnusable : indexUnusable Demo.drifted.
Proof. intros l Hl. discriminate Hl. Defined.

Lemma loadIndex_recovers_witness :
  loadIndex Demo.drifted
    = (Return (Indexed (emptyIndex (current (clock Demo.drifted)))), ticked Demo.drifted) ∧
  exists s0 report s',
    reload Demo.drifted = (Return None, s0) ∧
    syncTemplateIndex s0 = (Return report, s') ∧
    forall id c doc,
      inherited id = false ->
      observed (this_root Demo.drifted) (tree (disk Demo.drifted)) id = Some c ->
      diskDocument (this_root Demo.drifted) (tree (disk Demo.drifted)) id c = Some doc ->
      exists e, templates (this_index s') !! id = Some e ∧
                adopted (this_root Demo.drifted) (tree (disk Demo.drifted)) id c doc e.
Proof.
  destruct (loadIndex_recovers Demo.drifted) as (_ & _ & Hrec).
  destruct (Hrec drifted_indexUnusable) as [Hload Hsync].
  split; [exact Hload|]. exact (Hsync drifted_layout_ok).
Defined.

Lemma updateTemplate_frame_witness :
  exists updated e' s',
    updateTemplate "cli" (VObj Demo.changes) Demo.agreed = (Return updated, s') ∧
    prop updated "id" = prop Demo.cliDocument "id" ∧
    templates (this_index s') !! "cli" = Some e' ∧
    category e' = category Demo.cliEntry ∧
    prop_opt (prop updated "meta") "createdAt"
      = prop_opt (prop Demo.cliDocument "meta") "createdAt" ∧
    prop_opt (prop updated "meta") "lastModified"
      = Some (VStr (current (clock Demo.agreed))) ∧
    (forall k, k <> "meta" -> Demo.changes !! k = None ->
               prop updated k = prop Demo.cliDocument k) ∧
    (forall k, k <> "lastModified" -> own_props (Demo.changes !! "meta") !! k = None ->
               prop_opt (prop updated "meta") k = prop_opt (prop Demo.cliDocument "meta") k) ∧
    tree (disk s') !! currentPath Demo.agreed "cli" = Some (File (Json updated)).
Proof.
  apply (updateTemplate_frame Demo.agreed "cli" Demo.cliEntry Demo.cliDocument Demo.changes).
  - by_computation.
  - by_computation.
  - by_computation.
  - by_computation.
  - discriminate.
  - by_computation.
  - by_computation.
  - by_computation.
  - by_computation.
Defined.

End TemplateManagerFacts.

(* ===================================================================== *)
(** * The scoring history *)
(* ===================================================================== *)

Module ScorerFacts.
Import Js Eff Date AlignmentScorer.
Local Open Scope list_scope.

Lemma take_app_take {A} n (l1 l2 : list A) :
  take n (l1 ++ take n l2) = take n (l1 ++ l2).
Proof.
  rewrite !take_app. f_equal. rewrite take_take. f_equal. lia.
Qed.

Section Scoring.
Variable calc : ProjectInfo -> state -> option AlignmentScore.

(** A call whose score is computed: the history gains the entry and is cut
    to 50, the clock is read three times, and only the write can fail. *)
Lemma scoreProject_scored projectName projectData s sc :
  calc (withDefaults projectName projectData) s = Some sc ->
  exists o s',
    scoreProject calc projectName projectData s = (o, s') ∧
    o = (if writable s then Return sc else Throw WriteError) ∧
    scoringHistory (scoresData s') =
      Some (take 50 (entryFor projectName sc s :: historyOf s)) ∧
    reading (clock s') = reading (clock s) ∧
    ticks (clock s') = ticks (clock s) + 3 ∧
    missionData s' = missionData s.
Proof.
  intros Hc. unfold scoreProject, _saveScoresData, writeScoresFile.
  unfold bind, get_state, now, set_scoresData, ret, throw. rewrite Hc. simpl.
  destruct (writable s); eexists _, _; (split; [reflexivity|]); simpl;
    repeat split; try done; lia.
Qed.

(** A call whose score computation throws changes nothing. *)
Lemma scoreProject_failed projectName projectData s :
  calc (withDefaults projectName projectData) s = None ->
  scoreProject calc projectName projectData s = (Throw ScoringError, s).
Proof.
  intros Hc. unfold scoreProject. unfold bind, get_state, throw. by rewrite Hc.
Qed.

(** Whatever a call does, a history within the bound stays within it. *)
Lemma scoreProject_bound projectName projectData s :
  length (historyOf s) <= 50 ->
  length (historyOf (scoreProject calc projectName projectData s).2) <= 50.
Proof.
  intros Hb. destruct (calc (withDefaults projectName projectData) s) as [sc|] eqn:Hc.
  - destruct (scoreProject_scored _ _ _ _ Hc) as (o & s' & -> & _ & Hh & _). simpl.
    unfold historyOf at 1. rewrite Hh. simpl. rewrite length_take. lia.
  - by rewrite scoreProject_failed.
Qed.

Lemma scoreAll_bound requests s :
  length (historyOf s) <= 50 ->
  length (historyOf (scoreAll calc requests s)) <= 50.
Proof.
  revert s. induction requests as [|r rest IH]; intros s Hb; simpl; [done|].
  by apply IH, scoreProject_bound.
Qed.

Lemma scoreAll_history requests s :
  requests <> [] ->
  allScored calc requests s ->
  scoringHistory (scoresData (scoreAll calc requests s)) =
  Some (take 50 (rev (entriesOf calc requests s) ++ historyOf s)).
Proof.
  revert s. induction requests as [|r rest IH]; intros s Hne Hall; [done|]. simpl.
  destruct Hall as [[sc Hc] Hall]. rewrite Hc.
  destruct (scoreProject_scored _ _ _ _ Hc) as (o & s' & Hrun & _ & Hh & _).
  rewrite Hrun in *. simpl in *.
  destruct rest as [|r2 rest].
  - simpl. by rewrite Hh.
  - rewrite IH by done. f_equal.
    assert (historyOf s' = take 50 (entryFor r.1 sc s :: historyOf s)) as ->
      by (unfold historyOf at 1; by rewrite Hh).
    rewrite take_app_take. simpl rev. by rewrite <- app_assoc.
Qed.

Lemma entriesOf_length requests s :
  allScored calc requests s ->
  length (entriesOf calc requests s) = length requests.
Proof.
  revert s. induction requests as [|x rest IH]; intros s Hall; simpl; [done|].
  destruct Hall as [[sc Hc] Hall]. rewrite Hc. simpl. by rewrite IH.
Qed.

(** Read from the newest end, the [i]-th entry is the one of the [i]-th
    most recent call, stamped at that call's reading of the clock. *)
Lemma entriesOf_stamps requests s i r :
  allScored calc requests s ->
  rev requests !! i = Some r ->
  exists e, rev (entriesOf calc requests s) !! i = Some e ∧
    projectName e = r.1 ∧
    timestamp e =
      reading (clock s) (ticks (clock s) + 3 * (length requests - 1 - i) + 1).
Proof.
  revert s i. induction requests as [|q rest IH]; intros s i Hall Hi; [done|].
  simpl in *. destruct Hall as [[sc Hc] Hall]. rewrite Hc.
  destruct (scoreProject_scored _ _ _ _ Hc) as (o & s' & Hrun & _ & _ & Hrd & Htk & _).
  rewrite Hrun in *. simpl in *.
  pose proof (entriesOf_length rest s' Hall) as Hlen.
  apply lookup_app_Some in Hi as [Hi|[Hge Hi]].
  - destruct (IH s' i Hall Hi) as (e & He & Hn & Ht).
    exists e. split; [by apply lookup_app_l_Some|]. split; [done|].
    rewrite Ht, Hrd, Htk. f_equal.
    apply lookup_lt_Some in Hi. rewrite length_rev in Hi. lia.
  - rewrite length_rev in *.
    destruct (i - length rest) as [|n] eqn:Hn; [|done]. injection Hi as <-.
    exists (entryFor q.1 sc s). split; [|split; [done|]].
    + rewrite lookup_app_r by (rewrite length_rev; lia).
      rewrite length_rev, Hlen, Hn. done.
    + simpl. f_equal. lia.
Qed.

End Scoring.

(** C10. Every call of [scoreProject] whose score is computed puts exactly
    one entry for the scored project, with its total score and the time of
    the call, at the head of the stored history and keeps the first 50
    entries. So a history within the bound stays within it through any
    sequence of calls, and after a sequence of calls that were all scored
    the history has at most 50 entries whatever it was before, its [i]-th
    entry being the one of the [i]-th most recent call: newest first. *)
Theorem scoreProject_history (calc : ProjectInfo -> state -> option AlignmentScore) :
  (forall projectName projectData s sc,
     calc (withDefaults projectName projectData) s = Some sc ->
     entryScore (entryFor projectName sc s) = totalScore sc ∧
     scoringHistory (scoresData (scoreProject calc projectName projectData s).2) =
     Some (take 50 (entryFor projectName sc s :: historyOf s))) ∧
  (forall requests s,
     length (historyOf s) <= 50 ->
     length (historyOf (scoreAll calc requests s)) <= 50) ∧
  (forall requests s,
     requests <> [] ->
     allScored calc requests s ->
     length (historyOf (scoreAll calc requests s)) <= 50 ∧
     forall i r, i < 50 -> rev requests !! i = Some r ->
       exists e, historyOf (scoreAll calc requests s) !! i = Some e ∧
         projectName e = r.1 ∧
         timestamp e =
           reading (clock s) (ticks (clock s) + 3 * (length requests - 1 - i) + 1)).
Proof.
  split; [|split].
  - intros projectName projectData s sc Hc. split; [done|].
    destruct (scoreProject_scored calc _ _ _ _ Hc) as (o & s' & -> & _ & Hh & _). done.
  - apply scoreAll_bound.
  - intros requests s Hne Hall.
    pose proof (scoreAll_history calc requests s Hne Hall) as Hh.
    unfold historyOf at 1 2. rewrite Hh. simpl default. split.
    + rewrite length_take. lia.
    + intros i r Hi Hr.
      destruct (entriesOf_stamps calc requests s i r Hall Hr) as (e & He & Hn & Ht).
      exists e. split; [|done].
      rewrite lookup_take_lt by done. by apply lookup_app_l_Some.
Qed.

Lemma flatScore_allScored requests s : allScored Demo.flatScore requests s.
Proof.
  revert s. induction requests as [|r rest IH]; intros s; simpl; [done|].
  split; [by eexists|apply IH].
Defined.

Lemma scoreProject_history_witness :
  scoringHistory (scoresData (scoreProject Demo.flatScore "demo" Demo.noData Demo.scorer).2)
    = Some (take 50 (entryFor "demo" (mkScore 72 VNull) Demo.scorer
                       :: historyOf Demo.scorer)) ∧
  length (historyOf (scoreAll Demo.flatScore (replicate 60 ("demo", Demo.noData))
                              Demo.scorer)) <= 50 ∧
  exists e,
    historyOf (scoreAll Demo.flatScore (replicate 60 ("demo", Demo.noData)) Demo.scorer)
      !! 0 = Some e ∧
    projectName e = "demo" ∧
    timestamp e = reading (clock Demo.scorer) (ticks (clock Demo.scorer) + 3 * 59 + 1).
Proof.
  destruct (scoreProject_history Demo.flatScore) as (Hcall & _ & Hseq).
  split.
  - apply (Hcall "demo" Demo.noData Demo.scorer (mkScore 72 VNull)). reflexivity.
  - destruct (Hseq (replicate 60 ("demo", Demo.noData)) Demo.scorer) as [Hlen Hnewest].
    + discriminate.
    + apply flatScore_allScored.
    + split; [exact Hlen|].
      apply (Hnewest 0 ("demo", Demo.noData)); [lia|reflexivity].
Defined.

End ScorerFacts.

(* ===================================================================== *)
(** * The stage machine *)
(* ===================================================================== *)

Module LifecycleFacts.
Import Eff Date Lifecycle.
Local Open Scope list_scope.

Lemma append_assoc (a b c : string) : ((a ++ b) ++ c = a ++ (b ++ c))%string.
Proof.
  induction a as [|x a IH]; [done|].
  change (String x ((a ++ b) ++ c) = String x (a ++ (b ++ c)))%string. by rewrite IH.
Qed.

(** The directories of a project under NOW and under DONE differ. *)
Lemma now_done_apart r name : projectPath r NOW name <> projectPath r DONE name.
Proof.
  unfold projectPath, container, Path.join. cbn [String.concat]. rewrite !append_assoc.
  intros H%String.app_inj. vm_compute in H. discriminate H.
Qed.

Lemma relocate_fails s src dst :
  ~ relocatable s src dst ->
  relocate src dst s = (Throw (FilesystemFailure src dst), s).
Proof.
  intros Hn. unfold relocate.
  destruct (move_fails s) eqn:Hm; [done|]. simpl.
  case_bool_decide as Hs; simpl; [|done].
  case_bool_decide as Hd; simpl; [done|].
  exfalso. apply Hn. done.
Qed.

Lemma relocate_ok s src dst :
  relocatable s src dst ->
  relocate src dst s =
  (Return tt, mkState (root s) (index s) ({[dst]} ∪ directories s ∖ {[src]})
                      (persisted s) (move_fails s) (save_fails s) (clock s)).
Proof.
  intros (Hm & Hs & Hd). unfold relocate. rewrite Hm. simpl.
  rewrite bool_decide_eq_true_2 by done. rewrite bool_decide_eq_false_2 by done. done.
Qed.

Lemma transition_invalid op name s p :
  index s !! name = Some p ->
  stage p ∉ allowedFrom op ->
  transition op name s = (Throw (InvalidTransition name (stage p)), s).
Proof.
  intros Hp Hn. unfold transition, bind, get_state. rewrite Hp.
  by rewrite bool_decide_eq_false_2.
Qed.

Lemma transition_returns op name s s' :
  transition op name s = (Return tt, s') ->
  exists p, index s !! name = Some p ∧ stage p ∈ allowedFrom op.
Proof.
  unfold transition, bind, get_state.
  destruct (index s !! name) as [p|]; [|done].
  case_bool_decide; [eauto|done].
Qed.

Lemma transition_moves op name s p :
  index s !! name = Some p ->
  stage p ∈ allowedFrom op ->
  relocatable s (projectPath (root s) (stage p) name)
                (projectPath (root s) (destination op) name) ->
  exists o s',
    transition op name s = (o, s') ∧
    o = (if save_fails s then Throw PersistFailure else Return tt) ∧
    index s' !! name =
      Some (mkProject (destination op) (projectPath (root s) (destination op) name)
                      (createdAt p) (current (clock s)) (note p)) ∧
    directories s' =
      {[projectPath (root s) (destination op) name]} ∪
      directories s ∖ {[projectPath (root s) (stage p) name]}.
Proof.
  intros Hp Ha Hr. unfold transition, bind, get_state. rewrite Hp.
  rewrite bool_decide_eq_true_2 by done. simpl.
  rewrite relocate_ok by done. unfold now, updateEntry, persist. simpl.
  destruct (save_fails s); eexists _, _; (split; [reflexivity|]); simpl;
    rewrite lookup_insert_eq; done.
Qed.

(** C7. Atomic move on failure: when the directory of a project cannot be
    relocated during a transition that its stage allows (the disk refuses
    the move, the source is missing or the target exists), the transition
    reports a filesystem failure and the whole state, index entry and
    directories included, is as before. *)
Theorem failed_move_leaves_index op name s p :
  index s !! name = Some p ->
  stage p ∈ allowedFrom op ->
  ~ relocatable s (projectPath (root s) (stage p) name)
                  (projectPath (root s) (destination op) name) ->
  transition op name s =
    (Throw (FilesystemFailure (projectPath (root s) (stage p) name)
                              (projectPath (root s) (destination op) name)), s).
Proof.
  intros Hp Ha Hr. unfold transition, bind, get_state. rewrite Hp.
  rewrite bool_decide_eq_true_2 by done. simpl.
  by rewrite relocate_fails.
Qed.

(** C4. Transition legality: a transition of a known project returns only
    when its stage is an allowed source of the operation; from any other
    stage it fails with [InvalidTransition], a non-zero exit, and the
    state unchanged. [Ship] from MAYBE is such a failure; [Ship] from NOW,
    the directory being movable and the index writable, returns with the
    project in DONE and its directory under the DONE container. *)
Theorem transition_legality op name s p :
  index s !! name = Some p ->
  (forall s', transition op name s = (Return tt, s') -> stage p ∈ allowedFrom op) ∧
  (stage p ∉ allowedFrom op ->
   transition op name s = (Throw (InvalidTransition name (stage p)), s) ∧
   exitCode (transition op name s).1 <> 0) ∧
  (stage p = MAYBE ->
   transition Ship name s = (Throw (InvalidTransition name MAYBE), s)) ∧
  (stage p = NOW ->
   relocatable s (projectPath (root s) NOW name) (projectPath (root s) DONE name) ->
   save_fails s = false ->
   exists s', transition Ship name s = (Return tt, s') ∧
     (exists p', index s' !! name = Some p' ∧ stage p' = DONE) ∧
     projectPath (root s) DONE name ∈ directories s' ∧
     projectPath (root s) NOW name ∉ directories s').
Proof.
  intros Hp. split; [|split; [|split]].
  - intros s' Hr. destruct (transition_returns _ _ _ _ Hr) as (p' & Hp' & Ha). congruence.
  - intros Hn. rewrite (transition_invalid op name s p Hp Hn). done.
  - intros Hm. rewrite <- Hm. apply transition_invalid; [done|]. rewrite Hm. simpl. set_solver.
  - intros Hn Hr Hs.
    destruct (transition_moves Ship name s p Hp) as (o & s' & Hrun & Ho & Hi & Hd).
    { rewrite Hn. simpl. set_solver. }
    { by rewrite Hn. }
    rewrite Hs in Ho. subst o. exists s'. split; [done|]. split.
    + eexists. split; [exact Hi|done].
    + rewrite Hd, Hn. simpl. pose proof (now_done_apart (root s) name). set_solver.
Qed.

Lemma transition_legality_witness :
  transition Ship "x" (Demo.portfolio MAYBE false)
    = (Throw (InvalidTransition "x" MAYBE), Demo.portfolio MAYBE false) ∧
  exists s', transition Ship "x" (Demo.portfolio NOW false) = (Return tt, s') ∧
    (exists p', index s' !! "x" = Some p' ∧ stage p' = DONE) ∧
    projectPath Demo.root DONE "x" ∈ directories s' ∧
    projectPath Demo.root NOW "x" ∉ directories s'.
Proof.
  split.
  - apply (transition_legality Ship "x" (Demo.portfolio MAYBE false) (Demo.xProject MAYBE));
      reflexivity.
  - apply (transition_legality Ship "x" (Demo.portfolio NOW false) (Demo.xProject NOW));
      try reflexivity.
    split; [reflexivity|]. split.
    + vm_compute. reflexivity.
    + intros H. vm_compute in H. discriminate H.
Defined.

Lemma failed_move_leaves_index_witness :
  transition Pause "x" (Demo.portfolio NOW true)
    = (Throw (FilesystemFailure (projectPath Demo.root NOW "x")
                                (projectPath Demo.root MAYBE "x")),
       Demo.portfolio NOW true) ∧
  stage <$> index (Demo.portfolio NOW true) !! "x" = Some NOW ∧
  projectPath Demo.root NOW "x" ∈ directories (Demo.portfolio NOW true).
Proof.
  split; [|split].
  - apply (failed_move_leaves_index Pause "x" (Demo.portfolio NOW true) (Demo.xProject NOW)).
    + reflexivity.
    + apply list_elem_of_here.
    + intros (Hm & _). discriminate Hm.
  - reflexivity.
  - vm_compute. reflexivity.
Defined.

End LifecycleFacts.

(* ===================================================================== *)
(** * The remaining operations of the template manager *)
(* ===================================================================== *)

Module TemplateOpsFacts.
Import Js Fs Eff Date TemplateManager EffFacts JsFacts TemplateManagerFacts TemplateOps.
Local Open Scope list_scope.

Lemma value_null_dec (v : value) : v = VNull ∨ v <> VNull.
Proof. destruct v; auto. Qed.

Lemma truthy_name_meta (v : value) :
  truthy (prop_opt (prop v "meta") "name") = true -> truthy (prop v "meta") = true.
Proof. destruct (prop v "meta") as [[| [] | [] | [] | |]|]; done. Qed.

(** A write either goes through or leaves index and disk alone. *)
Lemma writeFileSync_cases p doc s :
  (canWrite s p ∧
   writeFileSync p doc s =
   (Return tt,
    mkState (this_root s) (this_index s)
            (mkDisk (<[p := File (Json doc)]> (tree (disk s)))
                    (index_node (disk s)) (read_only (disk s)))
            (clock s) (calls s ++ [WriteFile p]))) ∨
  (exists e, writeFileSync p doc s =
     (Throw e, mkState (this_root s) (this_index s) (disk s) (clock s)
                       (calls s ++ [WriteFile p]))).
Proof.
  unfold writeFileSync, canWrite. eff_unfold. simpl.
  destruct (is_dir (tree (disk s) !! Path.dirname p)); simpl; [|right; eauto].
  destruct (is_dir (tree (disk s) !! p)); [right; eauto|].
  destruct (read_only (disk s)); [right; eauto|]. left. done.
Qed.

(** The two answers of [templateExists]. *)
Lemma templateExists_cases id s :
  (templates (this_index s) !! "hasOwnProperty" = None ∧
   templateExists id s =
     (Return (bool_decide (is_Some (templates (this_index s) !! id))), s)) ∨
  (is_Some (templates (this_index s) !! "hasOwnProperty") ∧
   templateExists id s = (Throw TypeError, s)).
Proof.
  destruct (templates (this_index s) !! "hasOwnProperty") as [e|] eqn:Hown.
  - right. split; [by eexists|]. apply templateExists_shadowed. by rewrite Hown.
  - left. split; [done|]. by apply templateExists_spec.
Qed.

(** Reading only looks. *)
Lemma readTemplate_cases id s :
  (exists e doc, templates (this_index s) !! "hasOwnProperty" = None ∧
     templates (this_index s) !! id = Some e ∧
     tree (disk s) !! currentPath s id = Some (File (Json doc)) ∧
     readTemplate id s = (Return doc, s)) ∨
  (exists err, readTemplate id s = (Throw err, s) ∧
     (is_Some (templates (this_index s) !! "hasOwnProperty") ∨
      templates (this_index s) !! id = None ∨
      forall doc, tree (disk s) !! currentPath s id <> Some (File (Json doc)))).
Proof.
  unfold readTemplate. unfold bind, try_catch.
  destruct (templateExists_cases id s) as [[Hown ->]|[Hown ->]].
  2:{ right. eexists. split; [reflexivity|]. by left. }
  eff_step.
  destruct (templates (this_index s) !! id) as [e|] eqn:He.
  - rewrite bool_decide_eq_true_2 by eauto. change (negb true) with false. eff_step.
    rewrite getTemplatePath_current. eff_step.
    unfold readFileSync, bind, get_state.
    destruct (tree (disk s) !! currentPath s id) as [[[doc|raw]|]|] eqn:Hf.
    + left. exists e, doc. done.
    + right. eexists. split; [reflexivity|]. right. right. by intros doc.
    + right. eexists. split; [reflexivity|]. right. right. by intros doc.
    + right. eexists. split; [reflexivity|]. right. right. by intros doc.
  - rewrite bool_decide_eq_false_2 by (by intros [? ?]). change (negb false) with true.
    eff_step. right. eexists. split; [reflexivity|]. right. by left.
Qed.

(** Everything [createTemplate] can do. *)
Lemma createTemplate_outcome id category templateData s :
  exists o s', createTemplate id category templateData s = (o, s') ∧
    this_root s' = this_root s ∧
    read_only (disk s') = read_only (disk s) ∧
    match o with
    | Throw e => this_index s' = this_index s ∧ disk s' = disk s
    | Return t =>
        templates (this_index s) !! "hasOwnProperty" = None ∧
        templates (this_index s) !! id = None ∧
        category ∈ validCategories ∧
        truthy (prop_opt (prop templateData "meta") "name") = true ∧
        canWrite s (templateFile (this_root s) category id) ∧
        prop t "files" = Some (or_else (prop templateData "files") (VArr [])) ∧
        prop_opt (prop t "meta") "name" = prop_opt (prop templateData "meta") "name" ∧
        exists e,
          templates (this_index s') = assign id e (templates (this_index s)) ∧
          TemplateManager.category e = category ∧
          path e = templateFile (this_root s) category id ∧
          tree (disk s') =
            <[templateFile (this_root s) category id := File (Json t)]> (tree (disk s))
    end.
Proof.
  unfold createTemplate. unfold bind, try_catch.
  destruct (templateExists_cases id s) as [[Hown ->]|[Hown ->]].
  2:{ eexists _, _. split; [reflexivity|]. done. }
  eff_step.
  case_bool_decide as Hex.
  { eexists _, _. split; [reflexivity|]. done. }
  assert (templates (this_index s) !! id = None) as Hfresh.
  { destruct (templates (this_index s) !! id) eqn:E; [|done]. exfalso. apply Hex. eauto. }
  eff_step.
  case_bool_decide as Hcat; cbn [negb orb]; eff_step.
  2:{ eexists _, _. split; [reflexivity|]. done. }
  destruct (value_null_dec templateData) as [->|Hnn].
  { eexists _, _. split; [reflexivity|]. done. }
  rewrite get_defined by done. eff_step.
  destruct (truthy (prop templateData "meta")) eqn:Hmeta; cbn [negb orb]; eff_step.
  2:{ eexists _, _. split; [reflexivity|]. done. }
  destruct (truthy (prop_opt (prop templateData "meta") "name")) eqn:Hname;
    cbn [negb orb]; eff_step.
  2:{ eexists _, _. split; [reflexivity|]. done. }
  unfold now. eff_step.
  rewrite getTemplatePath_category by (by apply validCategories_truthy).
  eff_step. cbn [this_root].
  match goal with |- context [writeFileSync ?p ?d ?st] =>
    destruct (writeFileSync_cases p d st) as [[Hw ->]|[e ->]] end.
  - eff_step. unfold get_state, set_index. eff_step.
    match goal with |- context [saveIndex ?st] => pose proof (saveIndex_spec st) as Hs end.
    cbv zeta in Hs. rewrite Hs. clear Hs. eff_step. unfold ret.
    eexists _, _. split; [reflexivity|]. cbn.
    split; [done|]. split; [by destruct (_ && _)|].
    split; [done|]. split; [done|]. split; [done|]. split; [done|]. split; [done|].
    split.
    { unfold prop, own_props, obj. cbn [list_to_map foldr uncurry fst snd curry].
      by rewrite !lookup_insert_ne, lookup_insert_eq by done. }
    split.
    { destruct (prop_opt (prop templateData "meta") "name") as [nm|] eqn:En; [|done].
      unfold prop at 1. unfold own_props, obj, set_field. cbn [list_to_map foldr uncurry fst snd].
      rewrite lookup_insert_ne by done. rewrite lookup_insert_eq.
      unfold prop_opt, prop, own_props. by rewrite lookup_insert_eq. }
    eexists. split; [reflexivity|]. cbn. split; [done|]. split; [done|].
    by destruct (_ && _).
  - eff_step. eexists _, _. split; [reflexivity|]. done.
Qed.


Lemma alter_as_insert {A} (f : A -> A) (m : gmap string A) k x :
  m !! k = Some x -> alter f k m = <[k := f x]> m.
Proof.
  intros Hk. apply map_eq. intros j. destruct (decide (j = k)) as [->|Hj].
  - by rewrite lookup_alter_eq, lookup_insert_eq, Hk.
  - by rewrite lookup_alter_ne, lookup_insert_ne by done.
Qed.

(** Everything [updateTemplate] can do. *)
Lemma updateTemplate_outcome id updates s :
  exists o s', updateTemplate id updates s = (o, s') ∧
    this_root s' = this_root s ∧
    read_only (disk s') = read_only (disk s) ∧
    match o with
    | Throw e => this_index s' = this_index s ∧ disk s' = disk s
    | Return t =>
        exists e existing,
          templates (this_index s) !! "hasOwnProperty" = None ∧
          templates (this_index s) !! id = Some e ∧
          tree (disk s) !! currentPath s id = Some (File (Json existing)) ∧
          existing <> VNull ∧ updates <> VNull ∧
          canWrite s (currentPath s id) ∧
          t = merged existing updates (current (clock s)) ∧
          templates (this_index s') =
            <[id := refreshEntry (mergedMeta existing updates (current (clock s))) e]>
              (templates (this_index s)) ∧
          tree (disk s') = <[currentPath s id := File (Json t)]> (tree (disk s))
    end.
Proof.
  unfold updateTemplate. unfold bind, try_catch.
  destruct (templateExists_cases id s) as [[Hown ->]|[Hown ->]].
  2:{ eexists _, _. split; [reflexivity|]. done. }
  eff_step.
  destruct (readTemplate_cases id s) as [(e & existing & _ & He & Hf & Hr)|(err & Hr & _)].
  2:{ case_bool_decide; cbn [negb]; eff_step; rewrite ?Hr;
        eexists _, _; (split; [reflexivity|]); done. }
  rewrite bool_decide_eq_true_2 by eauto. cbn [negb]. eff_step. rewrite Hr. eff_step.
  destruct (value_null_dec existing) as [->|Hnn].
  { eexists _, _. split; [reflexivity|]. done. }
  rewrite get_defined by done. eff_step.
  destruct (value_null_dec updates) as [->|Hun].
  { eexists _, _. split; [reflexivity|]. done. }
  rewrite get_defined by done. eff_step.
  unfold now. eff_step.
  match goal with |- context [getTemplatePath id None ?st] =>
    replace (getTemplatePath id None st) with (Return (E:=error) (currentPath s id), st)
      by (by rewrite getTemplatePath_current) end.
  eff_step.
  match goal with |- context [writeFileSync ?p ?d ?st] =>
    destruct (writeFileSync_cases p d st) as [[Hw ->]|[err ->]] end.
  - eff_step. unfold get_state, set_index. eff_step.
    match goal with |- context [saveIndex ?st] => pose proof (saveIndex_spec st) as Hs end.
    cbv zeta in Hs. rewrite Hs. clear Hs. eff_step. unfold ret.
    eexists _, _. split; [reflexivity|]. cbn.
    split; [done|]. split; [by destruct (_ && _)|].
    exists e, existing. split; [done|].
    split; [done|]. split; [done|]. split; [done|]. split; [done|]. split; [done|].
    split; [done|]. split; [by apply alter_as_insert|].
    by destruct (_ && _).
  - eff_step. eexists _, _. split; [reflexivity|]. done.
Qed.

Lemma unlinkSync_spec p s :
  unlinkSync p s =
  match tree (disk s) !! p with
  | Some (File _) =>
      if read_only (disk s) then (Throw (FsError EROFS p), s)
      else (Return tt, mkState (this_root s) (this_index s)
                         (mkDisk (delete p (tree (disk s))) (index_node (disk s))
                                 (read_only (disk s)))
                         (clock s) (calls s))
  | Some Dir => (Throw (FsError EISDIR p), s)
  | None => (Throw (FsError (absentErrno (tree (disk s)) p) p), s)
  end.
Proof.
  unfold unlinkSync. eff_unfold. simpl.
  destruct (tree (disk s) !! p) as [[]|]; [|done|done].
  by destruct (read_only (disk s)).
Qed.

(** Everything [deleteTemplate] can do. *)
Lemma deleteTemplate_outcome id s :
  match templates (this_index s) !! "hasOwnProperty" with
  | Some _ => deleteTemplate id s = (Throw (Thrown TypeError), s)
  | None =>
  match templates (this_index s) !! id with
  | None => deleteTemplate id s = (Throw (Thrown (NotFound id)), s)
  | Some e =>
      match tree (disk s) !! currentPath s id with
      | Some (File _) =>
          if read_only (disk s)
          then deleteTemplate id s =
               (Throw (FailedToDelete (FsError EROFS (currentPath s id))), s)
          else exists s', deleteTemplate id s = (Return true, s') ∧
                 this_root s' = this_root s ∧
                 read_only (disk s') = false ∧
                 templates (this_index s') = delete id (templates (this_index s)) ∧
                 tree (disk s') = delete (currentPath s id) (tree (disk s))
      | Some Dir =>
          deleteTemplate id s =
          (Throw (FailedToDelete (FsError EISDIR (currentPath s id))), s)
      | None =>
          deleteTemplate id s =
          (Throw (FailedToDelete
                    (FsError (absentErrno (tree (disk s)) (currentPath s id))
                             (currentPath s id))), s)
      end
  end
  end.
Proof.
  unfold deleteTemplate. unfold bind, rethrow.
  destruct (templates (this_index s) !! "hasOwnProperty") as [h|] eqn:Hown.
  { rewrite templateExists_shadowed; [done|]. by rewrite Hown. }
  rewrite templateExists_spec by done. eff_step.
  destruct (templates (this_index s) !! id) as [e|] eqn:He.
  2:{ rewrite bool_decide_eq_false_2 by (by intros [? ?]). done. }
  rewrite bool_decide_eq_true_2 by eauto. cbn [negb]. eff_step.
  rewrite getTemplatePath_current. eff_step. rewrite unlinkSync_spec.
  destruct (tree (disk s) !! currentPath s id) as [[t|]|] eqn:Hf; [|done|done].
  destruct (read_only (disk s)) eqn:Hro; [done|].
  eff_step. unfold get_state, set_index. eff_step.
  match goal with |- context [saveIndex ?st] => pose proof (saveIndex_spec st) as Hs end.
  cbv zeta in Hs. rewrite Hs. clear Hs. eff_step. unfold ret.
  eexists. split; [reflexivity|]. cbn.
  split; [done|]. split; [by destruct (_ && _)|]. split; [done|].
  by destruct (_ && _).
Qed.

Lemma currentPath_entry s id e :
  templates (this_index s) !! id = Some e ->
  category e ∈ validCategories ->
  currentPath s id = templateFile (this_root s) (category e) id.
Proof.
  intros He Hc. unfold currentPath. rewrite He.
  by rewrite validCategories_truthy.
Qed.

(** What a returning [createTemplate] did, for an id other than
    [__proto__]. *)
Lemma createTemplate_returned id category templateData s t s' :
  id <> "__proto__" ->
  createTemplate id category templateData s = (Return t, s') ->
  this_root s' = this_root s ∧
  read_only (disk s') = read_only (disk s) ∧
  templates (this_index s) !! "hasOwnProperty" = None ∧
  templates (this_index s) !! id = None ∧
  category ∈ validCategories ∧
  canWrite s (templateFile (this_root s) category id) ∧
  prop t "files" = Some (or_else (prop templateData "files") (VArr [])) ∧
  prop_opt (prop t "meta") "name" = prop_opt (prop templateData "meta") "name" ∧
  truthy (prop_opt (prop templateData "meta") "name") = true ∧
  exists e,
    templates (this_index s') = <[id := e]> (templates (this_index s)) ∧
    TemplateManager.category e = category ∧
    path e = templateFile (this_root s) category id ∧
    tree (disk s') =
      <[templateFile (this_root s) category id := File (Json t)]> (tree (disk s)).
Proof.
  intros Hid Hrun.
  destruct (createTemplate_outcome id category templateData s)
    as (o & s1 & Hc & Hroot & Hro & Hout).
  rewrite Hrun in Hc. injection Hc as <- <-.
  destruct Hout as (Hown & Hfresh & Hcat & Hname & Hw & Hfiles & Hnm & e & Ht & Hce & Hp & Htree).
  rewrite assign_insert in Ht by done.
  split_and!; try done. by exists e.
Qed.

(** Reading back what [createTemplate] made. *)
Lemma createTemplate_reread id category templateData s t s' :
  id <> "__proto__" -> id <> "hasOwnProperty" ->
  createTemplate id category templateData s = (Return t, s') ->
  readTemplate id s' = (Return t, s').
Proof.
  intros Hid Hid' Hrun.
  destruct (createTemplate_returned _ _ _ _ _ _ Hid Hrun)
    as (Hroot & _ & Hown & _ & Hcat & _ & _ & _ & _ & e & Ht & Hce & _ & Htree).
  assert (templates (this_index s') !! id = Some e) as He
    by (by rewrite Ht, lookup_insert_eq).
  apply (readTemplate_ok id s' e t); [by rewrite Ht, lookup_insert_ne|done|].
  rewrite (currentPath_entry s' id e He) by (by rewrite Hce).
  by rewrite Htree, Hroot, Hce, lookup_insert_eq.
Qed.

(** X1. What [createTemplate] returns is what [readTemplate] of the same
    id reads back afterwards, and that read changes nothing; for an id
    other than [__proto__] and [hasOwnProperty] whose template path is
    normalised as joined. *)
Theorem createTemplate_then_readTemplate id category templateData s t s' :
  id <> "__proto__" -> id <> "hasOwnProperty" ->
  Path.normal (templateFile (this_root s) category id) = true ->
  createTemplate id category templateData s = (Return t, s') ->
  readTemplate id s' = (Return t, s').
Proof. intros Hid Hid' _. by apply createTemplate_reread. Qed.

(** X2. What [updateTemplate] returns is what [readTemplate] of the same
    id reads back afterwards, when the path of the template is normalised
    as joined. *)
Theorem updateTemplate_then_readTemplate id updates s t s' :
  Path.normal (currentPath s id) = true ->
  updateTemplate id updates s = (Return t, s') ->
  readTemplate id s' = (Return t, s').
Proof.
  intros _ Hrun.
  destruct (updateTemplate_outcome id updates s) as (o & s1 & Hc & Hroot & _ & Hout).
  rewrite Hrun in Hc. injection Hc as <- <-.
  destruct Hout as (e & existing & Hown & He & _ & _ & _ & _ & _ & Ht & Htree).
  assert (templates (this_index s') !! id = Some
            (refreshEntry (mergedMeta existing updates (current (clock s))) e)) as He'
    by (by rewrite Ht, lookup_insert_eq).
  eapply (readTemplate_ok id s' _ t); [|exact He'|].
  { rewrite Ht. destruct (decide (id = "hasOwnProperty")) as [->|Hne]; [congruence|].
    by rewrite lookup_insert_ne. }
  assert (currentPath s' id = currentPath s id) as ->.
  { unfold currentPath. by rewrite He', He, Hroot. }
  by rewrite Htree, lookup_insert_eq.
Qed.

(** A failed [deleteTemplate] changes nothing. *)
Lemma deleteTemplate_throw id s e s' :
  deleteTemplate id s = (Throw e, s') -> s' = s.
Proof.
  intros Hrun. pose proof (deleteTemplate_outcome id s) as Hd.
  destruct (templates (this_index s) !! "hasOwnProperty");
    [by rewrite Hd in Hrun; injection Hrun as _ <-|].
  destruct (templates (this_index s) !! id); [|by rewrite Hd in Hrun; injection Hrun as _ <-].
  destruct (tree (disk s) !! currentPath s id) as [[]|];
    [|by rewrite Hd in Hrun; injection Hrun as _ <-..].
  destruct (read_only (disk s)); [by rewrite Hd in Hrun; injection Hrun as _ <-|].
  destruct Hd as (s1 & Hd & _). rewrite Hd in Hrun. discriminate Hrun.
Qed.

(** X3. A [createTemplate], [updateTemplate] or [deleteTemplate] that
    throws leaves the index in memory as it was.  It leaves the disk as
    it was too, unless the error is the failure of the write of the
    template file, after which nothing is said of the disk; a failed
    [deleteTemplate] always does. *)
Theorem failed_change_keeps_index s :
  (forall id category templateData e s',
     createTemplate id category templateData s = (Throw e, s') ->
     this_index s' = this_index s ∧
     ((forall code p, e <> FailedToCreate (FsError code p)) -> disk s' = disk s)) ∧
  (forall id updates e s',
     updateTemplate id updates s = (Throw e, s') ->
     this_index s' = this_index s ∧
     ((forall code p, e <> FailedToUpdate (FsError code p)) -> disk s' = disk s)) ∧
  (forall id e s',
     deleteTemplate id s = (Throw e, s') ->
     this_index s' = this_index s ∧ disk s' = disk s).
Proof.
  split; [|split].
  - intros id category templateData e s' Hrun.
    destruct (createTemplate_outcome id category templateData s)
      as (o & s1 & Hc & _ & _ & Hout).
    rewrite Hrun in Hc. injection Hc as <- <-. by destruct Hout.
  - intros id updates e s' Hrun.
    destruct (updateTemplate_outcome id updates s) as (o & s1 & Hc & _ & _ & Hout).
    rewrite Hrun in Hc. injection Hc as <- <-. by destruct Hout.
  - intros id e s' Hrun. by rewrite (deleteTemplate_throw id s e s' Hrun).
Qed.

(** X4. For an indexed template whose file exists on a writable disk, at
    a path that is normalised as joined, in an index where no entry
    shadows the inherited [hasOwnProperty], [deleteTemplate] returns
    [true], removes exactly that entry from the index and exactly that
    file from the tree, and the id can no longer be read. *)
Theorem deleteTemplate_removes id s e t :
  templates (this_index s) !! "hasOwnProperty" = None ->
  Path.normal (currentPath s id) = true ->
  templates (this_index s) !! id = Some e ->
  read_only (disk s) = false ->
  tree (disk s) !! currentPath s id = Some (File t) ->
  exists s',
    deleteTemplate id s = (Return true, s') ∧
    templates (this_index s') = delete id (templates (this_index s)) ∧
    tree (disk s') = delete (currentPath s id) (tree (disk s)) ∧
    readTemplate id s' = (Throw (NotFound id), s').
Proof.
  intros Hown _ He Hro Hf. pose proof (deleteTemplate_outcome id s) as Hd.
  rewrite Hown, He, Hro, Hf in Hd. destruct Hd as (s' & Hd & _ & _ & Ht & Htree).
  exists s'. split; [done|]. split; [done|]. split; [done|].
  unfold readTemplate, bind. rewrite templateExists_spec.
  - rewrite bool_decide_eq_false_2; [done|]. rewrite Ht, lookup_delete_eq. by intros [? ?].
  - rewrite Ht. apply lookup_delete_None. by right.
Qed.


(** X6. Creating a template where no file was and then deleting it
    succeeds and restores the entries of the index and the tree of files;
    for an id other than [__proto__] and [hasOwnProperty] whose template
    path is normalised as joined. *)
Theorem createTemplate_then_deleteTemplate id category templateData s t s1 :
  id <> "__proto__" -> id <> "hasOwnProperty" ->
  Path.normal (templateFile (this_root s) category id) = true ->
  createTemplate id category templateData s = (Return t, s1) ->
  tree (disk s) !! templateFile (this_root s) category id = None ->
  exists s2,
    deleteTemplate id s1 = (Return true, s2) ∧
    templates (this_index s2) = templates (this_index s) ∧
    tree (disk s2) = tree (disk s).
Proof.
  intros Hid Hid' _ Hrun Hnone.
  destruct (createTemplate_returned _ _ _ _ _ _ Hid Hrun)
    as (Hroot & Hro & Hown & Hfresh & Hcat & Hw & _ & _ & _ & e & Ht & Hce & _ & Htree).
  assert (templates (this_index s1) !! id = Some e) as He
    by (by rewrite Ht, lookup_insert_eq).
  assert (templates (this_index s1) !! "hasOwnProperty" = None) as Hown1
    by (by rewrite Ht, lookup_insert_ne).
  assert (currentPath s1 id = templateFile (this_root s) category id) as Hp.
  { rewrite (currentPath_entry s1 id e He) by (by rewrite Hce). by rewrite Hroot, Hce. }
  pose proof (deleteTemplate_outcome id s1) as Hd.
  rewrite Hown1, He, Hro, (proj1 Hw), Hp, Htree, lookup_insert_eq in Hd.
  destruct Hd as (s2 & Hd & _ & _ & Ht2 & Htree2).
  exists s2. split; [done|]. split.
  - rewrite Ht2, Ht. by apply delete_insert_id.
  - rewrite Htree2. by apply delete_insert_id.
Qed.

Lemma dropMissing_size_list found (l : list (string * IndexEntry)) t :
  NoDup l.*1 -> (forall k, k ∈ l.*1 -> is_Some (t !! k)) ->
  size (dropMissing found t l) +
  length (List.filter (fun kv : string * IndexEntry => negb (onDisk found kv.1)) l)
  = size t.
Proof.
  revert t. induction l as [|kv l IH]; intros t Hnd Hin.
  { simpl. lia. }
  change (dropMissing found t (kv :: l))
    with (dropMissing found (if onDisk found kv.1 then t else delete kv.1 t) l).
  rewrite fmap_cons in Hnd, Hin. apply NoDup_cons in Hnd as [Hnew Hnd].
  cbn [List.filter]. destruct (onDisk found kv.1); cbn [negb].
  - apply IH; [done|]. intros k Hk. apply Hin. by right.
  - cbn [length]. rewrite Nat.add_succ_r, IH; [|done|].
    + rewrite map_size_delete_Some by (apply Hin; left).
      assert (size t <> 0); [|lia].
      intros Hz. apply map_size_empty_inv in Hz. subst t.
      destruct (Hin kv.1) as [? Hx]; [left|]. by rewrite lookup_empty in Hx.
    + intros k Hk. rewrite lookup_delete_ne by (intros Hkk; by rewrite Hkk in Hnew).
      apply Hin. by right.
Qed.

Lemma dropMissing_size found (t : gmap string IndexEntry) :
  size (dropMissing found t (map_to_list t)) +
  length (List.filter (fun kv : string * IndexEntry => negb (onDisk found kv.1))
                      (map_to_list t))
  = size t.
Proof.
  apply dropMissing_size_list; [apply NoDup_fst_map_to_list|].
  intros k Hk. apply list_elem_of_fmap in Hk as ([k' x] & -> & Hk).
  apply elem_of_map_to_list in Hk. eauto.
Qed.

(** The run of [syncTemplateIndex], whatever the layout. *)
Lemma sync_cases s :
  (exists e, syncTemplateIndex s = (Throw e, s)) ∨
  (exists found added s2 ok s3,
     discover s = (Return found, s) ∧
     adoption found
       (with_templates s (dropMissing found (templates (this_index s))
                                      (map_to_list (templates (this_index s)))))
       added s2 ∧
     saveIndex s2 = (Return ok, s3) ∧
     syncTemplateIndex s =
       (Return (mkReport added 0
                  (length (List.filter (fun kv => negb (onDisk found kv.1))
                                       (map_to_list (templates (this_index s)))))), s3)).
Proof.
  pose proof (discover_spec s) as Hd.
  destruct (scan (this_root s) (tree (disk s)) categories ∅) as [found|e].
  - right. destruct (sync_run s found Hd) as (added & s2 & ok & s3 & _ & Ha & _ & Hs & Hr).
    exists found, added, s2, ok, s3. done.
  - left. exists e. by apply (discover_throw s e s).
Qed.

(** X7. The report of [syncTemplateIndex] accounts for the size of the
    index: the entries afterwards are those before, less the removed, plus
    the added; [syncedCount] is always 0. *)
Theorem sync_report_counts s report s' :
  syncTemplateIndex s = (Return report, s') ->
  syncedCount report = 0 ∧
  size (templates (this_index s')) + removedCount report =
  size (templates (this_index s)) + addedCount report.
Proof.
  intros Hrun. destruct (sync_cases s) as [[e He]|(found & added & s2 & ok & s3 & _ & Ha & Hs & Hr)].
  { rewrite He in Hrun. discriminate Hrun. }
  rewrite Hrun in Hr. injection Hr as -> ->. split; [done|]. cbn [removedCount addedCount].
  destruct (saveIndex_effect s2) as (ok' & s3' & Hs' & _ & Ht & _).
  rewrite Hs in Hs'. injection Hs' as <- <-. rewrite Ht.
  rewrite (adoption_size _ _ _ _ Ha). cbn.
  pose proof (dropMissing_size found (templates (this_index s))). lia.
Qed.

Lemma indexOk_sync s : indexOk s -> indexOk (syncTemplateIndex s).2.
Proof.
  intros Hok.
  destruct (sync_cases s) as [[e ->]|(found & added & s2 & ok & s3 & Hd & Ha & Hs & ->)];
    [done|]. cbn [snd].
  destruct (saveIndex_effect s2) as (ok' & s3' & Hs' & Hroot & Ht & _).
  rewrite Hs in Hs'. injection Hs' as <- <-.
  destruct (adoption_frame _ _ _ _ Ha) as (Hroot2 & _).
  intros id e He. rewrite Ht in He. rewrite Hroot, Hroot2. cbn [this_root with_templates].
  destruct (adoption_source _ _ _ _ Ha id e He) as [Hold|(_ & _ & c & doc & Hf & _ & Had)].
  - cbn in Hold. rewrite dropMissing_all in Hold.
    destruct (onDisk found id); [|done]. by apply Hok.
  - destruct Had as (Hc & Hp & _). cbn in Hp. split.
    + rewrite Hc. apply (discover_categories s found Hd id c Hf).
    + by rewrite Hc.
Qed.

(** X8. When every index entry records one of the three categories and
    the path of its own file under it, the path [getTemplatePath] computes
    for an id is the recorded one, and the property still holds after
    [createTemplate], [updateTemplate], [deleteTemplate] and
    [syncTemplateIndex], whatever their arguments and outcome. *)
Theorem indexOk_preserved s :
  indexOk s ->
  (forall id e, templates (this_index s) !! id = Some e -> currentPath s id = path e) ∧
  (forall id category templateData,
     indexOk (createTemplate id category templateData s).2) ∧
  (forall id updates, indexOk (updateTemplate id updates s).2) ∧
  (forall id, indexOk (deleteTemplate id s).2) ∧
  indexOk (syncTemplateIndex s).2.
Proof.
  intros Hok. split; [|split; [|split; [|split]]].
  - intros id e He. destruct (Hok id e He) as [Hc Hp].
    by rewrite (currentPath_entry s id e He Hc).
  - intros id category templateData.
    destruct (createTemplate_outcome id category templateData s)
      as (o & s' & -> & Hroot & _ & Hout). cbn [snd].
    intros j e He. rewrite Hroot. destruct o as [t|err].
    + destruct Hout as (_ & _ & Hcat & _ & _ & _ & _ & e' & Ht & Hce & Hp & _).
      rewrite Ht in He. apply lookup_assign_Some in He as [[-> ->]|He].
      * split; by rewrite Hce.
      * by apply Hok.
    + destruct Hout as [Hi _]. rewrite Hi in He. by apply Hok.
  - intros id updates.
    destruct (updateTemplate_outcome id updates s) as (o & s' & -> & Hroot & _ & Hout).
    cbn [snd]. intros j e He. rewrite Hroot. destruct o as [t|err].
    + destruct Hout as (e0 & existing & _ & He0 & _ & _ & _ & _ & _ & Ht & _).
      rewrite Ht in He. destruct (decide (j = id)) as [->|Hj].
      * rewrite lookup_insert_eq in He. injection He as <-.
        exact (Hok id e0 He0).
      * rewrite lookup_insert_ne in He by done. by apply Hok.
    + destruct Hout as [Hi _]. rewrite Hi in He. by apply Hok.
  - intros id. pose proof (deleteTemplate_outcome id s) as Hd.
    destruct (templates (this_index s) !! "hasOwnProperty"); [by rewrite Hd|].
    destruct (templates (this_index s) !! id); [|by rewrite Hd].
    destruct (tree (disk s) !! currentPath s id) as [[]|]; [|by rewrite Hd..].
    destruct (read_only (disk s)); [by rewrite Hd|].
    destruct Hd as (s' & -> & Hroot & _ & Ht & _). cbn [snd].
    intros j e He. rewrite Hroot. rewrite Ht in He.
    apply lookup_delete_Some in He as [_ He]. by apply Hok.
  - by apply indexOk_sync.
Qed.

Lemma app_nil_iff {A} (l1 l2 : list A) : l1 ++ l2 = [] <-> l1 = [] ∧ l2 = [].
Proof. split; [apply app_eq_nil|]. by intros [-> ->]. Qed.

(** The checks of one file entry. *)
Lemma checkFile_spec index file errors s :
  file <> VNull ->
  exists issues,
    checkFile index file errors s = (Return (errors ++ issues), s) ∧
    (issues = [] <-> fileOk file = true).
Proof.
  intros Hnn. unfold checkFile. unfold bind. rewrite get_defined by done. eff_step.
  rewrite get_defined by done. eff_step. unfold ret.
  assert (fileOk file = truthy (prop file "path") &&
            (truthy (prop file "content") || isEmptyString (prop file "content"))) as ->
    by (by destruct file).
  destruct (truthy (prop file "path")), (truthy (prop file "content")),
    (isEmptyString (prop file "content")); cbn [negb andb orb];
    rewrite <- ?app_assoc;
    first [ exists []; rewrite app_nil_r; done
          | eexists; split; [reflexivity|]; done ].
Qed.

Lemma checkFiles_spec l index errors s :
  (VNull ∈ l ∧ checkFiles index l errors s = (Throw TypeError, s)) ∨
  ((VNull ∉ l) ∧ exists issues,
     checkFiles index l errors s = (Return (errors ++ issues), s) ∧
     (issues = [] <-> forallb fileOk l = true)).
Proof.
  revert index errors. induction l as [|file l IH]; intros index errors.
  { right. split; [by intros ?%elem_of_nil|]. exists []. rewrite app_nil_r. done. }
  cbn [checkFiles forallb]. unfold bind.
  destruct (value_null_dec file) as [->|Hnn].
  { left. split; [by left|done]. }
  destruct (checkFile_spec index file errors s Hnn) as (i1 & -> & Hi1).
  destruct (IH (S index) (errors ++ i1)) as [[Hin ->]|(Hin & i2 & -> & Hi2)].
  - left. split; [by right|done].
  - right. split.
    { intros [?|?]%elem_of_cons; [congruence|done]. }
    exists (i1 ++ i2). rewrite app_assoc. split; [done|].
    rewrite app_nil_iff, andb_true_iff. tauto.
Qed.

Lemma forallb_null l : VNull ∈ l -> forallb fileOk l = false.
Proof.
  intros Hin. destruct (forallb fileOk l) eqn:Hall; [|done].
  rewrite forallb_forall in Hall. apply list_elem_of_In in Hin. by apply Hall in Hin.
Qed.

Lemma validateTemplate_unreadable id s e :
  readTemplate id s = (Throw e, s) ->
  validateTemplate id s = (Return (mkValidation false [FailedToLoad e] None), s).
Proof. intros Hr. unfold validateTemplate, bind, try_catch. by rewrite Hr. Qed.

(** The verdict on a document that was read. *)
Lemma validateTemplate_readable id s t :
  readTemplate id s = (Return t, s) ->
  exists v,
    validateTemplate id s = (Return v, s) ∧
    (valid v = true <-> errors v = []) ∧
    (valid v = true <-> wellFormed t = true) ∧
    (valid v = true -> template v = Some t) ∧
    (template v = Some t ∨ v = mkValidation false [FailedToLoad TypeError] None).
Proof.
  intros Hr. unfold validateTemplate. unfold bind, try_catch. rewrite Hr. eff_step.
  destruct (value_null_dec t) as [->|Hnn].
  { eexists. split; [reflexivity|]. cbn. split; [done|]. split; [done|]. split; [done|].
    by right. }
  rewrite get_defined by done. eff_step. unfold wellFormed.
  pose proof (truthy_name_meta t) as Hnm.
  destruct (prop t "files") as [f|] eqn:Hf.
  2:{ cbn [truthy negb orb]. eff_step. unfold ret. eexists. split; [reflexivity|]. cbn.
      rewrite andb_false_r. destruct (_ || _); cbn; split_and?; try done; by left. }
  destruct (truthy (Some f)) eqn:Htf.
  2:{ cbn [negb orb]. eff_step. unfold ret. eexists. split; [reflexivity|]. cbn.
      assert (match f with VArr l => forallb fileOk l | _ => false end = false) as ->
        by (by destruct f).
      rewrite andb_false_r. destruct (_ || _); cbn; split_and?; try done; by left. }
  destruct f as [| b | n | str | l | o]; [done| | | | |].
  1-3,5: (eexists; split; [reflexivity|]; cbn; rewrite andb_false_r;
         split; [done|]; split; [done|]; split; [done|]; by right).
  cbn [negb orb]. eff_step.
  match goal with |- context [checkFiles 0 l ?errs s] =>
    destruct (checkFiles_spec l 0 errs s) as [[Hin ->]|(_ & issues & -> & Hiss)] end.
  { eexists. split; [reflexivity|]. cbn. rewrite forallb_null by done.
    rewrite andb_false_r. split; [done|]. split; [done|]. split; [done|]. by right. }
  unfold ret. eexists. split; [reflexivity|]. cbn [valid errors template].
  rewrite Nat.eqb_eq, length_zero_iff_nil. split; [done|]. split; [|split; [done|by left]].
  rewrite app_nil_iff, andb_true_iff, Hiss.
  destruct (truthy (prop_opt (prop t "meta") "name")) eqn:Hn.
  - rewrite Hnm by done. cbn. tauto.
  - rewrite orb_true_r. cbn. split; [by intros [? _]|by intros [? _]].
Qed.

(** X9. [validateTemplate] never throws and changes nothing; its verdict
    is [valid] exactly when it lists no error, and exactly when the
    template can be read and has a truthy [meta.name] and an array [files]
    whose entries are objects with a truthy [path] and a [content] that is
    truthy or the empty string; the document is then returned with it. *)
Theorem validateTemplate_verdict id s :
  exists v,
    validateTemplate id s = (Return v, s) ∧
    (valid v = true <-> errors v = []) ∧
    (valid v = true <->
     exists t, readTemplate id s = (Return t, s) ∧ template v = Some t ∧
               wellFormed t = true).
Proof.
  destruct (readTemplate_cases id s) as [(e & t & _ & _ & _ & Hr)|(err & Hr & _)].
  - destruct (validateTemplate_readable id s t Hr) as (v & Hv & He & Hw & Ht & _).
    exists v. split; [done|]. split; [done|]. split.
    + intros Hvalid. exists t. split; [done|]. split; [by apply Ht|by apply Hw].
    + intros (t' & Hr' & _ & Hw'). rewrite Hr in Hr'. injection Hr' as <-. by apply Hw.
  - rewrite (validateTemplate_unreadable id s err Hr). eexists. split; [reflexivity|].
    cbn [valid errors template]. split; [done|]. split; [done|].
    intros (t & Hr' & _). rewrite Hr in Hr'.
    discriminate Hr'.
Qed.

(** X10. When [files] is truthy but not an array, or is an array with a
    [null] entry, the checks themselves throw: the verdict carries the one
    error of a failed load and no template, although the template was
    read. *)
Theorem validateTemplate_files_not_iterable id s t f :
  readTemplate id s = (Return t, s) ->
  prop t "files" = Some f ->
  (truthy (Some f) = true ∧ forall l, f <> VArr l) ∨ (exists l, f = VArr l ∧ VNull ∈ l) ->
  validateTemplate id s = (Return (mkValidation false [FailedToLoad TypeError] None), s).
Proof.
  intros Hr Hf Hcase. unfold validateTemplate. unfold bind, try_catch. rewrite Hr. eff_step.
  assert (t <> VNull) as Hnn by (by intros ->).
  rewrite get_defined by done. eff_step. rewrite Hf.
  destruct Hcase as [[Htf Hna]|(l & -> & Hin)].
  - rewrite Htf. cbn [negb orb]. eff_step. destruct f; try done. by destruct (Hna l).
  - cbn [truthy negb orb]. eff_step.
    match goal with |- context [checkFiles 0 l ?errs s] =>
      destruct (checkFiles_spec l 0 errs s) as [[_ ->]|(Hnin & _)] end; done.
Qed.

(** X11. A template just created validates without errors when the
    request had no [files] or an array of acceptable entries; for an id
    other than [__proto__] and [hasOwnProperty] whose template path is
    normalised as joined. *)
Theorem created_template_validates id category templateData s t s' :
  id <> "__proto__" -> id <> "hasOwnProperty" ->
  Path.normal (templateFile (this_root s) category id) = true ->
  createTemplate id category templateData s = (Return t, s') ->
  match prop templateData "files" with
  | Some (VArr l) => forallb fileOk l = true
  | files => truthy files = false
  end ->
  validateTemplate id s' = (Return (mkValidation true [] (Some t)), s').
Proof.
  intros Hid Hid' _ Hrun Hfiles.
  pose proof (createTemplate_reread _ _ _ _ _ _ Hid Hid' Hrun) as Hr.
  destruct (createTemplate_returned _ _ _ _ _ _ Hid Hrun)
    as (_ & _ & _ & _ & _ & _ & Hf & Hn & Hname & _).
  destruct (validateTemplate_readable id s' t Hr) as (v & -> & He & Hw & Ht & _).
  assert (wellFormed t = true) as Hwf.
  { unfold wellFormed. rewrite Hn, Hname, Hf. cbn [andb].
    destruct (prop templateData "files") as [[| b | n | str | l | o]|]; cbn in *;
      try done; try by rewrite Hfiles. }
  apply Hw in Hwf. destruct v as [b errs tpl]. cbn in *.
  rewrite (Ht Hwf). rewrite (proj1 He Hwf). by rewrite Hwf.
Qed.

Lemma ancestors_self p : p <> "" -> p ∈ ancestors p.
Proof.
  intros Hp. unfold ancestors. apply list_elem_of_filter. split; [done|].
  apply list_elem_of_fmap. exists (length (Path.split p)). split.
  - by rewrite firstn_all, join_split.
  - apply elem_of_seq. pose proof (split_nonempty p).
    destruct (Path.split p); [done|]. simpl. lia.
Qed.

Lemma mkdirAll_spec ps tr tr' :
  mkdirAll ps tr = Return tr' ->
  tr ⊆ tr' ∧
  (forall p, p ∈ ps -> tr' !! p = Some Dir) ∧
  (forall p n, tr' !! p = Some n -> tr !! p = Some n ∨ n = Dir).
Proof.
  revert tr. induction ps as [|q ps IH]; intros tr Hrun; cbn [mkdirAll] in Hrun.
  { injection Hrun as <-. split; [done|]. split; [by intros p ?%elem_of_nil|]. auto. }
  unfold mkdirStep in Hrun.
  destruct (tr !! q) as [[t|]|] eqn:Hq; [done| |].
  - destruct (IH _ Hrun) as (Hsub & Hdirs & Hnew). split; [done|]. split; [|done].
    intros p [->|Hp]%elem_of_cons; [|by apply Hdirs].
    by apply (lookup_weaken _ _ _ _ Hq).
  - destruct (IH _ Hrun) as (Hsub & Hdirs & Hnew). split; [|split].
    + etrans; [|exact Hsub]. by apply insert_subseteq.
    + intros p [->|Hp]%elem_of_cons; [|by apply Hdirs].
      apply (lookup_weaken _ _ _ _ (lookup_insert_eq tr q Dir) Hsub).
    + intros p n Hp. destruct (Hnew p n Hp) as [Hold|?]; [|by right].
      destruct (decide (p = q)) as [->|Hpq].
      * rewrite lookup_insert_eq in Hold. injection Hold as <-. by right.
      * rewrite lookup_insert_ne in Hold by done. by left.
Qed.

Lemma mkdirAll_unobstructed ps tr :
  (forall p, p ∈ ps -> is_file (tr !! p) = false) ->
  exists tr', mkdirAll ps tr = Return tr'.
Proof.
  revert tr. induction ps as [|q ps IH]; intros tr Hno; cbn [mkdirAll]; [eauto|].
  unfold mkdirStep. pose proof (Hno q (list_elem_of_here _ _)) as Hq.
  destruct (tr !! q) as [[t|]|] eqn:Eq; [done| |].
  - apply IH. intros p Hp. apply Hno. by right.
  - apply IH. intros p Hp. destruct (decide (p = q)) as [->|Hpq].
    + by rewrite lookup_insert_eq.
    + rewrite lookup_insert_ne by done. apply Hno. by right.
Qed.

Lemma grown_refl s : grown s s.
Proof. unfold grown. split_and?; auto. Qed.

Lemma grown_trans s1 s2 s3 : grown s1 s2 -> grown s2 s3 -> grown s1 s3.
Proof.
  intros (H1 & H2 & H3 & H4 & H5 & H6 & H7 & H8) (G1 & G2 & G3 & G4 & G5 & G6 & G7 & G8).
  unfold grown. split_and?; try congruence.
  - by etrans.
  - intros p n Hp. destruct (G8 p n Hp) as [Hold|?]; [|by right]. by apply H8.
Qed.

(** One round of the loop of [ensureDirectories]. *)
Lemma ensure_step dir s :
  exists o s',
    (let* present := existsSync dir in
     if negb present then mkdirSync dir else ret tt) s = (o, s') ∧
    grown s s' ∧
    (is_Some (tree (disk s) !! dir) -> o = Return tt ∧ s' = s) ∧
    (o = Return tt -> dir <> "" -> is_Some (tree (disk s') !! dir)) ∧
    (read_only (disk s) = false ->
     (forall a, a ∈ ancestors dir -> is_file (tree (disk s) !! a) = false) ->
     o = Return tt).
Proof.
  unfold existsSync, mkdirSync. eff_unfold. simpl.
  case_bool_decide as Hpresent; cbn [negb].
  { eexists _, _. split; [reflexivity|]. split; [apply grown_refl|]. done. }
  assert (is_dir (tree (disk s) !! dir) = false) as ->.
  { destruct (tree (disk s) !! dir) eqn:Hd; [|done]. exfalso. apply Hpresent. eauto. }
  rewrite andb_true_r.
  destruct (mkdirAll (ancestors dir) (tree (disk s))) as [tr|e] eqn:Hmk.
  - destruct (read_only (disk s)) eqn:Hro.
    { eexists _, _. split; [reflexivity|]. split; [apply grown_refl|]. done. }
    destruct (mkdirAll_spec _ _ _ Hmk) as (Hsub & Hdirs & Hnew).
    eexists _, _. split; [reflexivity|]. split; [|split; [done|split; [|done]]].
    + unfold grown. cbn. split_and?; done.
    + intros _ Hne. cbn. rewrite (Hdirs dir); [done|]. by apply ancestors_self.
  - eexists _, _. split; [reflexivity|]. split; [apply grown_refl|].
    split; [done|]. split; [done|]. intros _ Hno.
    destruct (mkdirAll_unobstructed _ _ Hno) as [tr Htr]. congruence.
Qed.

Lemma ensure_loop dirs s :
  exists o s',
    forEach dirs
      (fun dir (_ : unit) =>
         let* present := existsSync dir in
         if negb present then mkdirSync dir else ret tt) tt s = (o, s') ∧
    grown s s' ∧
    ((forall d, d ∈ dirs -> is_Some (tree (disk s) !! d)) -> o = Return tt ∧ s' = s) ∧
    (o = Return tt -> forall d, d ∈ dirs -> d <> "" -> is_Some (tree (disk s') !! d)) ∧
    (read_only (disk s) = false ->
     (forall d a, d ∈ dirs -> a ∈ ancestors d -> is_file (tree (disk s) !! a) = false) ->
     o = Return tt).
Proof.
  revert s. induction dirs as [|dir dirs IH]; intros s.
  { eexists _, _. split; [reflexivity|]. split; [apply grown_refl|].
    split; [done|]. split; [by intros _ d ?%elem_of_nil|done]. }
  cbn [forEach]. unfold bind at 1.
  destruct (ensure_step dir s) as (o1 & s1 & -> & Hg1 & Hsame1 & Hdir1 & Hok1).
  destruct o1 as [[]|e].
  2:{ eexists _, _. split; [reflexivity|]. split; [done|]. split; [|split; [done|]].
      - intros Hall. destruct Hsame1 as [? _]; [apply Hall; by left|done].
      - intros Hro Hno. exfalso. assert (Throw (A:=unit) e = Return tt); [|done].
        apply Hok1; [done|]. intros a Ha. apply (Hno dir a); [by left|done]. }
  destruct (IH s1) as (o & s' & -> & Hg & Hsame & Hdirs & Hok).
  eexists _, _. split; [reflexivity|]. split; [by eapply grown_trans|].
  destruct Hg1 as (_ & _ & _ & _ & _ & Hro1 & Hsub1 & Hnew1).
  destruct Hg as (_ & _ & _ & _ & _ & _ & Hsub & _).
  split; [|split].
  - intros Hall. destruct Hsame1 as [_ ->]; [apply Hall; by left|].
    apply Hsame. intros d Hd. apply Hall. by right.
  - intros -> d [->|Hd]%elem_of_cons Hne; [|by apply Hdirs].
    destruct (Hdir1 eq_refl Hne) as [n Hn].
    exists n. by apply (lookup_weaken _ _ _ _ Hn).
  - intros Hro Hno. apply Hok; [congruence|].
    intros d a Hd Ha. destruct (tree (disk s1) !! a) as [[t|]|] eqn:Hn; [|done..].
    destruct (Hnew1 a _ Hn) as [Hold|?]; [|done].
    specialize (Hno d a (list_elem_of_further _ _ _ Hd) Ha). by rewrite Hold in Hno.
Qed.

Lemma managedDirs_nonempty r d : d ∈ managedDirs r -> d <> "".
Proof.
  unfold managedDirs, templatesDir, Path.join. cbn [String.concat].
  intros Hd Hnil. subst d. set_unfold.
  destruct Hd as [H|[H|[H|[H|[H|[]]]]]]; symmetry in H;
    destruct r; discriminate H.
Qed.

Lemma ensureDirectories_spec s :
  exists o s',
    ensureDirectories s = (o, s') ∧ grown s s' ∧
    ((forall d, d ∈ managedDirs (this_root s) -> is_Some (tree (disk s) !! d)) ->
     o = Return tt ∧ s' = s) ∧
    (o = Return tt ->
     forall d, d ∈ managedDirs (this_root s) -> is_Some (tree (disk s') !! d)) ∧
    (read_only (disk s) = false -> unobstructed s -> o = Return tt).
Proof.
  unfold ensureDirectories. unfold bind at 1. unfold get_state.
  destruct (ensure_loop (managedDirs (this_root s)) s) as (o & s' & -> & Hg & Hs & Hd & Hok).
  exists o, s'. split; [done|]. split; [done|]. split; [done|]. split; [|done].
  intros Ho d Hin. apply Hd; [done..|]. by eapply managedDirs_nonempty.
Qed.

(** X12. Whatever its outcome, [ensureDirectories] keeps every node of
    the tree, adds directories only, and touches neither the index nor the
    index file; when it returns, each of the five managed paths exists. *)
Theorem ensureDirectories_grows s :
  exists o s',
    ensureDirectories s = (o, s') ∧ grown s s' ∧
    (o = Return tt ->
     forall d, d ∈ managedDirs (this_root s) -> is_Some (tree (disk s') !! d)).
Proof.
  destruct (ensureDirectories_spec s) as (o & s' & Hrun & Hg & _ & Hd & _). eauto.
Qed.

(** X13. After a run of [ensureDirectories] that returned, a second run
    returns and changes nothing. *)
Theorem ensureDirectories_idempotent s s' :
  ensureDirectories s = (Return tt, s') ->
  ensureDirectories s' = (Return tt, s').
Proof.
  intros Hrun. destruct (ensureDirectories_spec s) as (o & s1 & Hrun1 & Hg & _ & Hd & _).
  rewrite Hrun in Hrun1. injection Hrun1 as <- <-.
  destruct (ensureDirectories_spec s') as (o2 & s2 & -> & _ & Hsame & _).
  destruct Hg as (Hroot & _).
  destruct Hsame as [H1 H2]; [|by rewrite H1, H2].
  rewrite Hroot. by apply Hd.
Qed.

(** X14. On a writable disk with no regular file at or above a managed
    path, [ensureDirectories] returns, the five managed paths are
    directories afterwards, and the layout is the one [syncTemplateIndex]
    expects. *)
Theorem ensureDirectories_succeeds s :
  read_only (disk s) = false -> unobstructed s ->
  exists s', ensureDirectories s = (Return tt, s') ∧
    layout_ok s' ∧
    forall d, d ∈ managedDirs (this_root s) -> tree (disk s') !! d = Some Dir.
Proof.
  intros Hro Hno. destruct (ensureDirectories_spec s) as (o & s' & Hrun & Hg & _ & Hd & Hok).
  rewrite (Hok Hro Hno) in *. exists s'. split; [done|].
  destruct Hg as (Hroot & _ & _ & _ & _ & _ & _ & Hnew).
  assert (forall d, d ∈ managedDirs (this_root s) -> tree (disk s') !! d = Some Dir) as Hdirs.
  { intros d Hin. destruct (Hd eq_refl d Hin) as [n Hn]. rewrite Hn.
    destruct (Hnew d n Hn) as [Hold | ->]; [|done].
    destruct n as [t|]; [|done].
    pose proof (Hno d d Hin (ancestors_self d (managedDirs_nonempty _ _ Hin))) as Hf.
    by rewrite Hold in Hf. }
  split; [|done].
  intros c Hc. rewrite Hroot, Hdirs; [done|].
  unfold categories in Hc. unfold managedDirs. set_unfold. naive_solver.
Qed.

(** X15. On such a disk, and unless the index file holds JSON that is
    not an index, the constructor returns with the index of the index
    file, or the empty index when that file is absent or unusable, and a
    following [syncTemplateIndex] does not throw. *)
Theorem construct_ready s :
  read_only (disk s) = false -> unobstructed s ->
  (forall v, index_node (disk s) <> Some (File (Json (Foreign v)))) ->
  exists s',
    construct s = (Return None, s') ∧
    this_index s' =
      match index_node (disk s) with
      | Some (File (Json (Indexed i))) => i
      | _ => emptyIndex (current (clock s))
      end ∧
    layout_ok s' ∧
    exists report s'', syncTemplateIndex s' = (Return report, s'').
Proof.
  intros Hro Hno Hshape.
  destruct (ensureDirectories_spec s) as (o & s1 & Hrun & Hg & _ & Hd & Hok).
  rewrite (Hok Hro Hno) in *.
  destruct Hg as (Hroot & _ & Hclock & _ & Hnode & _ & _ & Hnew).
  assert (forall (s' : state), this_root s' = this_root s1 -> disk s' = disk s1 -> layout_ok s')
    as Hlay.
  { intros s' Hr' Hd' c Hc. rewrite Hr', Hd', Hroot.
    assert (Path.join [templatesDir (this_root s); c] ∈ managedDirs (this_root s)) as Hin.
    { unfold categories in Hc. unfold managedDirs. set_unfold. naive_solver. }
    destruct (tree (disk s1) !! Path.join [templatesDir (this_root s); c])
      as [[t|]|] eqn:Hn; [|done..].
    destruct (Hnew _ _ Hn) as [Hold|?]; [|done].
    pose proof (Hno _ _ Hin (ancestors_self _ (managedDirs_nonempty _ _ Hin))) as Hf.
    by rewrite Hold in Hf. }
  unfold construct, reload. unfold bind. rewrite Hrun. eff_step.
  rewrite loadIndex_spec, Hnode, Hclock. unfold set_index.
  destruct (index_node (disk s)) as [[[[i|v]|raw]|]|]; [|by destruct (Hshape v)|..];
    (eexists; split; [reflexivity|]; split; [reflexivity|];
     match goal with |- layout_ok ?st ∧ _ =>
       assert (layout_ok st) as Hl by (by apply Hlay) end;
     split; [done|];
     destruct (sync_classifies _ Hl) as (report & s'' & Hsync & _); eauto).
Qed.

Section Listing.
Variable sortByName : list (string * IndexEntry) -> option (list (string * IndexEntry)).
Hypothesis sort_permutes : forall l l', sortByName l = Some l' -> l' ≡ₚ l.

Lemma listTemplates_spec category s l s' :
  listTemplates sortByName category s = (Return l, s') ->
  s' = s ∧
  l ≡ₚ filter (fun kv : string * IndexEntry =>
                 negb (truthy (VStr <$> category)) ||
                 bool_decide (Some (TemplateManager.category kv.2) = category) = true)
              (map_to_list (templates (this_index s))).
Proof.
  unfold listTemplates. unfold bind, get_state. eff_step.
  destruct (sortByName _) as [sorted|] eqn:Hs; [|done].
  intros [= <- <-]. split; [done|]. by apply sort_permutes.
Qed.

(** X16. Whatever order the sort leaves, [listTemplates] changes nothing
    and returns each indexed template of the category once and nothing
    else; with no category, or the empty string, all of them. *)
Theorem listTemplates_selects category s l s' :
  listTemplates sortByName category s = (Return l, s') ->
  s' = s ∧ NoDup l.*1 ∧
  forall id e, (id, e) ∈ l <->
    templates (this_index s) !! id = Some e ∧
    (truthy (VStr <$> category) = false ∨ category = Some (TemplateManager.category e)).
Proof.
  intros Hrun. destruct (listTemplates_spec _ _ _ _ Hrun) as [-> Hl].
  split; [done|]. split.
  - rewrite Hl. apply NoDup_fmap_fst.
    + intros id e1 e2 [_ H1%elem_of_map_to_list]%list_elem_of_filter
        [_ H2%elem_of_map_to_list]%list_elem_of_filter. congruence.
    + apply NoDup_filter, NoDup_map_to_list.
  - intros id e. rewrite Hl, list_elem_of_filter, elem_of_map_to_list. cbn.
    rewrite orb_true_iff, negb_true_iff, bool_decide_eq_true. naive_solver.
Qed.

Lemma count_by_category (l : list (string * IndexEntry)) :
  length (filter (fun kv : string * IndexEntry => TemplateManager.category kv.2 = "project") l) +
  length (filter (fun kv : string * IndexEntry => TemplateManager.category kv.2 = "workflow") l) +
  length (filter (fun kv : string * IndexEntry => TemplateManager.category kv.2 = "component") l)
  <= length l ∧
  ((forall kv, kv ∈ l -> TemplateManager.category kv.2 ∈ validCategories) ->
   length (filter (fun kv : string * IndexEntry => TemplateManager.category kv.2 = "project") l) +
   length (filter (fun kv : string * IndexEntry => TemplateManager.category kv.2 = "workflow") l) +
   length (filter (fun kv : string * IndexEntry => TemplateManager.category kv.2 = "component") l)
   = length l).
Proof.
  induction l as [|kv l [IHle IHeq]]; [done|].
  rewrite !filter_cons. cbn [length].
  split.
  - repeat case_decide; cbn [length]; try lia; congruence.
  - intros Hall.
    assert (TemplateManager.category kv.2 ∈ validCategories) as Hkv by (apply Hall; by left).
    specialize (IHeq (fun kv' H => Hall kv' (list_elem_of_further _ _ _ H))).
    unfold validCategories in Hkv. set_unfold.
    destruct Hkv as [H|[H|[H|[]]]]; rewrite H;
      repeat case_decide; cbn [length]; try lia; congruence.
Qed.

(** X17. [getTemplateStats] changes nothing; [total] is the number of
    index entries, [byCategory] has the three categories in order, each
    with the number of entries recording it; the three counts never exceed
    [total], and add up to it when every entry records one of the three
    categories. *)
Theorem getTemplateStats_counts s st s' :
  getTemplateStats sortByName s = (Return st, s') ->
  s' = s ∧
  total st = size (templates (this_index s)) ∧
  (exists p w c,
     byCategory st = [("project", p); ("workflow", w); ("component", c)] ∧
     (forall cat n, (cat, n) ∈ byCategory st ->
        n = length (filter (fun kv : string * IndexEntry => TemplateManager.category kv.2 = cat)
                           (map_to_list (templates (this_index s))))) ∧
     p + w + c <= total st ∧
     (indexOk s -> p + w + c = total st)).
Proof.
  unfold getTemplateStats. unfold bind at 1.
  destruct (listTemplates sortByName None s) as [[l|e] s1] eqn:Hl; [|done].
  destruct (listTemplates_spec _ _ _ _ Hl) as [-> Hperm]. unfold ret.
  intros [= <- <-]. split; [done|].
  assert (l ≡ₚ map_to_list (templates (this_index s))) as Hall.
  { rewrite Hperm. clear. induction (map_to_list _) as [|kv m IH]; [done|].
    rewrite filter_cons_True by done. by f_equiv. }
  cbn [total byCategory map getCategories].
  split; [by rewrite Hall, length_map_to_list|].
  eexists _, _, _. split; [reflexivity|]. split; [|split].
  - intros cat n Hin.
    apply elem_of_cons in Hin as [Hin|Hin]; [by injection Hin as -> ->; rewrite Hall|].
    apply elem_of_cons in Hin as [Hin|Hin]; [by injection Hin as -> ->; rewrite Hall|].
    apply elem_of_cons in Hin as [Hin|Hin]; [by injection Hin as -> ->; rewrite Hall|].
    by apply elem_of_nil in Hin.
  - apply count_by_category.
  - intros Hok. apply count_by_category. intros [id e] Hin. cbn.
    rewrite Hall in Hin. apply elem_of_map_to_list in Hin. by destruct (Hok id e Hin).
Qed.

End Listing.

(** ** Saving and loading the index *)

(** X25. When [saveIndex] returns [true], a [loadIndex] called next
    returns the index held in memory, which is the one before the save
    with [lastUpdated] set to the time of the save. *)
Theorem saveIndex_then_loadIndex s s' :
  saveIndex s = (Return true, s') ->
  loadIndex s' = (Return (Indexed (this_index s')), s') ∧
  this_index s' = set_lastUpdated (current (clock s)) (this_index s).
Proof.
  intros Hrun. pose proof (saveIndex_spec s) as Hs. cbv zeta in Hs.
  rewrite Hrun in Hs. injection Hs as Hok ->. rewrite <- Hok. cbn [this_index].
  split; [|done]. by rewrite loadIndex_spec.
Qed.

(** X26. With category paths that are not regular files, a template
    created under a plain id (no separator and no dot in it) other than
    [__proto__] survives a following [syncTemplateIndex]: the run returns
    and the entry of the id is the one [createTemplate] made. *)
Theorem createTemplate_then_sync id category templateData s t s1 :
  layout_ok s -> plain id = true -> id <> "__proto__" ->
  createTemplate id category templateData s = (Return t, s1) ->
  exists report s2,
    syncTemplateIndex s1 = (Return report, s2) ∧
    is_Some (templates (this_index s1) !! id) ∧
    templates (this_index s2) !! id = templates (this_index s1) !! id.
Proof.
  intros Hlay Hid Hproto Hrun.
  destruct (createTemplate_returned _ _ _ _ _ _ Hproto Hrun)
    as (Hroot & _ & _ & _ & Hcat & Hw & _ & _ & _ & e & Ht & _ & _ & Htree).
  destruct Hw as (_ & Hdir & _). rewrite dirname_templateFile in Hdir by done.
  assert (layout_ok s1) as Hlay1.
  { intros c Hc. rewrite Hroot, Htree.
    rewrite lookup_insert_ne by (by apply templateFile_not_category). by apply Hlay. }
  destruct (sync_classifies s1 Hlay1) as (report & s2 & Hsync & _ & Hkeep & _).
  exists report, s2. split; [done|].
  assert (templates (this_index s1) !! id = Some e) as He
    by (by rewrite Ht, lookup_insert_eq).
  split; [by eexists|]. rewrite He. apply Hkeep; [done|]. left.
  rewrite Hroot, Htree. apply (listed_observed _ _ category); [done|].
  by apply written_listed.
Qed.

(** The id must be plain: [syncTemplateIndex] takes the name of a file
    with its first [.json] removed for the id, so the template
    [v1.json.bak], stored as [v1.json.bak.json], is looked for as
    [v1.bak.json] and its entry is dropped. *)
Example sync_drops_dotted_id :
  plain "v1.json.bak" = false ∧
  is_Some (templates (this_index DemoOps.dotted) !! "v1.json.bak") ∧
  templates (this_index (syncTemplateIndex DemoOps.dotted).2) !! "v1.json.bak" = None.
Proof. split; [reflexivity|]. split; [by eexists|]. by_computation. Qed.

(** ** Names a plain object inherits *)

(** X27. Once the index has an entry named [hasOwnProperty], the
    existence check [this.index.templates.hasOwnProperty(id)] is a
    [TypeError] for every id, and with it [createTemplate],
    [readTemplate], [updateTemplate] and [deleteTemplate] throw that
    error before doing anything: the state is as it was. *)
Theorem shadowed_hasOwnProperty_blocks s id :
  is_Some (templates (this_index s) !! "hasOwnProperty") ->
  templateExists id s = (Throw TypeError, s) ∧
  (forall category templateData,
     createTemplate id category templateData s = (Throw TypeError, s)) ∧
  readTemplate id s = (Throw TypeError, s) ∧
  (forall updates, updateTemplate id updates s = (Throw TypeError, s)) ∧
  deleteTemplate id s = (Throw (Thrown TypeError), s).
Proof.
  intros Hown. pose proof (templateExists_shadowed id s Hown) as Hex.
  split; [done|]. split; [|split; [|split]].
  - intros category templateData. unfold createTemplate. unfold bind at 1. by rewrite Hex.
  - unfold readTemplate. unfold bind at 1. by rewrite Hex.
  - intros updates. unfold updateTemplate. unfold bind at 1. by rewrite Hex.
  - pose proof (deleteTemplate_outcome id s) as Hd. destruct Hown as [h Hh].
    by rewrite Hh in Hd.
Qed.

(** X28. [syncTemplateIndex] tests both maps with a plain property read,
    so on a layout where it returns it leaves an id that names an
    inherited member as it found it: an entry under such an id is kept
    whether or not its file exists, and a file under such an id gains no
    entry. *)
Theorem sync_skips_inherited_names s :
  layout_ok s ->
  exists report s',
    syncTemplateIndex s = (Return report, s') ∧
    forall id, inherited id = true ->
      templates (this_index s') !! id = templates (this_index s) !! id.
Proof.
  intros Hl.
  destruct (sync_classifies s Hl) as (report & s' & Hrun & _ & Hkeep & _ & _ & Hnone).
  exists report, s'. split; [done|]. intros id Hid. cbv zeta in *.
  destruct (templates (this_index s) !! id) as [e|] eqn:He.
  - apply Hkeep; [done|by right].
  - by apply Hnone.
Qed.

(** ** On concrete states *)

Lemma agreed_indexOk : indexOk Demo.agreed.
Proof.
  intros id e He.
  change (templates (this_index Demo.agreed)) with ({[ "cli" := Demo.cliEntry ]} : gmap string IndexEntry) in He.
  apply lookup_singleton_Some in He as [<- <-].
  split; [|by_computation]. apply list_elem_of_further, list_elem_of_here.
Defined.

Lemma bare_unobstructed : unobstructed DemoOps.bare.
Proof. intros d a _ _. reflexivity. Defined.

Lemma unsorted_permutes l l' : DemoOps.unsorted l = Some l' -> l' ≡ₚ l.
Proof. intros [= ->]. reflexivity. Defined.

Lemma createTemplate_then_readTemplate_witness :
  createTemplate "report" "project" Demo.request Demo.agreed =
    (Return DemoOps.reportDocument, DemoOps.reported) ∧
  readTemplate "report" DemoOps.reported =
    (Return DemoOps.reportDocument, DemoOps.reported).
Proof.
  split; [by_computation|].
  apply (createTemplate_then_readTemplate "report" "project" Demo.request Demo.agreed).
  - intros H. discriminate H.
  - intros H. discriminate H.
  - by_computation.
  - by_computation.
Defined.

Lemma updateTemplate_then_readTemplate_witness :
  updateTemplate "cli" (VObj Demo.changes) Demo.agreed =
    (Return DemoOps.revisedDocument, DemoOps.revised) ∧
  readTemplate "cli" DemoOps.revised = (Return DemoOps.revisedDocument, DemoOps.revised).
Proof.
  split; [by_computation|].
  apply (updateTemplate_then_readTemplate "cli" (VObj Demo.changes) Demo.agreed);
    by_computation.
Defined.

(** X3: on a disk that refuses the write, [createTemplate] has read the
    clock and issued the write before it throws; the index is as it was. *)
Lemma failed_change_keeps_index_witness :
  (createTemplate "report" "project" Demo.request DemoOps.locked).1 =
    Throw (FailedToCreate (FsError EROFS (templateFile Demo.root "project" "report"))) ∧
  this_index (createTemplate "report" "project" Demo.request DemoOps.locked).2 =
    this_index DemoOps.locked.
Proof.
  split; [by_computation|].
  apply (proj1 (failed_change_keeps_index DemoOps.locked)
           "report" "project" Demo.request
           (FailedToCreate (FsError EROFS (templateFile Demo.root "project" "report")))).
  by_computation.
Defined.

Lemma deleteTemplate_removes_witness :
  exists s',
    deleteTemplate "cli" Demo.agreed = (Return true, s') ∧
    templates (this_index s') = delete "cli" (templates (this_index Demo.agreed)) ∧
    tree (disk s') = delete (currentPath Demo.agreed "cli") (tree (disk Demo.agreed)) ∧
    readTemplate "cli" s' = (Throw (NotFound "cli"), s').
Proof.
  apply (deleteTemplate_removes "cli" Demo.agreed Demo.cliEntry (Json Demo.cliDocument));
    by_computation.
Defined.

(** X5 with a regular file above the path: the error is [ENOTDIR]. *)
Example stale_entry_under_a_file :
  readTemplate "cli" DemoOps.blocked =
    (Throw (FailedToRead (FsError ENOTDIR (currentPath DemoOps.blocked "cli"))),
     DemoOps.blocked).
Proof. by_computation. Qed.


Lemma createTemplate_then_deleteTemplate_witness :
  exists s2,
    deleteTemplate "report" DemoOps.reported = (Return true, s2) ∧
    templates (this_index s2) = templates (this_index Demo.agreed) ∧
    tree (disk s2) = tree (disk Demo.agreed).
Proof.
  apply (createTemplate_then_deleteTemplate "report" "project" Demo.request Demo.agreed
           DemoOps.reportDocument DemoOps.reported);
    [intros H; discriminate H|intros H; discriminate H|by_computation..].
Defined.

Lemma sync_report_counts_witness :
  syncTemplateIndex Demo.drifted = (Return (mkReport 0 0 1), DemoOps.synced) ∧
  syncedCount (mkReport 0 0 1) = 0 ∧
  size (templates (this_index DemoOps.synced)) + removedCount (mkReport 0 0 1) =
  size (templates (this_index Demo.drifted)) + addedCount (mkReport 0 0 1).
Proof.
  split; [by_computation|].
  apply (sync_report_counts Demo.drifted). by_computation.
Defined.

Lemma indexOk_preserved_witness :
  (forall id e, templates (this_index Demo.agreed) !! id = Some e ->
                currentPath Demo.agreed id = path e) ∧
  (forall id category templateData,
     indexOk (createTemplate id category templateData Demo.agreed).2) ∧
  (forall id updates, indexOk (updateTemplate id updates Demo.agreed).2) ∧
  (forall id, indexOk (deleteTemplate id Demo.agreed).2) ∧
  indexOk (syncTemplateIndex Demo.agreed).2.
Proof. apply (indexOk_preserved Demo.agreed), agreed_indexOk. Defined.

Lemma validateTemplate_files_not_iterable_witness :
  validateTemplate "odd" DemoOps.odd =
    (Return (mkValidation false [FailedToLoad TypeError] None), DemoOps.odd).
Proof.
  apply (validateTemplate_files_not_iterable "odd" DemoOps.odd DemoOps.oddDocument
           (VStr "README.md")).
  - by_computation.
  - by_computation.
  - left. split; [reflexivity|]. intros l H. discriminate H.
Defined.

Lemma created_template_validates_witness :
  validateTemplate "report" DemoOps.reported =
    (Return (mkValidation true [] (Some DemoOps.reportDocument)), DemoOps.reported).
Proof.
  apply (created_template_validates "report" "project" Demo.request Demo.agreed);
    [intros H; discriminate H|intros H; discriminate H|by_computation..].
Defined.

Lemma ensureDirectories_idempotent_witness :
  ensureDirectories DemoOps.bare = (Return tt, DemoOps.prepared) ∧
  ensureDirectories DemoOps.prepared = (Return tt, DemoOps.prepared).
Proof.
  split; [by_computation|].
  apply (ensureDirectories_idempotent DemoOps.bare). by_computation.
Defined.

Lemma ensureDirectories_succeeds_witness :
  exists s',
    ensureDirectories DemoOps.bare = (Return tt, s') ∧
    layout_ok s' ∧
    forall d, d ∈ managedDirs (this_root DemoOps.bare) -> tree (disk s') !! d = Some Dir.
Proof.
  apply (ensureDirectories_succeeds DemoOps.bare); [reflexivity|apply bare_unobstructed].
Defined.

Lemma construct_ready_witness :
  exists s',
    construct DemoOps.bare = (Return None, s') ∧
    this_index s' = emptyIndex (current (clock DemoOps.bare)) ∧
    layout_ok s' ∧
    exists report s'', syncTemplateIndex s' = (Return report, s'').
Proof.
  apply (construct_ready DemoOps.bare); [reflexivity|apply bare_unobstructed|].
  intros v H. discriminate H.
Defined.

Lemma listTemplates_selects_witness :
  Demo.agreed = Demo.agreed ∧ NoDup [("cli", Demo.cliEntry)].*1 ∧
  forall id e, (id, e) ∈ [("cli", Demo.cliEntry)] <->
    templates (this_index Demo.agreed) !! id = Some e ∧
    (truthy (VStr <$> Some "workflow") = false ∨
     Some "workflow" = Some (TemplateManager.category e)).
Proof.
  apply (listTemplates_selects DemoOps.unsorted unsorted_permutes (Some "workflow")
           Demo.agreed [("cli", Demo.cliEntry)] Demo.agreed).
  by_computation.
Defined.

Lemma getTemplateStats_counts_witness :
  exists st,
    getTemplateStats DemoOps.unsorted Demo.agreed = (Return st, Demo.agreed) ∧
    total st = size (templates (this_index Demo.agreed)) ∧
    byCategory st = [("project", 0); ("workflow", 1); ("component", 0)].
Proof.
  eexists. split; [by_computation|]. split; [|by_computation].
  apply (getTemplateStats_counts DemoOps.unsorted unsorted_permutes Demo.agreed _ Demo.agreed).
  by_computation.
Defined.

Lemma agreed_layout_ok : layout_ok Demo.agreed.
Proof.
  intros c Hc. unfold categories in Hc. set_unfold in Hc.
  destruct Hc as [H | [H | [H | []]]]; subst c; by_computation.
Defined.

Lemma saveIndex_then_loadIndex_witness :
  loadIndex DemoOps.saved = (Return (Indexed (this_index DemoOps.saved)), DemoOps.saved) ∧
  this_index DemoOps.saved =
    set_lastUpdated (current (clock Demo.agreed)) (this_index Demo.agreed).
Proof. apply (saveIndex_then_loadIndex Demo.agreed). by_computation. Defined.

Lemma createTemplate_then_sync_witness :
  exists report s2,
    syncTemplateIndex DemoOps.reported = (Return report, s2) ∧
    is_Some (templates (this_index DemoOps.reported) !! "report") ∧
    templates (this_index s2) !! "report" =
      templates (this_index DemoOps.reported) !! "report".
Proof.
  apply (createTemplate_then_sync "report" "project" Demo.request Demo.agreed
           DemoOps.reportDocument).
  - apply agreed_layout_ok.
  - reflexivity.
  - intros H. discriminate H.
  - by_computation.
Defined.

Lemma shadowed_hasOwnProperty_blocks_witness :
  (createTemplate "hasOwnProperty" "project" Demo.request Demo.agreed).1 =
    Return (DemoOps.returned VNull
              (createTemplate "hasOwnProperty" "project" Demo.request Demo.agreed).1) ∧
  templateExists "cli" DemoOps.shadowed = (Throw TypeError, DemoOps.shadowed) ∧
  (forall category templateData,
     createTemplate "cli" category templateData DemoOps.shadowed =
       (Throw TypeError, DemoOps.shadowed)) ∧
  readTemplate "cli" DemoOps.shadowed = (Throw TypeError, DemoOps.shadowed) ∧
  (forall updates,
     updateTemplate "cli" updates DemoOps.shadowed = (Throw TypeError, DemoOps.shadowed)) ∧
  deleteTemplate "cli" DemoOps.shadowed = (Throw (Thrown TypeError), DemoOps.shadowed).
Proof.
  split; [by_computation|].
  apply (shadowed_hasOwnProperty_blocks DemoOps.shadowed "cli").
  eexists. by_computation.
Defined.

Lemma inheritedNames_layout_ok : layout_ok DemoOps.inheritedNames.
Proof.
  intros c Hc. unfold categories in Hc. set_unfold in Hc.
  destruct Hc as [H | [H | [H | []]]]; subst c; by_computation.
Defined.

Lemma sync_skips_inherited_names_witness :
  is_Some (templates (this_index DemoOps.inheritedNames) !! "constructor") ∧
  observed Demo.root (tree (disk DemoOps.inheritedNames)) "constructor" = None ∧
  observed Demo.root (tree (disk DemoOps.inheritedNames)) "toString" = Some "project" ∧
  exists report s',
    syncTemplateIndex DemoOps.inheritedNames = (Return report, s') ∧
    forall id, inherited id = true ->
      templates (this_index s') !! id =
      templates (this_index DemoOps.inheritedNames) !! id.
Proof.
  split; [by eexists|]. split; [by_computation|]. split; [by_computation|].
  apply (sync_skips_inherited_names DemoOps.inheritedNames), inheritedNames_layout_ok.
Defined.

End TemplateOpsFacts.

(* ===================================================================== *)
(** * Queries and component scores of the scorer *)
(* ===================================================================== *)

Module ScorerOpsFacts.
Import Js Eff Date AlignmentScorer ScorerOps JsFacts ScorerFacts.
Local Open Scope list_scope.
Local Open Scope Z_scope.


(** ** Lookups in the literals *)

Lemma lookupOr_range (l : list (string * Z)) key fallback n lo hi :
  lookupOr (list_to_map l) key fallback = Some n ->
  lo <= fallback <= hi ->
  Forall (fun kv : string * Z => lo <= kv.2 <= hi) l ->
  lo <= n <= hi.
Proof.
  unfold lookupOr. case_bool_decide; [done|]. intros [= <-] Hf Hall.
  destruct (list_to_map l !! key) as [m|] eqn:Hm; [|done].
  destruct (m =? 0); [done|].
  apply elem_of_list_to_map_2 in Hm. rewrite Forall_forall in Hall.
  by apply (Hall (key, m)).
Qed.

Lemma adjustment_range projectType n :
  _getTimeInvestmentTypeAdjustment projectType = Some n -> -10 <= n <= 10.
Proof.
  intros H. apply (lookupOr_range _ _ _ _ (-10) 10 H); [lia|].
  repeat (constructor; [cbn; lia|]). constructor.
Qed.

Lemma bonus_range projectType n :
  _getComplexityBonus projectType = Some n -> 10 <= n <= 35.
Proof.
  intros H. apply (lookupOr_range _ _ _ _ 10 35 H); [lia|].
  repeat (constructor; [cbn; lia|]). constructor.
Qed.

Lemma timeBase_range h : 40 <= timeBase h <= 85.
Proof. unfold timeBase. repeat (case_match; try lia). Qed.

Lemma timeBase_optimal h : 8 <= h <= 40 -> timeBase h = 85.
Proof.
  intros Hh. unfold timeBase.
  assert ((8 <=? h) && (h <=? 40) = true) as -> by (apply andb_true_iff; lia). done.
Qed.

(** X. The time-investment score is the base plus the adjustment: it lies
    between 30 and 95, so neither clamp acts; hours in the optimal range
    score highest for a type. *)
(** X18. When the time-investment score is a number it is the base for
    the hours plus the adjustment for the type and lies between 30 and 95,
    so the clamp to 0..100 never acts; hours from 8 to 40 give the highest
    score a project type can get. *)
Theorem time_score_unclamped projectInfo r :
  _calculateTimeInvestmentScore projectInfo = Some r ->
  time_score r = timeBase (estimatedHours projectInfo) + typeAdjustment r ∧
  30 <= time_score r <= 95 ∧
  (8 <= estimatedHours projectInfo <= 40 ->
   forall other r',
     projectType other = projectType projectInfo ->
     _calculateTimeInvestmentScore other = Some r' ->
     time_score r' <= time_score r).
Proof.
  unfold _calculateTimeInvestmentScore.
  destruct (_getTimeInvestmentTypeAdjustment (projectType projectInfo)) as [adj|] eqn:Ha;
    [|done].
  intros [= <-]. cbn [time_score typeAdjustment].
  pose proof (adjustment_range _ _ Ha) as Hadj.
  pose proof (timeBase_range (estimatedHours projectInfo)) as Hb.
  split; [lia|]. split; [lia|].
  intros Hopt other r' Htype. rewrite Htype, Ha. intros [= <-]. cbn [time_score].
  rewrite (timeBase_optimal _ Hopt).
  pose proof (timeBase_range (estimatedHours other)). lia.
Qed.

Lemma description_range d : 0 <= _assessDescriptionQuality d <= 15.
Proof. unfold _assessDescriptionQuality. repeat case_match; lia. Qed.

(** The score before the cap, from the counts and the two bonuses. *)
Lemma learning_score_formula projectInfo r :
  _calculateLearningPotentialScore projectInfo = Some r ->
  exists bonus,
    _getComplexityBonus (projectType projectInfo) = Some bonus ∧
    learning_score r =
      Z.min (Z.min (Z.of_nat (length (technologies projectInfo)) * 15) 30 + bonus +
             Z.min (Z.of_nat (length (learningGoals projectInfo)) * 10) 25 +
             _assessDescriptionQuality (description projectInfo)) 100 ∧
    (1 <= length (factors r) <= 4)%nat.
Proof.
  unfold _calculateLearningPotentialScore.
  pose proof (description_range (description projectInfo)) as Hd.
  destruct (_getComplexityBonus (projectType projectInfo)) as [bonus|];
    [|by destruct (0 <? _)].
  destruct (technologies projectInfo) as [|t ts], (learningGoals projectInfo) as [|g gs];
    cbn [length];
    repeat match goal with
           | |- context [(0 <? Z.of_nat 0)] => change (0 <? Z.of_nat 0) with false
           | |- context [(0 <? Z.of_nat (S ?n))] =>
               replace (0 <? Z.of_nat (S n)) with true by (symmetry; apply Z.ltb_lt; lia)
           end; cbv beta iota zeta;
    destruct (0 <? _assessDescriptionQuality (description projectInfo));
    intros [= <-]; exists bonus; (split; [done|]);
    cbn [learning_score factors length app]; split; try lia.
Qed.

(** X19. When the learning-potential score is a number it lies between
    10 and 100, and it comes with one to four factors. *)
Theorem learning_score_range projectInfo r :
  _calculateLearningPotentialScore projectInfo = Some r ->
  10 <= learning_score r <= 100 ∧ (1 <= length (factors r) <= 4)%nat.
Proof.
  intros Hr. destruct (learning_score_formula _ _ Hr) as (bonus & Hb & -> & Hf).
  split; [|done]. pose proof (bonus_range _ _ Hb).
  pose proof (description_range (description projectInfo)). lia.
Qed.

(** X20. For the same type and description, a project with at least as
    many technologies and learning goals never scores less learning
    potential. *)
Theorem learning_score_monotone projectInfo more r r' :
  projectType more = projectType projectInfo ->
  description more = description projectInfo ->
  (length (technologies projectInfo) <= length (technologies more))%nat ->
  (length (learningGoals projectInfo) <= length (learningGoals more))%nat ->
  _calculateLearningPotentialScore projectInfo = Some r ->
  _calculateLearningPotentialScore more = Some r' ->
  learning_score r <= learning_score r'.
Proof.
  intros Ht Hd Htech Hgoals Hr Hr'.
  destruct (learning_score_formula _ _ Hr) as (bonus & Hb & -> & _).
  destruct (learning_score_formula _ _ Hr') as (bonus' & Hb' & -> & _).
  rewrite Ht, Hb in Hb'. injection Hb' as <-. rewrite Hd. lia.
Qed.


(** ** Queries *)

Lemma slice0_take {A} limit (l : list A) :
  exists n, slice0 limit l = take n l ∧
    (0 <= limit -> n = Z.to_nat limit) ∧
    (limit < 0 -> n = (length l - Z.to_nat (- limit))%nat).
Proof.
  unfold slice0. destruct (limit <? 0) eqn:Hl.
  - apply Z.ltb_lt in Hl. eexists. split; [done|]. split; lia.
  - apply Z.ltb_ge in Hl. eexists. split; [done|]. split; [done|lia].
Qed.

(** X21. [getScoringHistory] returns the newest entries of the stored
    history: a prefix of it, of the length of the limit (10 by default) or
    of the whole history if that is shorter; a negative limit leaves out
    that many of the oldest entries. *)
Theorem getScoringHistory_slice limit s :
  getScoringHistory limit s `prefix_of` historyOf s ∧
  (0 <= default 10 limit ->
   length (getScoringHistory limit s) =
   Nat.min (Z.to_nat (default 10%Z limit)) (length (historyOf s))) ∧
  (default 10 limit < 0 ->
   length (getScoringHistory limit s) =
   (length (historyOf s) - Z.to_nat (- default 10%Z limit))%nat).
Proof.
  unfold getScoringHistory. fold (historyOf s).
  destruct (slice0_take (default 10 limit) (historyOf s)) as (n & -> & Hpos & Hneg).
  split; [apply prefix_take|]. rewrite length_take. split.
  - intros H. by rewrite (Hpos H).
  - intros H. rewrite (Hneg H). lia.
Qed.

Section Scoring.
Variable calc : ProjectInfo -> state -> option AlignmentScore.

(** The state a scored call leaves. *)
Lemma scoreProject_state projectName projectData s sc :
  calc (withDefaults projectName projectData) s = Some sc ->
  exists o s',
    scoreProject calc projectName projectData s = (o, s') ∧
    projectScores (scoresData s') =
      assign projectName
        (mkStored sc (current (clock s))
           (description (withDefaults projectName projectData),
            tags (withDefaults projectName projectData),
            projectType (withDefaults projectName projectData),
            technologies (withDefaults projectName projectData)))
        (projectScores (scoresData s)) ∧
    scoringHistory (scoresData s') =
      Some (take 50 (entryFor projectName sc s :: historyOf s)) ∧
    scoresFile s' = (if writable s then Some (scoresData s') else scoresFile s).
Proof.
  intros Hc. unfold scoreProject, _saveScoresData, writeScoresFile.
  unfold bind, get_state, now, set_scoresData, ret, throw. rewrite Hc. simpl.
  destruct (writable s); eexists _, _; (split; [reflexivity|]); simpl; done.
Qed.


(** X23. After a call of [scoreProject] whose score is computed,
    [getScoringHistory] with a limit from 1 to 50 returns the entry of that
    call followed by the newest earlier entries, and with no limit that
    entry and the nine newest earlier ones. *)
Theorem scoreProject_then_getScoringHistory projectName projectData s sc n :
  calc (withDefaults projectName projectData) s = Some sc ->
  (n < 50)%nat ->
  let s' := (scoreProject calc projectName projectData s).2 in
  getScoringHistory (Some (Z.of_nat (S n))) s' =
    entryFor projectName sc s :: take n (historyOf s) ∧
  getScoringHistory None s' = entryFor projectName sc s :: take 9 (historyOf s).
Proof.
  intros Hc Hn s'.
  destruct (scoreProject_state _ projectData _ _ Hc) as (o & s1 & Hrun & _ & Hh & _).
  subst s'. rewrite Hrun. cbn [snd]. unfold getScoringHistory. rewrite Hh.
  cbn [default from_option id].
  split.
  - destruct (slice0_take (Z.of_nat (S n))
                (take 50 (entryFor projectName sc s :: historyOf s))) as (m & -> & Hm & _).
    rewrite Hm by lia. rewrite Nat2Z.id, take_take.
    by replace (Nat.min (S n) 50) with (S n) by lia.
  - destruct (slice0_take 10
                (take 50 (entryFor projectName sc s :: historyOf s))) as (m & -> & Hm & _).
    rewrite Hm by lia. by rewrite take_take.
Qed.

End Scoring.

(** ** The highest scores *)







(** ** On concrete inputs *)

Ltac evaluate := vm_compute; reflexivity.

Lemma time_score_unclamped_witness :
  exists r,
    _calculateTimeInvestmentScore DemoOps.trial = Some r ∧
    time_score r = timeBase (estimatedHours DemoOps.trial) + typeAdjustment r ∧
    30 <= time_score r <= 95.
Proof.
  eexists. split; [evaluate|].
  destruct (time_score_unclamped DemoOps.trial (mkTimeScore 95 20 10)) as (Hsum & Hrange & _);
    [evaluate|].
  split; [exact Hsum|exact Hrange].
Defined.

Lemma learning_score_range_witness :
  exists r,
    _calculateLearningPotentialScore DemoOps.service = Some r ∧
    10 <= learning_score r <= 100 ∧ (1 <= length (factors r) <= 4)%nat.
Proof.
  eexists. split; [evaluate|].
  apply (learning_score_range DemoOps.service). evaluate.
Defined.

Lemma learning_score_monotone_witness :
  exists r r',
    _calculateLearningPotentialScore DemoOps.sketch = Some r ∧
    _calculateLearningPotentialScore DemoOps.service = Some r' ∧
    learning_score r <= learning_score r'.
Proof.
  eexists _, _. split; [evaluate|]. split; [evaluate|].
  apply (learning_score_monotone DemoOps.sketch DemoOps.service);
    first [reflexivity | evaluate | (cbn; lia)].
Defined.


Lemma scoreProject_then_getScoringHistory_witness :
  getScoringHistory (Some 1)
    (scoreProject Demo.flatScore "demo" Demo.noData Demo.scorer).2 =
    [entryFor "demo" (mkScore 72 VNull) Demo.scorer] ∧
  getScoringHistory None
    (scoreProject Demo.flatScore "demo" Demo.noData Demo.scorer).2 =
    [entryFor "demo" (mkScore 72 VNull) Demo.scorer].
Proof.
  apply (scoreProject_then_getScoringHistory Demo.flatScore "demo" Demo.noData Demo.scorer
           (mkScore 72 VNull) 0%nat); [reflexivity|lia].
Defined.

End ScorerOpsFacts.
